(** * react-native-dynamic-toast: the notification presentation engine

    A shallow embedding of the device classifier ([config/devices.ts]), the
    three variant animators ([DynamicIslandNotifications.tsx],
    [NotchNotification.tsx], [ToastNotification.tsx]) and the notification
    provider ([index.tsx]), with the properties of the specification stated
    and settled against it.

    Conventions of the embedding.
    - A JavaScript [number] is an IEEE-754 double, kept as the rational
      ([Q]) it equals.  Every arithmetic operation of the sources is the
      exact operation followed by the rounding to the nearest double
      ([Double.round], ties to even); a decimal literal is kept as it is
      spelled where it is only stored or compared, and rounded where it
      enters an operation.  A delay is a whole number of milliseconds
      ([Z] as a prop, [nat] once armed).
    - [string | undefined] is [option string]; a JavaScript truthiness test
      is written out ([truthy_string], [truthy_bool]).
    - Time is a natural number of milliseconds.  [setTimeout] appends to
      the timer queue of the instance; [tick] advances the clock by one
      millisecond and runs the timers that are due, in the order in which
      they were armed. *)

From Stdlib Require Import QArith Qminmax Qround Qpower.
From stdpp Require Import base strings list gmap.

Local Open Scope Z_scope.
Local Open Scope string_scope.

(** ** JavaScript helpers *)

(** [!!s] for a [string | undefined]: the empty string and [undefined] are
    falsy. *)
Definition truthy_string (s : option string) : bool :=
  match s with
  | None => false
  | Some s => negb (String.eqb s "")
  end.

(** [Array.prototype.includes] on an array of strings. *)
Definition includes (l : list string) (s : string) : bool :=
  existsb (String.eqb s) l.

(** [a || b] where [a] is a possibly absent value whose present values are
    all truthy. *)
Definition or_default {A} (a : option A) (b : A) : A :=
  match a with Some x => x | None => b end.

(** ** JavaScript numbers

    The finite doubles: 53 bits of precision, subnormals below 2^-1022.
    The sizes this program computes are products of a window dimension
    with a ratio below 1, sums with small constants and halves, which do
    not overflow. *)
Module Double.

Local Open Scope Q_scope.

Definition pow2 (e : Z) : Q := (2 # 1) ^ e.

(** [floor (log2 x)] of a positive rational. *)
Definition ilog2 (x : Q) : Z :=
  let k := (Z.log2 (Qnum x) - Z.log2 (Zpos (Qden x)))%Z in
  if Qle_bool (pow2 k) x then k else (k - 1)%Z.

(** The nearest integer, a tie going to the even one. *)
Definition rint (x : Q) : Z :=
  let f := Qfloor x in
  match Qcompare (x - inject_Z f) (1 # 2) with
  | Lt => f
  | Eq => if Z.even f then f else (f + 1)%Z
  | Gt => (f + 1)%Z
  end.

(** The exponent of the unit in the last place of [x]. *)
Definition ulp (x : Q) : Z := Z.max (ilog2 x - 52) (-1074).

Definition roundPos (x : Q) : Q :=
  inject_Z (rint (x / pow2 (ulp x))) * pow2 (ulp x).

(** The double nearest to [x]. *)
Definition round (x : Q) : Q :=
  match Qnum x with
  | Z0 => 0
  | Zpos _ => Qred (roundPos x)
  | Zneg _ => Qred (- roundPos (- x))
  end.

(** [a + b], [a - b], [a * b] and [a / b] on doubles. *)
Definition add (a b : Q) : Q := round (a + b).
Definition sub (a b : Q) : Q := round (a - b).
Definition mul (a b : Q) : Q := round (a * b).
Definition div (a b : Q) : Q := round (a / b).

End Double.

(** ** config/devices.ts *)
Module Devices.

Definition devicesWithDynamicIsland : list string :=
  [ "iPhone14,2"; "iPhone14,3"; "iPhone15,2"; "iPhone15,3";
    "iPhone16,1"; "iPhone16,2"; "iPhone16,3"; "iPhone16,4";
    "iPhone16,5"; "iPhone16,6"; "iPhone16,7"; "iPhone16,8";
    "arm64" ].

Definition devicesWithNotch : list string :=
  [ "iPhone10,3"; "iPhone10,6"; "iPhone11,2"; "iPhone11,4";
    "iPhone11,6"; "iPhone11,8"; "iPhone12,1"; "iPhone12,3";
    "iPhone12,5"; "iPhone13,1"; "iPhone13,2"; "iPhone13,3";
    "iPhone13,4"; "iPhone14,4"; "iPhone14,5"; "iPhone14,6";
    "iPhone14,7"; "iPhone14,8" ].

Inductive DeviceType : Set :=
  | DYNAMIC_ISLAND
  | NOTCH
  | STANDARD.

#[global] Instance DeviceType_eq_dec : EqDecision DeviceType.
Proof. solve_decision. Defined.

Record DeviceAnimationConfig : Set := mkConfig {
  minWidthRatio : Q;
  maxWidthRatio : Q;
  expandedHeight : Q;
  borderRadius : Q;
  initialScale : Q;
  initialHeight : Q
}.

(** [Partial<DeviceAnimationConfig>]: every key may be missing. *)
Record PartialConfig : Set := mkPartial {
  p_minWidthRatio : option Q;
  p_maxWidthRatio : option Q;
  p_expandedHeight : option Q;
  p_borderRadius : option Q;
  p_initialScale : option Q;
  p_initialHeight : option Q
}.

Definition dynamicIslandConfig : DeviceAnimationConfig :=
  {| minWidthRatio := 3 # 10; maxWidthRatio := 9 # 10;
     expandedHeight := 75 # 1; borderRadius := 37 # 1;
     initialScale := 85 # 100; initialHeight := 38 # 1 |}.

Definition notchConfig : DeviceAnimationConfig :=
  {| minWidthRatio := 4 # 10; maxWidthRatio := 9 # 10;
     expandedHeight := 80 # 1; borderRadius := 25 # 1;
     initialScale := 9 # 10; initialHeight := 30 # 1 |}.

Definition standardConfig : DeviceAnimationConfig :=
  {| minWidthRatio := 3 # 10; maxWidthRatio := 9 # 10;
     expandedHeight := 70 # 1; borderRadius := 20 # 1;
     initialScale := 1 # 1; initialHeight := 0 # 1 |}.

(** The empty object [{}]. *)
Definition emptyPartial : PartialConfig :=
  mkPartial None None None None None None.

Definition proAdjust : PartialConfig :=
  mkPartial (Some (35 # 100)) (Some (8 # 10)) (Some (80 # 1)) None
            (Some (9 # 10)) None.

Definition proMaxAdjust : PartialConfig :=
  mkPartial (Some (25 # 100)) (Some (75 # 100)) (Some (80 # 1)) None
            (Some (9 # 10)) None.

Definition notchAdjust : PartialConfig :=
  mkPartial (Some (5 # 10)) (Some (85 # 100)) None None None None.

Definition deviceSpecificConfigs : gmap string PartialConfig :=
  list_to_map
    [ ("iPhone16,1", proAdjust); ("iPhone16,5", proAdjust);
      ("iPhone16,2", proMaxAdjust); ("iPhone16,6", proMaxAdjust);
      ("iPhone15,4", notchAdjust); ("iPhone14,8", notchAdjust) ].


Definition detectDeviceType (deviceId : option string) : DeviceType :=
  if negb (truthy_string deviceId) then STANDARD
  else
    let id := or_default deviceId "" in
    if includes devicesWithDynamicIsland id then DYNAMIC_ISLAND
    else if includes devicesWithNotch id then NOTCH
    else STANDARD.

Definition hasDynamicIsland (deviceId : option string) : bool :=
  includes devicesWithDynamicIsland (or_default deviceId "").

Definition hasNotch (deviceId : option string) : bool :=
  includes devicesWithNotch (or_default deviceId "").

(** The object spread [{...base, ...specific}]. *)
Definition spread (base : DeviceAnimationConfig) (specific : PartialConfig)
  : DeviceAnimationConfig :=
  {| minWidthRatio := or_default (p_minWidthRatio specific) (minWidthRatio base);
     maxWidthRatio := or_default (p_maxWidthRatio specific) (maxWidthRatio base);
     expandedHeight := or_default (p_expandedHeight specific) (expandedHeight base);
     borderRadius := or_default (p_borderRadius specific) (borderRadius base);
     initialScale := or_default (p_initialScale specific) (initialScale base);
     initialHeight := or_default (p_initialHeight specific) (initialHeight base) |}.

Definition baseConfigOf (type : DeviceType) : DeviceAnimationConfig :=
  match type with
  | DYNAMIC_ISLAND => dynamicIslandConfig
  | NOTCH => notchConfig
  | STANDARD => standardConfig
  end.

(** A property read of [deviceSpecificConfigs] also sees the members a
    JavaScript object inherits ("constructor", "toString", ...); these are
    truthy but have no enumerable own property, so spreading one adds
    nothing, as spreading [{}] does.  The lookup in the table of own keys
    gives the same result. *)
Definition getDeviceAnimationConfig
    (deviceId : option string) (deviceType : option DeviceType)
  : DeviceAnimationConfig :=
  let type := or_default deviceType (detectDeviceType deviceId) in
  let baseConfig := baseConfigOf type in
  let specificConfig :=
    if truthy_string deviceId
    then or_default (deviceSpecificConfigs !! or_default deviceId "") emptyPartial
    else emptyPartial in
  spread baseConfig specificConfig.

End Devices.

(** ** The variant animators

    [DynamicIslandNotifications.tsx], [NotchNotification.tsx] and
    [ToastNotification.tsx] are three React function components with the
    same props.  One record holds the state of a mounted instance: its
    props, its [useState] cells, its refs, its animated shared values, and
    the timers it armed.  A shared value assigned an animation
    ([withTiming], [withSpring]) is recorded with the value the animation
    settles at; for [slideDown], whose slide-up carries a completion
    callback, the record also tells whether the animated value still is
    0 ([slideMoving]). *)
Module Animator.
Import Devices.

Local Open Scope Q_scope.

Inductive Platform : Set := ios | android.

Inductive NotificationType : Set := success | failed | default.

Record Props : Set := mkProps {
  message : string;
  type : option NotificationType;
  textColor : option string;
  showShadow : option bool;
  shadowColor : option string;
  borderColor : option string;
  children : bool;               (* is custom content supplied *)
  autoHideDelay : option Z;      (* milliseconds *)
  setClose : bool;               (* is a setClose callback supplied *)
  disableAutoHide : option bool;
  enableHaptics : option bool
}.

(** *** Constants *)
Definition ANIMATION_DURATION : nat := 350.
Definition DEFAULT_AUTO_HIDE_DELAY : Z := 3000.

Definition BASE_DYNAMIC_ISLAND_MIN_WIDTH : Q := 126 # 1.
Definition BASE_DYNAMIC_ISLAND_MAX_WIDTH : Q := 350 # 1.
Definition ISLAND_CONTENT_PADDING_TOP : Q := 25 # 1.
Definition ISLAND_CONTENT_PADDING_BOTTOM : Q := 12 # 1.

Definition NOTCH_HEIGHT (os : Platform) : Q :=
  match os with ios => 44 # 1 | android => 30 # 1 end.
Definition NOTCH_CONTENT_PADDING_TOP (os : Platform) : Q :=
  Double.add (NOTCH_HEIGHT os) (5 # 1).
Definition NOTCH_CONTENT_PADDING_BOTTOM : Q := 10 # 1.
Definition NOTCH_WIDTH : Q := 170 # 1.

(** *** Observable effects and timers *)
Inductive HapticKind : Set := NotificationSuccess | NotificationError | ImpactMedium.

Inductive SharedName : Set :=
  | Expansion | TextOpacity | TextScale
  | SlideDown | Opacity | Scale
  | CompletelyHidden | ContentSize.

Inductive Effect : Set :=
  | EOnHide                       (* the onHide prop is invoked *)
  | ESetClose                     (* setClose(hideNotification) *)
  | EHaptic (k : HapticKind)      (* a call into expo-haptics *)
  | EWrite (v : SharedName)       (* an assignment to a shared value *)
  | EHide.                        (* hideNotification is entered *)

(** The closures handed to [setTimeout] and to [withTiming]. *)
Inductive Task : Set :=
  | ShowText        (* mount effect of the island and the notch, 175 ms *)
  | ToastAppear     (* mount effect of the toast, 50 ms *)
  | AutoHide        (* setTimeout(hideNotification, ...) *)
  | Collapse        (* first timeout of hideNotification *)
  | FinalShrink     (* second, nested timeout *)
  | CallOnHide      (* third, nested timeout *)
  | SlideUpDone     (* the toast's slide-up reaches 0: its callback *)
  | SlideUpCancelled. (* the callback of a slide-up that was replaced *)

Record Timer : Set := mkTimer { tid : nat; due : nat; task : Task }.

Record Size : Set := mkSize { w : Q; h : Q }.

Record Inst : Set := mkInst {
  variant : DeviceType;          (* which of the three components *)
  props : Props;
  os : Platform;
  windowWidth : Q;
  windowHeight : Q;
  deviceConfig : DeviceAnimationConfig;   (* useState *)
  notificationHeight : Q;                 (* useState(0) *)
  expansion : Q;
  textOpacity : Q;
  textScale : Q;
  slideDown : Q;
  slideMoving : option nat;               (* see [slideDownIsZero] *)
  opacity : Q;
  scale : Q;
  completelyHidden : Z;
  contentSize : Size;
  measuredOnce : bool;                    (* useRef(false) *)
  isMounted : bool;                       (* useRef(true) *)
  currentHeight : Q;                      (* useRef *)
  now : nat;
  timers : list Timer;
  nextTimerId : nat;
  autoHideTimeout : option nat;           (* the [timeout] of the mount effect *)
  trace : list (nat * Effect)
}.

(** Field updates. *)
Definition set_deviceConfig (x : DeviceAnimationConfig) (s : Inst) : Inst :=
  mkInst (variant s) (props s) (os s) (windowWidth s) (windowHeight s) x
        (notificationHeight s) (expansion s) (textOpacity s) (textScale s)
        (slideDown s) (slideMoving s) (opacity s) (scale s) (completelyHidden
        s) (contentSize s) (measuredOnce s) (isMounted s) (currentHeight s)
        (now s) (timers s) (nextTimerId s) (autoHideTimeout s) (trace s).
Definition set_notificationHeight (x : Q) (s : Inst) : Inst :=
  mkInst (variant s) (props s) (os s) (windowWidth s) (windowHeight s)
        (deviceConfig s) x (expansion s) (textOpacity s) (textScale s)
        (slideDown s) (slideMoving s) (opacity s) (scale s) (completelyHidden
        s) (contentSize s) (measuredOnce s) (isMounted s) (currentHeight s)
        (now s) (timers s) (nextTimerId s) (autoHideTimeout s) (trace s).
Definition set_measuredOnce (x : bool) (s : Inst) : Inst :=
  mkInst (variant s) (props s) (os s) (windowWidth s) (windowHeight s)
        (deviceConfig s) (notificationHeight s) (expansion s) (textOpacity s)
        (textScale s) (slideDown s) (slideMoving s) (opacity s) (scale s)
        (completelyHidden s) (contentSize s) x (isMounted s) (currentHeight s)
        (now s) (timers s) (nextTimerId s) (autoHideTimeout s) (trace s).
Definition set_isMounted (x : bool) (s : Inst) : Inst :=
  mkInst (variant s) (props s) (os s) (windowWidth s) (windowHeight s)
        (deviceConfig s) (notificationHeight s) (expansion s) (textOpacity s)
        (textScale s) (slideDown s) (slideMoving s) (opacity s) (scale s)
        (completelyHidden s) (contentSize s) (measuredOnce s) x (currentHeight
        s) (now s) (timers s) (nextTimerId s) (autoHideTimeout s) (trace s).
Definition set_currentHeight (x : Q) (s : Inst) : Inst :=
  mkInst (variant s) (props s) (os s) (windowWidth s) (windowHeight s)
        (deviceConfig s) (notificationHeight s) (expansion s) (textOpacity s)
        (textScale s) (slideDown s) (slideMoving s) (opacity s) (scale s)
        (completelyHidden s) (contentSize s) (measuredOnce s) (isMounted s) x
        (now s) (timers s) (nextTimerId s) (autoHideTimeout s) (trace s).
Definition set_now (x : nat) (s : Inst) : Inst :=
  mkInst (variant s) (props s) (os s) (windowWidth s) (windowHeight s)
        (deviceConfig s) (notificationHeight s) (expansion s) (textOpacity s)
        (textScale s) (slideDown s) (slideMoving s) (opacity s) (scale s)
        (completelyHidden s) (contentSize s) (measuredOnce s) (isMounted s)
        (currentHeight s) x (timers s) (nextTimerId s) (autoHideTimeout s)
        (trace s).
Definition set_timers (x : list Timer) (s : Inst) : Inst :=
  mkInst (variant s) (props s) (os s) (windowWidth s) (windowHeight s)
        (deviceConfig s) (notificationHeight s) (expansion s) (textOpacity s)
        (textScale s) (slideDown s) (slideMoving s) (opacity s) (scale s)
        (completelyHidden s) (contentSize s) (measuredOnce s) (isMounted s)
        (currentHeight s) (now s) x (nextTimerId s) (autoHideTimeout s) (trace
        s).
Definition set_nextTimerId (x : nat) (s : Inst) : Inst :=
  mkInst (variant s) (props s) (os s) (windowWidth s) (windowHeight s)
        (deviceConfig s) (notificationHeight s) (expansion s) (textOpacity s)
        (textScale s) (slideDown s) (slideMoving s) (opacity s) (scale s)
        (completelyHidden s) (contentSize s) (measuredOnce s) (isMounted s)
        (currentHeight s) (now s) (timers s) x (autoHideTimeout s) (trace s).
Definition set_autoHideTimeout (x : option nat) (s : Inst) : Inst :=
  mkInst (variant s) (props s) (os s) (windowWidth s) (windowHeight s)
        (deviceConfig s) (notificationHeight s) (expansion s) (textOpacity s)
        (textScale s) (slideDown s) (slideMoving s) (opacity s) (scale s)
        (completelyHidden s) (contentSize s) (measuredOnce s) (isMounted s)
        (currentHeight s) (now s) (timers s) (nextTimerId s) x (trace s).
Definition set_slideMoving (x : option nat) (s : Inst) : Inst :=
  mkInst (variant s) (props s) (os s) (windowWidth s) (windowHeight s)
        (deviceConfig s) (notificationHeight s) (expansion s) (textOpacity s)
        (textScale s) (slideDown s) x (opacity s) (scale s) (completelyHidden
        s) (contentSize s) (measuredOnce s) (isMounted s) (currentHeight s)
        (now s) (timers s) (nextTimerId s) (autoHideTimeout s) (trace s).
Definition set_trace (x : list (nat * Effect)) (s : Inst) : Inst :=
  mkInst (variant s) (props s) (os s) (windowWidth s) (windowHeight s)
        (deviceConfig s) (notificationHeight s) (expansion s) (textOpacity s)
        (textScale s) (slideDown s) (slideMoving s) (opacity s) (scale s)
        (completelyHidden s) (contentSize s) (measuredOnce s) (isMounted s)
        (currentHeight s) (now s) (timers s) (nextTimerId s) (autoHideTimeout
        s) x.

Definition emit (e : Effect) (s : Inst) : Inst :=
  set_trace (trace s ++ [(now s, e)]) s.

(** Assignments to the shared values; each is logged. *)
Definition set_expansion (x : Q) (s : Inst) : Inst :=
  let s := emit (EWrite Expansion) s in
  mkInst (variant s) (props s) (os s) (windowWidth s) (windowHeight s)
        (deviceConfig s) (notificationHeight s) x (textOpacity s) (textScale
        s) (slideDown s) (slideMoving s) (opacity s) (scale s)
        (completelyHidden s) (contentSize s) (measuredOnce s) (isMounted s)
        (currentHeight s) (now s) (timers s) (nextTimerId s) (autoHideTimeout
        s) (trace s).
Definition set_textOpacity (x : Q) (s : Inst) : Inst :=
  let s := emit (EWrite TextOpacity) s in
  mkInst (variant s) (props s) (os s) (windowWidth s) (windowHeight s)
        (deviceConfig s) (notificationHeight s) (expansion s) x (textScale s)
        (slideDown s) (slideMoving s) (opacity s) (scale s) (completelyHidden
        s) (contentSize s) (measuredOnce s) (isMounted s) (currentHeight s)
        (now s) (timers s) (nextTimerId s) (autoHideTimeout s) (trace s).
Definition set_textScale (x : Q) (s : Inst) : Inst :=
  let s := emit (EWrite TextScale) s in
  mkInst (variant s) (props s) (os s) (windowWidth s) (windowHeight s)
        (deviceConfig s) (notificationHeight s) (expansion s) (textOpacity s)
        x (slideDown s) (slideMoving s) (opacity s) (scale s)
        (completelyHidden s) (contentSize s) (measuredOnce s) (isMounted s)
        (currentHeight s) (now s) (timers s) (nextTimerId s) (autoHideTimeout
        s) (trace s).
Definition set_slideDown (x : Q) (s : Inst) : Inst :=
  let s := emit (EWrite SlideDown) s in
  mkInst (variant s) (props s) (os s) (windowWidth s) (windowHeight s)
        (deviceConfig s) (notificationHeight s) (expansion s) (textOpacity s)
        (textScale s) x (slideMoving s) (opacity s) (scale s)
        (completelyHidden s) (contentSize s) (measuredOnce s) (isMounted s)
        (currentHeight s) (now s) (timers s) (nextTimerId s) (autoHideTimeout
        s) (trace s).
Definition set_opacity (x : Q) (s : Inst) : Inst :=
  let s := emit (EWrite Opacity) s in
  mkInst (variant s) (props s) (os s) (windowWidth s) (windowHeight s)
        (deviceConfig s) (notificationHeight s) (expansion s) (textOpacity s)
        (textScale s) (slideDown s) (slideMoving s) x (scale s)
        (completelyHidden s) (contentSize s) (measuredOnce s) (isMounted s)
        (currentHeight s) (now s) (timers s) (nextTimerId s) (autoHideTimeout
        s) (trace s).
Definition set_scale (x : Q) (s : Inst) : Inst :=
  let s := emit (EWrite Scale) s in
  mkInst (variant s) (props s) (os s) (windowWidth s) (windowHeight s)
        (deviceConfig s) (notificationHeight s) (expansion s) (textOpacity s)
        (textScale s) (slideDown s) (slideMoving s) (opacity s) x
        (completelyHidden s) (contentSize s) (measuredOnce s) (isMounted s)
        (currentHeight s) (now s) (timers s) (nextTimerId s) (autoHideTimeout
        s) (trace s).
Definition set_completelyHidden (x : Z) (s : Inst) : Inst :=
  let s := emit (EWrite CompletelyHidden) s in
  mkInst (variant s) (props s) (os s) (windowWidth s) (windowHeight s)
        (deviceConfig s) (notificationHeight s) (expansion s) (textOpacity s)
        (textScale s) (slideDown s) (slideMoving s) (opacity s) (scale s) x
        (contentSize s) (measuredOnce s) (isMounted s) (currentHeight s) (now
        s) (timers s) (nextTimerId s) (autoHideTimeout s) (trace s).
Definition set_contentSize (x : Size) (s : Inst) : Inst :=
  let s := emit (EWrite ContentSize) s in
  mkInst (variant s) (props s) (os s) (windowWidth s) (windowHeight s)
        (deviceConfig s) (notificationHeight s) (expansion s) (textOpacity s)
        (textScale s) (slideDown s) (slideMoving s) (opacity s) (scale s)
        (completelyHidden s) x (measuredOnce s) (isMounted s) (currentHeight
        s) (now s) (timers s) (nextTimerId s) (autoHideTimeout s) (trace s).

(** *** Timers *)

(** [setTimeout(task, delay)]: the timer is queued behind the timers armed
    before it and its identifier is returned.  A timer never runs inside
    the callback that arms it: a delay below 1 ms is served at the next
    millisecond. *)
Definition setTimeout (t : Task) (delay : nat) (s : Inst) : nat * Inst :=
  let id := nextTimerId s in
  (id, set_nextTimerId (S id)
         (set_timers (timers s ++ [mkTimer id (now s + Nat.max 1 delay) t]) s)).

Definition setTimeout_ (t : Task) (delay : nat) (s : Inst) : Inst :=
  snd (setTimeout t delay s).

Definition clearTimeout (id : nat) (s : Inst) : Inst :=
  set_timers (List.filter (fun t => negb (Nat.eqb (tid t) id)) (timers s)) s.

(** [autoHideDelay || DEFAULT_AUTO_HIDE_DELAY]: an absent delay and the
    number 0 are falsy. *)
Definition effectiveAutoHideDelay (d : option Z) : Z :=
  match d with
  | Some d => if Z.eqb d 0 then DEFAULT_AUTO_HIDE_DELAY else d
  | None => DEFAULT_AUTO_HIDE_DELAY
  end.

(** [!x] for a [boolean | undefined]. *)
Definition truthy_bool (b : option bool) : bool := or_default b false.

(** *** Values computed at render *)

Definition typeOf (p : Props) : NotificationType := or_default (type p) default.

(** The destructuring defaults [showShadow = false] (island, notch) and
    [showShadow = true] (toast). *)
Definition showShadowDefault (v : DeviceType) : bool :=
  match v with
  | DYNAMIC_ISLAND => false
  | NOTCH => false
  | STANDARD => true
  end.

Definition showShadowOf (v : DeviceType) (p : Props) : bool :=
  or_default (showShadow p) (showShadowDefault v).

Definition enableHapticsOf (p : Props) : bool := or_default (enableHaptics p) true.

(** [textColor || '#...']. *)
Definition color (p : Props) : string :=
  let fallback :=
    match typeOf p with
    | success => "#4CAF50"
    | failed => "#F44336"
    | default => "#FFFFFF"
    end in
  if truthy_string (textColor p) then or_default (textColor p) "" else fallback.

Record ShadowStyle : Set := mkShadow {
  sh_shadowColor : string;
  sh_offsetHeight : Z;
  sh_shadowOpacity : Q;
  sh_shadowRadius : Z;
  sh_elevation : Z
}.

(** [shadowStyle]: [None] is the empty style object. *)
Definition shadowStyle (v : DeviceType) (p : Props) : option ShadowStyle :=
  if showShadowOf v p then
    match v with
    | STANDARD =>
        Some (mkShadow
                (if truthy_string (shadowColor p)
                 then or_default (shadowColor p) "" else "#000000")
                3 (3 # 10) 5 6)
    | _ =>
        Some (mkShadow
                (if truthy_string (shadowColor p)
                 then or_default (shadowColor p) "" else color p)
                0 (3 # 10) 15 25)
    end
  else None.

Definition dynamicIslandMaxWidth (s : Inst) : Q :=
  Qmin BASE_DYNAMIC_ISLAND_MAX_WIDTH
       (Double.mul (windowWidth s) (Double.round (maxWidthRatio (deviceConfig s)))).

Definition notchMaxWidth (s : Inst) : Q :=
  Qmin (Double.mul (windowWidth s) (Double.round (maxWidthRatio (deviceConfig s))))
       (Double.mul (windowWidth s) (Double.round (95 # 100))).

(** *** onContentLayout *)

Definition island_onContentLayout (width height : Q) (s : Inst) : Inst :=
  if negb (isMounted s) then s
  else
    let newHeight :=
      Qmax (Double.add (Double.add height ISLAND_CONTENT_PADDING_TOP)
                       ISLAND_CONTENT_PADDING_BOTTOM)
           (expandedHeight (deviceConfig s)) in
    let s := set_currentHeight newHeight s in
    let '(newWidth, s) :=
      if negb (measuredOnce s)
      then (Qmin (Double.add width (40 # 1)) (dynamicIslandMaxWidth s),
            set_measuredOnce true s)
      else (dynamicIslandMaxWidth s, s) in
    set_contentSize (mkSize newWidth newHeight) s.

Definition notch_onContentLayout (width height : Q) (s : Inst) : Inst :=
  if negb (isMounted s) then s
  else
    let newHeight :=
      Qmax (Double.add (Double.add height (NOTCH_CONTENT_PADDING_TOP (os s)))
                       NOTCH_CONTENT_PADDING_BOTTOM)
           (expandedHeight (deviceConfig s)) in
    let s := set_currentHeight newHeight s in
    let '(newWidth, s) :=
      if negb (measuredOnce s)
      then (Qmin (Double.add width (40 # 1)) (notchMaxWidth s),
            set_measuredOnce true s)
      else (notchMaxWidth s, s) in
    set_contentSize (mkSize newWidth newHeight) s.

Definition toast_onContentLayout (width height : Q) (s : Inst) : Inst :=
  if negb (isMounted s) || measuredOnce s then s
  else
    let s := set_notificationHeight height s in
    let s :=
      set_contentSize
        (mkSize (Double.mul (windowWidth s)
                            (Double.round (maxWidthRatio (deviceConfig s))))
                height) s in
    set_measuredOnce true s.

Definition onContentLayout (width height : Q) (s : Inst) : Inst :=
  match variant s with
  | DYNAMIC_ISLAND => island_onContentLayout width height s
  | NOTCH => notch_onContentLayout width height s
  | STANDARD => toast_onContentLayout width height s
  end.

(** [onDynamicIslandLayout] and [onNotificationLayout]: the outer view of
    the island and of the notch; the toast has no such handler. *)
Definition onNotificationLayout (height : Q) (s : Inst) : Inst :=
  match variant s with
  | STANDARD => s
  | _ =>
      if Qeq_bool (notificationHeight s) 0
      then set_notificationHeight height s
      else s
  end.

(** *** hideNotification *)

(** The island and the notch share the text of the routine. *)
Definition pill_hideNotification (s : Inst) : Inst :=
  let s := emit EHide s in
  let s := set_textOpacity 0 s in
  let s := set_textScale (9 # 10) s in
  setTimeout_ Collapse (ANIMATION_DURATION / 2) s.

(** The slide-up of the toast,
    [slideDown.value = withTiming(0, {duration}, callback)], hands the
    animation library a completion callback.  The library
    - calls it at once, with [finished = true], and starts no animation
      when the value of [slideDown] already is the target 0;
    - otherwise animates for [ANIMATION_DURATION] ms, counted from the
      start of the slide-up that it replaces when there is one, and calls
      it when the value reaches 0;
    - calls the callback of an animation that a later assignment to
      [slideDown] replaces at the next frame, with [finished = false].
    The callback of the toast ignores [finished].  A frame is one
    millisecond of the model; the end of the slide-up under way and the
    call of a replaced callback are queued with the timers. *)

(** [slideMoving] is [None] while the value of [slideDown] is exactly 0,
    and [Some t] once an animation started at time [t] takes it away
    from 0: the value still reads 0 in the frame in which that animation
    starts. *)
Definition slideDownIsZero (s : Inst) : bool :=
  match slideMoving s with
  | None => true
  | Some t => Nat.leb (now s) t
  end.

Definition isSlideUp (t : Timer) : bool :=
  match task t with
  | SlideUpDone => true
  | _ => false
  end.

(** When the slide-up under way ends, if there is one. *)
Definition slideUpEnd (s : Inst) : option nat :=
  match List.find isSlideUp (timers s) with
  | Some t => Some (due t)
  | None => None
  end.

(** An assignment to [slideDown] replaces the slide-up under way. *)
Definition cancelTimer (n : nat) (t : Timer) : Timer :=
  if isSlideUp t then mkTimer (tid t) (n + 1) SlideUpCancelled else t.

Definition cancelSlideUp (s : Inst) : Inst :=
  set_timers (List.map (cancelTimer (now s)) (timers s)) s.

(** The worklet given to [withTiming]. *)
Definition slideUpCallback (s : Inst) : Inst :=
  if isMounted s then
    let s := set_completelyHidden 1 s in
    emit EOnHide s
  else s.

Definition toast_hideNotification (s : Inst) : Inst :=
  let s := emit EHide s in
  let s := set_opacity 0 s in
  let s := set_scale (9 # 10) s in
  let atZero := slideDownIsZero s in
  let under := slideUpEnd s in
  let s := cancelSlideUp s in
  let s := set_slideDown 0 s in
  if atZero then slideUpCallback (set_slideMoving None s)
  else
    setTimeout_ SlideUpDone
      (match under with
       | Some d => d - now s
       | None => ANIMATION_DURATION
       end)%nat s.

(** [slideDown.value = withSpring(1, ...)]. *)
Definition startSlideDown (s : Inst) : Inst :=
  let s := cancelSlideUp s in
  match slideMoving s with
  | None => set_slideMoving (Some (now s)) s
  | Some _ => s
  end.

(** [slideDown.value = 0]. *)
Definition resetSlideDown (s : Inst) : Inst :=
  set_slideMoving None (cancelSlideUp s).

Definition hideNotification (s : Inst) : Inst :=
  match variant s with
  | STANDARD => toast_hideNotification s
  | _ => pill_hideNotification s
  end.

(** The haptic feedback selected from [type], when enabled. *)
Definition haptics (s : Inst) : Inst :=
  if enableHapticsOf (props s) then
    match typeOf (props s) with
    | success => emit (EHaptic NotificationSuccess) s
    | failed => emit (EHaptic NotificationError) s
    | default => emit (EHaptic ImpactMedium) s
    end
  else s.

(** *** Timer callbacks *)
Definition runTask (t : Task) (s : Inst) : Inst :=
  match t with
  | ShowText =>
      if negb (isMounted s) then s
      else set_textScale 1 (set_textOpacity 1 s)
  | ToastAppear =>
      if negb (isMounted s) then s
      else
        let s := set_completelyHidden 0 s in
        let s := startSlideDown s in
        let s := set_slideDown 1 s in
        let s := set_opacity 1 s in
        let s := set_scale 1 s in
        haptics s
  | AutoHide => hideNotification s
  | Collapse =>
      let s := set_expansion 0 s in
      setTimeout_ FinalShrink (ANIMATION_DURATION - 50) s
  | FinalShrink =>
      if isMounted s then
        let s := set_completelyHidden 1 s in
        setTimeout_ CallOnHide 50 s
      else s
  | CallOnHide => emit EOnHide s
  | SlideUpDone => slideUpCallback (set_slideMoving None s)
  | SlideUpCancelled => slideUpCallback s
  end.

(** *** First render and mount effect *)

(** The state after the first render: the initial values of the hooks. *)
Definition firstRender (v : DeviceType) (p : Props) (o : Platform)
    (ww wh : Q) : Inst :=
  let cfg :=
    match v with
    | DYNAMIC_ISLAND => getDeviceAnimationConfig None None
    | NOTCH => getDeviceAnimationConfig None (Some NOTCH)
    | STANDARD => getDeviceAnimationConfig None (Some STANDARD)
    end in
  {| variant := v; props := p; os := o;
     windowWidth := ww; windowHeight := wh;
     deviceConfig := cfg;
     notificationHeight := 0;
     expansion := 0; textOpacity := 0; textScale := 1;
     slideDown := 0; slideMoving := None; opacity := 0; scale := 9 # 10;
     completelyHidden := match v with STANDARD => 1%Z | _ => 0%Z end;
     contentSize :=
       match v with
       | DYNAMIC_ISLAND => mkSize BASE_DYNAMIC_ISLAND_MAX_WIDTH (expandedHeight cfg)
       | NOTCH =>
           mkSize (Double.mul ww (Double.round (maxWidthRatio cfg)))
                  (expandedHeight cfg)
       | STANDARD =>
           mkSize (Double.mul ww (Double.round (maxWidthRatio cfg))) 0
       end;
     measuredOnce := false;
     isMounted := true;
     currentHeight := expandedHeight cfg;
     now := 0;
     timers := [];
     nextTimerId := 1;
     autoHideTimeout := None;
     trace := [] |}.

Definition exposeClose (s : Inst) : Inst :=
  if setClose (props s) then emit ESetClose s else s.

(** The tail shared by the three mount effects: arm the auto-hide timer
    unless [disableAutoHide] is truthy. *)
Definition armAutoHide (s : Inst) : Inst :=
  if negb (truthy_bool (disableAutoHide (props s))) then
    let '(id, s) :=
      setTimeout AutoHide
        (Z.to_nat (effectiveAutoHideDelay (autoHideDelay (props s)))) s in
    set_autoHideTimeout (Some id) s
  else s.

Definition island_mountEffect (s : Inst) : Inst :=
  let s := set_isMounted true s in
  let s := set_expansion 0 s in
  let s := set_textOpacity 0 s in
  let s := set_textScale (9 # 10) s in
  let s := exposeClose s in
  let s := set_expansion 1 s in
  let s := haptics s in
  let s := setTimeout_ ShowText (ANIMATION_DURATION / 2) s in
  armAutoHide s.

Definition notch_mountEffect (s : Inst) : Inst :=
  let s := set_isMounted true s in
  let s := set_expansion 0 s in
  let s := set_textOpacity 0 s in
  let s := set_textScale (9 # 10) s in
  let s := set_completelyHidden 0 s in
  let s := exposeClose s in
  let s := set_expansion 1 s in
  let s := haptics s in
  let s := setTimeout_ ShowText (ANIMATION_DURATION / 2) s in
  armAutoHide s.

Definition toast_mountEffect (s : Inst) : Inst :=
  let s := set_isMounted true s in
  let s := resetSlideDown s in
  let s := set_slideDown 0 s in
  let s := set_opacity 0 s in
  let s := set_scale (9 # 10) s in
  let s := set_completelyHidden 1 s in
  let s := exposeClose s in
  let s := setTimeout_ ToastAppear 50 s in
  armAutoHide s.

Definition mountEffect (s : Inst) : Inst :=
  match variant s with
  | DYNAMIC_ISLAND => island_mountEffect s
  | NOTCH => notch_mountEffect s
  | STANDARD => toast_mountEffect s
  end.

Definition mount (v : DeviceType) (p : Props) (o : Platform) (ww wh : Q) : Inst :=
  mountEffect (firstRender v p o ww wh).

(** The cleanup returned by the mount effect. *)
Definition cleanup (s : Inst) : Inst :=
  let s := set_isMounted false s in
  match autoHideTimeout s with
  | Some id => clearTimeout id s
  | None => s
  end.

(** The effect that loads the device configuration once [Device.modelId]
    has resolved; [deviceId || undefined] maps the empty string to
    [undefined].  A state update of an unmounted component is dropped. *)
Definition loadDeviceConfig (deviceId : option string) (s : Inst) : Inst :=
  if isMounted s then
    let id := if truthy_string deviceId then deviceId else None in
    set_deviceConfig
      (match variant s with
       | DYNAMIC_ISLAND => getDeviceAnimationConfig id None
       | NOTCH => getDeviceAnimationConfig id (Some NOTCH)
       | STANDARD => getDeviceAnimationConfig id (Some STANDARD)
       end) s
  else s.

(** *** The event loop of one instance *)

Definition isDue (n : nat) (t : Timer) : bool := Nat.leb (due t) n.

Definition runTimers (ready : list Timer) (s : Inst) : Inst :=
  fold_left (fun s t => runTask (task t) s) ready s.

(** One millisecond passes; the timers that are due run in queue order.
    Every timer is due at least 1 ms after it was armed, so the timers due
    at a tick were all due at that very millisecond, and a timer armed
    during the tick is not due in the same tick. *)
Definition tick (s : Inst) : Inst :=
  let n := S (now s) in
  let ready := List.filter (isDue n) (timers s) in
  let later := List.filter (fun t => negb (isDue n t)) (timers s) in
  runTimers ready (set_timers later (set_now n s)).

Fixpoint advance (ms : nat) (s : Inst) : Inst :=
  match ms with
  | O => s
  | S k => advance k (tick s)
  end.

(** What can happen to an instance.  A press and a layout need the view,
    which is gone once the instance is unmounted; the close handle is a
    plain function and can be called at any time. *)
Inductive Event : Set :=
  | Layout (width height : Q)
  | NotificationLayout (height : Q)
  | Press
  | CloseHandle
  | Unmount
  | DeviceConfigLoaded (deviceId : option string)
  | Wait (ms : nat).

Definition step (s : Inst) (e : Event) : Inst :=
  match e with
  | Layout width height => onContentLayout width height s
  | NotificationLayout height =>
      if isMounted s then onNotificationLayout height s else s
  | Press => if isMounted s then hideNotification s else s
  | CloseHandle => hideNotification s
  | Unmount => if isMounted s then cleanup s else s
  | DeviceConfigLoaded id => loadDeviceConfig id s
  | Wait ms => advance ms s
  end.

Definition run (evs : list Event) (s : Inst) : Inst := fold_left step evs s.

(** *** Reading the trace *)
Definition isOnHide (e : nat * Effect) : bool :=
  match snd e with EOnHide => true | _ => false end.
Definition isHide (e : nat * Effect) : bool :=
  match snd e with EHide => true | _ => false end.
Definition isWrite (e : nat * Effect) : bool :=
  match snd e with EWrite _ => true | _ => false end.

Definition onHideCount (s : Inst) : nat := length (List.filter isOnHide (trace s)).
Definition hideCalls (s : Inst) : nat := length (List.filter isHide (trace s)).
Definition writeCount (s : Inst) : nat := length (List.filter isWrite (trace s)).

End Animator.

(** ** The notification provider ([index.tsx])

    [NotificationProvider] keeps the request in React state, renders at
    most one variant animator and holds the close function of the mounted
    instance in a ref.  A state setter does not change what is rendered
    until React renders again: the model keeps the rendered state and the
    state with the pending updates applied, and [commit] is the render
    together with the effects that follow it. *)
Module Provider.
Import Devices Animator.

Inductive ForceStyle : Set := dynamicIsland | notch | toast.

Record NotificationOptions : Set := mkOptions {
  o_textColor : option string;
  o_showShadow : option bool;
  o_shadowColor : option string;
  o_borderColor : option string;
  o_autoHideDelay : option Z;
  o_disableAutoHide : option bool;
  o_enableHaptics : option bool;
  o_forceStyle : option ForceStyle
}.

(** [notifOptions || {}]. *)
Definition noOptions : NotificationOptions :=
  mkOptions None None None None None None None None.

(** The [useState] cells of the provider.  Custom content is an opaque
    React node, named here by a string. *)
Record PState : Set := mkPState {
  message : string;
  visible : bool;
  type : NotificationType;
  deviceType : DeviceType;
  customContent : option string;
  options : NotificationOptions
}.

Record System : Set := mkSystem {
  forceStyleProp : option ForceStyle;   (* the forceStyle prop of the provider *)
  platform : Platform;
  screenWidth : Q;
  screenHeight : Q;
  rendered : PState;                    (* the state of the last render *)
  pending : PState;                     (* with the queued updates applied *)
  closeRef : option nat;                (* closeRef.current: whose hideNotification *)
  statusBarHidden : bool;               (* useStatusBarStore: hidden *)
  mounted : option nat;                 (* the instance in the tree *)
  instances : list Inst                 (* every instance, by creation order *)
}.

Definition set_rendered (x : PState) (s : System) : System :=
  mkSystem (forceStyleProp s) (platform s) (screenWidth s) (screenHeight s) x
           (pending s) (closeRef s) (statusBarHidden s) (mounted s)
           (instances s).
Definition set_pending (x : PState) (s : System) : System :=
  mkSystem (forceStyleProp s) (platform s) (screenWidth s) (screenHeight s)
           (rendered s) x (closeRef s) (statusBarHidden s) (mounted s)
           (instances s).
Definition set_closeRef (x : option nat) (s : System) : System :=
  mkSystem (forceStyleProp s) (platform s) (screenWidth s) (screenHeight s)
           (rendered s) (pending s) x (statusBarHidden s) (mounted s)
           (instances s).
Definition set_statusBarHidden (x : bool) (s : System) : System :=
  mkSystem (forceStyleProp s) (platform s) (screenWidth s) (screenHeight s)
           (rendered s) (pending s) (closeRef s) x (mounted s) (instances s).
Definition set_mounted (x : option nat) (s : System) : System :=
  mkSystem (forceStyleProp s) (platform s) (screenWidth s) (screenHeight s)
           (rendered s) (pending s) (closeRef s) (statusBarHidden s) x
           (instances s).
Definition set_instances (x : list Inst) (s : System) : System :=
  mkSystem (forceStyleProp s) (platform s) (screenWidth s) (screenHeight s)
           (rendered s) (pending s) (closeRef s) (statusBarHidden s)
           (mounted s) x.

(** The state setters queue an update. *)
Definition setMessage (x : string) (s : System) : System :=
  set_pending
    (mkPState x (visible (pending s)) (type (pending s))
       (deviceType (pending s)) (customContent (pending s))
       (options (pending s))) s.
Definition setVisible (x : bool) (s : System) : System :=
  set_pending
    (mkPState (message (pending s)) x (type (pending s))
       (deviceType (pending s)) (customContent (pending s))
       (options (pending s))) s.
Definition setType (x : NotificationType) (s : System) : System :=
  set_pending
    (mkPState (message (pending s)) (visible (pending s)) x
       (deviceType (pending s)) (customContent (pending s))
       (options (pending s))) s.
Definition setDeviceType (x : DeviceType) (s : System) : System :=
  set_pending
    (mkPState (message (pending s)) (visible (pending s)) (type (pending s)) x
       (customContent (pending s)) (options (pending s))) s.
Definition setCustomContent (x : option string) (s : System) : System :=
  set_pending
    (mkPState (message (pending s)) (visible (pending s)) (type (pending s))
       (deviceType (pending s)) x (options (pending s))) s.
Definition setOptions (x : NotificationOptions) (s : System) : System :=
  set_pending
    (mkPState (message (pending s)) (visible (pending s)) (type (pending s))
       (deviceType (pending s)) (customContent (pending s)) x) s.

(** The provider before its first effect has run. *)
Definition initial (force : option ForceStyle) (o : Platform) (ww wh : Q) : System :=
  let st := mkPState "" false default STANDARD None noOptions in
  mkSystem force o ww wh st st None false None [].

Definition styleClass (f : ForceStyle) : DeviceType :=
  match f with
  | dynamicIsland => DYNAMIC_ISLAND
  | notch => NOTCH
  | toast => STANDARD
  end.

(** The effect that detects the device, once [Device.modelId] resolved. *)
Definition detectDevice (deviceId : option string) (s : System) : System :=
  match forceStyleProp s with
  | Some dynamicIsland => setDeviceType DYNAMIC_ISLAND s
  | Some notch => setDeviceType NOTCH s
  | Some toast => setDeviceType STANDARD s
  | None => setDeviceType (detectDeviceType deviceId) s
  end.

(** The [switch] on [notifOptions.forceStyle] in [show] and [showCustom]. *)
Definition applyForceStyle (o : option NotificationOptions) (s : System) : System :=
  match o with
  | Some opts =>
      match o_forceStyle opts with
      | Some dynamicIsland => setDeviceType DYNAMIC_ISLAND s
      | Some notch => setDeviceType NOTCH s
      | Some toast => setDeviceType STANDARD s
      | None => s
      end
  | None => s
  end.

Definition show (text : string) (notifType : NotificationType)
    (notifOptions : option NotificationOptions) (s : System) : System :=
  let s := setCustomContent None s in
  let s := setMessage text s in
  let s := setType notifType s in
  let s := setOptions (or_default notifOptions noOptions) s in
  let s := applyForceStyle notifOptions s in
  setVisible true s.

Definition showCustom (content : string)
    (notifOptions : option NotificationOptions) (s : System) : System :=
  let s := setMessage "" s in
  let s := setCustomContent (Some content) s in
  let s := setType default s in
  let s := setOptions (or_default notifOptions noOptions) s in
  let s := applyForceStyle notifOptions s in
  setVisible true s.

Definition success (msg : string) (o : option NotificationOptions) := show msg Animator.success o.
Definition failed (msg : string) (o : option NotificationOptions) := show msg Animator.failed o.
Definition toaster (msg : string) (o : option NotificationOptions) := show msg default o.

(** Apply a function to the instance with the given index. *)
Definition onInstance (i : nat) (f : Inst -> Inst) (s : System) : System :=
  set_instances (alter f i (instances s)) s.

(** Calling the function held by a close handle. *)
Definition invoke (i : nat) (s : System) : System :=
  onInstance i hideNotification s.

Definition hide (s : System) : System :=
  match closeRef s with
  | Some i => invoke i s
  | None => setVisible false s
  end.


(** *** Rendering *)

(** [commonProps]: the provider always passes [type], [setClose] and
    [onHide = () => setVisible(false)]. *)
Definition commonProps (st : PState) : Props :=
  let o := options st in
  mkProps (message st) (Some (type st)) (o_textColor o) (o_showShadow o)
          (o_shadowColor o) (o_borderColor o)
          (match customContent st with Some _ => true | None => false end)
          (o_autoHideDelay o) true (o_disableAutoHide o) (o_enableHaptics o).

(** [renderNotification]: which component is rendered, if any. *)
Definition renderNotification (st : PState) : option DeviceType :=
  if negb (visible st) then None
  else
    match deviceType st with
    | DYNAMIC_ISLAND => Some DYNAMIC_ISLAND
    | NOTCH => Some NOTCH
    | STANDARD => Some STANDARD
    end.

(** The mounted instance leaves the tree: React runs its cleanup. *)
Definition unmountMounted (s : System) : System :=
  match mounted s with
  | Some i => set_mounted None (onInstance i cleanup s)
  | None => s
  end.

(** A new instance enters the tree and its mount effect runs; the effect
    calls [setClose(hideNotification)], which stores the function in
    [closeRef]. *)
Definition mountInstance (v : DeviceType) (s : System) : System :=
  let inst :=
    Animator.mount v (commonProps (pending s)) (platform s)
                   (screenWidth s) (screenHeight s) in
  let id := length (instances s) in
  let s := set_instances (instances s ++ [inst]) s in
  let s := set_mounted (Some id) s in
  if setClose (props inst) then set_closeRef (Some id) s else s.

(** The effect on [visible] and [deviceType]. *)
Definition statusBarEffect (s : System) : System :=
  if visible (rendered s) &&
     (bool_decide (deviceType (rendered s) = DYNAMIC_ISLAND) ||
      bool_decide (deviceType (rendered s) = NOTCH))
  then set_statusBarHidden true s
  else set_statusBarHidden false s.

(** React renders with the pending state.  An element of the same
    component at the same place keeps its instance (no key is given); a
    different component replaces it.  The effects run afterwards.  An
    instance that is kept also keeps the closures of its mount effect;
    what a re-render changes for it (text, colours) is not part of the
    instance state. *)
Definition commit (s : System) : System :=
  let prev := renderNotification (rendered s) in
  let next := renderNotification (pending s) in
  let s := set_rendered (pending s) s in
  let s :=
    match prev, next with
    | Some a, Some b =>
        if bool_decide (a = b) then s else mountInstance b (unmountMounted s)
    | Some _, None => unmountMounted s
    | None, Some b => mountInstance b s
    | None, None => s
    end in
  statusBarEffect s.

(** *** Time *)

Definition firesOnHide (i : Inst) : bool :=
  Nat.ltb (onHideCount i) (onHideCount (tick i)).

(** One millisecond for every instance that still has timers; an
    [onHide] that fires is [setVisible(false)]. *)
Definition tickAll (s : System) : System :=
  let fired := existsb firesOnHide (instances s) in
  let s := set_instances (List.map tick (instances s)) s in
  if fired then setVisible false s else s.

Fixpoint elapse (ms : nat) (s : System) : System :=
  match ms with
  | O => s
  | S k => elapse k (tickAll s)
  end.

(** *** What can happen to the provider *)
Inductive Action : Set :=
  | Show (text : string) (notifType : NotificationType)
         (notifOptions : option NotificationOptions)
  | ShowCustom (content : string) (notifOptions : option NotificationOptions)
  | Hide
  | Invoke (handle : nat)          (* call a function got from getCloseRef *)
  | PressNotification              (* a press on the rendered notification *)
  | ContentLayout (width height : Q)
  | DeviceDetected (deviceId : option string)
  | Commit
  | Elapse (ms : nat).

Definition perform (s : System) (a : Action) : System :=
  match a with
  | Show text ty o => show text ty o s
  | ShowCustom content o => showCustom content o s
  | Hide => hide s
  | Invoke i => invoke i s
  | PressNotification =>
      match mounted s with
      | Some i => onInstance i (fun x => step x Press) s
      | None => s
      end
  | ContentLayout width height =>
      match mounted s with
      | Some i => onInstance i (fun x => step x (Layout width height)) s
      | None => s
      end
  | DeviceDetected id => detectDevice id s
  | Commit => commit s
  | Elapse ms => elapse ms s
  end.

Definition play (acts : list Action) (s : System) : System :=
  fold_left perform acts s.

(** The variant of the instance in the tree. *)
Definition mountedVariant (s : System) : option DeviceType :=
  match mounted s with
  | Some i => variant <$> instances s !! i
  | None => None
  end.

End Provider.

(** ** The specification's reading of the device classifier

    [resolveProfile] follows the words of the specification: the base
    profile of the class (the explicit class wins over the derived one),
    patched by the override whose identifier equals the device identifier.
    It is compared with [getDeviceAnimationConfig] below. *)
Module Spec.
Import Devices.

Definition overrideTable : list (string * PartialConfig) :=
  [ ("iPhone16,1", proAdjust); ("iPhone16,5", proAdjust);
    ("iPhone16,2", proMaxAdjust); ("iPhone16,6", proMaxAdjust);
    ("iPhone15,4", notchAdjust); ("iPhone14,8", notchAdjust) ].

Fixpoint exactOverride (table : list (string * PartialConfig)) (id : string)
  : option PartialConfig :=
  match table with
  | [] => None
  | (k, o) :: rest => if String.eqb k id then Some o else exactOverride rest id
  end.

Definition patch (field : option Q) (base : Q) : Q :=
  match field with Some x => x | None => base end.

Definition shallowMerge (base : DeviceAnimationConfig) (o : PartialConfig)
  : DeviceAnimationConfig :=
  mkConfig (patch (p_minWidthRatio o) (minWidthRatio base))
           (patch (p_maxWidthRatio o) (maxWidthRatio base))
           (patch (p_expandedHeight o) (expandedHeight base))
           (patch (p_borderRadius o) (borderRadius base))
           (patch (p_initialScale o) (initialScale base))
           (patch (p_initialHeight o) (initialHeight base)).

Definition resolveProfile (deviceId : option string) (class : option DeviceType)
  : DeviceAnimationConfig :=
  let c := match class with
           | Some c => c
           | None => detectDeviceType deviceId
           end in
  match deviceId with
  | Some id =>
      match exactOverride overrideTable id with
      | Some o => shallowMerge (baseConfigOf c) o
      | None => baseConfigOf c
      end
  | None => baseConfigOf c
  end.

End Spec.

(** ** Sample inputs used by the examples below *)
Module Samples.
Import Devices Animator Provider.

(** A notification that stays until it is closed. *)
Definition persistentProps : Props :=
  mkProps "Saved" None None None None None false None true (Some true) None.

(** A notification with an auto-hide delay of 0. *)
Definition zeroDelayProps : Props :=
  mkProps "Saved" None None None None None false (Some 0%Z) true None None.


Definition iphone : System := initial None ios (390 # 1) (844 # 1).

Definition withStyle (f : ForceStyle) : option NotificationOptions :=
  Some (mkOptions None None None None None (Some true) None (Some f)).

End Samples.

(** ** Predicates on instances used in the statements *)
Module Inv.
Import Devices Animator.

(** A toast that has taken its measurement, with committed size [c]. *)
Definition toastMeasured (c : Size) (s : Inst) : Prop :=
  variant s = STANDARD /\ measuredOnce s = true /\ contentSize s = c.

(** The number of hide triggers among the events. *)
Definition isTrigger (e : Event) : nat :=
  match e with
  | Press => 1
  | CloseHandle => 1
  | _ => 0
  end.

Definition triggers (evs : list Event) : nat := list_sum (List.map isTrigger evs).

(** 1 when the mount effect arms the auto-hide timer. *)
Definition autoArmed (p : Props) : nat :=
  if truthy_bool (disableAutoHide p) then 0 else 1.

(** Weights of the pending timers: a timer of the hide chain (or the
    auto-hide timer that starts one) can still lead to one [onHide]. *)
Definition chainWeight (t : Task) : nat :=
  match t with
  | ShowText => 0
  | ToastAppear => 0
  | _ => 1
  end.

(** Once the instance is unmounted only the last timeout of the chain
    still leads to [onHide]. *)
Definition armedWeight (t : Task) : nat :=
  match t with
  | CallOnHide => 1
  | _ => 0
  end.

Definition pendingWeight (wt : Task -> nat) (l : list Timer) : nat :=
  list_sum (List.map (fun t => wt (task t)) l).

(** The [onHide] calls made so far plus those the pending timers may
    still lead to. *)
Definition potential (wt : Task -> nat) (s : Inst) : nat :=
  onHideCount s + pendingWeight wt (timers s).

Definition armedOnHide (s : Inst) : nat := pendingWeight armedWeight (timers s).

(** The timers of the mount effects that do not hide. *)
Definition quiet (t : Timer) : bool :=
  match task t with
  | ShowText => true
  | ToastAppear => true
  | _ => false
  end.

(** No slide-up of the toast is under way. *)
Definition noSlideUp (l : list Timer) : bool :=
  forallb (fun t => negb (isSlideUp t)) l.

(** The instance has not started to hide and its auto-hide timer, due at
    [d], is the last timer of the queue. *)
Definition awaiting (d : nat) (s : Inst) : Prop :=
  hideCalls s = 0%nat /\
  exists pre id,
    timers s = (pre ++ [mkTimer id d AutoHide])%list /\
    forallb quiet pre = true.

End Inv.

(** ** Predicates on the provider used in the statements *)
Module PInv.
Import Devices Animator Provider Inv.

(** The classes whose variant expands from the cutout. *)
Definition expanding (d : DeviceType) : bool :=
  match d with
  | DYNAMIC_ISLAND => true
  | NOTCH => true
  | STANDARD => false
  end.

(** What the last render put on screen agrees with the instance in the
    tree and with the status-bar flag. *)
Definition consistent (s : System) : Prop :=
  mountedVariant s = renderNotification (rendered s) /\
  statusBarHidden s = visible (rendered s) && expanding (deviceType (rendered s)).

(** The variant named by [forceStyle], when the options carry one. *)
Definition forcedClass (o : option NotificationOptions) : option DeviceType :=
  match o with
  | Some opts => styleClass <$> o_forceStyle opts
  | None => None
  end.

(** An unmounted instance none of whose hide chains has armed its last
    timeout. *)
Definition dead (x : Inst) : Prop :=
  isMounted x = false /\ armedOnHide x = 0%nat.




(** The part of the provider that only a render and its effects write. *)
Definition committed (s : System)
  : PState * bool * option nat * option nat * list DeviceType :=
  (rendered s, statusBarHidden s, mounted s, closeRef s,
   List.map variant (instances s)).

End PInv.

(** ** What the animators compute at render

    The responsive dimensions, the border colour and the animated styles
    of the three components.  [interpolate] belongs to the animation
    library; the styles take it as a parameter. *)
Module Render.
Import Devices Animator.

Local Open Scope Q_scope.

Definition dynamicIslandMinWidth (s : Inst) : Q :=
  Qmin BASE_DYNAMIC_ISLAND_MIN_WIDTH
       (Double.mul (windowWidth s) (Double.round (minWidthRatio (deviceConfig s)))).

Definition island_minHeight (s : Inst) : Q :=
  Qmin (initialHeight (deviceConfig s))
       (Double.mul (windowHeight s) (Double.round (5 # 100))).

Definition notchMinWidth (s : Inst) : Q :=
  Qmin NOTCH_WIDTH
       (Double.mul (windowWidth s) (Double.round (minWidthRatio (deviceConfig s)))).

Definition notch_minHeight (s : Inst) : Q :=
  Qmin (initialHeight (deviceConfig s))
       (Double.mul (windowHeight s) (Double.round (4 # 100))).

(** [notchPosition.left]. *)
Definition notchPositionLeft (s : Inst) : Q :=
  Double.div (Double.sub (windowWidth s) (notchMinWidth s)) (2 # 1).

(** [getBorderColor] of the island and of the notch. *)
Definition pill_getBorderColor (p : Props) : string :=
  if truthy_string (borderColor p) then or_default (borderColor p) ""
  else
    match typeOf p with
    | success => "rgba(76, 175, 80, 0.3)"
    | failed => "rgba(244, 67, 54, 0.3)"
    | default => "rgba(255, 255, 255, 0.1)"
    end.

(** [getBorderColor] of the toast. *)
Definition toast_getBorderColor (p : Props) : string :=
  if truthy_string (borderColor p) then or_default (borderColor p) ""
  else
    match typeOf p with
    | success => "rgba(76, 175, 80, 0.3)"
    | failed => "rgba(244, 67, 54, 0.3)"
    | default => "rgba(255, 255, 255, 0.2)"
    end.

Definition getBorderColor (v : DeviceType) (p : Props) : string :=
  match v with
  | STANDARD => toast_getBorderColor p
  | _ => pill_getBorderColor p
  end.

(** The options object of [interpolate]. *)
Record Extrapolation : Set := mkExtrapolation {
  clampLeft : bool;
  clampRight : bool
}.

Definition clampRightOnly : Extrapolation := mkExtrapolation false true.
Definition clampBoth : Extrapolation := mkExtrapolation true true.

(** The style object returned to the animated view; a key that the
    component leaves out is [None]. *)
Record AnimatedStyle : Set := mkStyle {
  st_width : option Q;
  st_height : option Q;
  st_opacity : Q;
  st_borderRadius : option Q;
  st_borderTopRadius : option Q;
  st_borderBottomRadius : option Q;
  st_left : option Q;
  st_scale : Q;
  st_translateY : option Q
}.

Section Styles.
Variable interpolate : Q -> list Q -> list Q -> Extrapolation -> Q.

Definition dynamicIslandStyle (s : Inst) : AnimatedStyle :=
  if Z.eqb (completelyHidden s) 1 then
    mkStyle (Some 0) (Some 0) 0 (Some 0) None None None 0 None
  else
    let width :=
      interpolate (expansion s) [0; 1]
        [dynamicIslandMinWidth s; w (contentSize s)] clampRightOnly in
    let height :=
      interpolate (expansion s) [0; 1]
        [island_minHeight s; h (contentSize s)] clampRightOnly in
    let radius :=
      interpolate (expansion s) [0; 1]
        [20 # 1; borderRadius (deviceConfig s)] clampRightOnly in
    let sc :=
      interpolate (expansion s) [0; 3 # 10; 1]
        [initialScale (deviceConfig s); 95 # 100; 1] clampRightOnly in
    let op := interpolate (expansion s) [0; 1 # 10] [0; 1] clampBoth in
    mkStyle (Some width) (Some height) op (Some radius) None None None
            sc (Some (- (2 # 1))).

Definition notchNotificationStyle (s : Inst) : AnimatedStyle :=
  if Z.eqb (completelyHidden s) 1 then
    mkStyle (Some 0) (Some 0) 0 (Some 0) None None None 0 None
  else
    let width :=
      interpolate (expansion s) [0; 1]
        [notchMinWidth s; w (contentSize s)] clampRightOnly in
    let height :=
      interpolate (expansion s) [0; 1]
        [notch_minHeight s; h (contentSize s)] clampRightOnly in
    let top := interpolate (expansion s) [0; 1] [0; 0] clampRightOnly in
    let bottom :=
      interpolate (expansion s) [0; 1]
        [0; borderRadius (deviceConfig s)] clampRightOnly in
    let sc :=
      interpolate (expansion s) [0; 3 # 10; 1]
        [initialScale (deviceConfig s); 95 # 100; 1] clampRightOnly in
    let op := interpolate (expansion s) [0; 1 # 10] [0; 1] clampBoth in
    let left :=
      interpolate (expansion s) [0; 1]
        [notchPositionLeft s;
         Double.div (Double.sub (windowWidth s) (w (contentSize s))) (2 # 1)]
        clampRightOnly in
    mkStyle (Some width) (Some height) op None (Some top) (Some bottom)
            (Some left) sc (Some 0).

Definition toastStyle (s : Inst) : AnimatedStyle :=
  if Z.eqb (completelyHidden s) 1 then
    mkStyle None None 0 None None None None 0 (Some (- (100 # 1)))
  else
    let translateY :=
      interpolate (slideDown s) [0; 1] [- (100 # 1); 0] clampRightOnly in
    mkStyle None None (opacity s) None None None None (scale s)
            (Some translateY).

Definition animatedStyle (s : Inst) : AnimatedStyle :=
  match variant s with
  | DYNAMIC_ISLAND => dynamicIslandStyle s
  | NOTCH => notchNotificationStyle s
  | STANDARD => toastStyle s
  end.

End Styles.

End Render.

(** ** Further predicates on instances *)
Module XInv.
Import Devices Animator Render.

(** The explicit type that a component passes to
    [getDeviceAnimationConfig]: the island passes none. *)
Definition ownClass (v : DeviceType) : option DeviceType :=
  match v with
  | DYNAMIC_ISLAND => None
  | NOTCH => Some NOTCH
  | STANDARD => Some STANDARD
  end.

(** The configuration of the instance is one that
    [getDeviceAnimationConfig] returned to its component. *)
Definition configured (s : Inst) : Prop :=
  exists id, deviceConfig s = getDeviceAnimationConfig id (ownClass (variant s)).

(** The bounds that the committed content size keeps on a screen of
    width [ww], whatever the rounding. *)
Definition sized (v : DeviceType) (ww : Q) (s : Inst) : Prop :=
  variant s = v /\ windowWidth s = ww /\ configured s /\
  match v with
  | DYNAMIC_ISLAND =>
      (w (contentSize s) <= 350 # 1)%Q /\ (70 # 1 <= h (contentSize s))%Q
  | NOTCH => (80 # 1 <= h (contentSize s))%Q
  | STANDARD => True
  end.


(** What the callbacks and the hide routine leave alone. *)
Definition geometry (s : Inst) : DeviceType * Q * Q * DeviceAnimationConfig * Size :=
  (variant s, windowWidth s, windowHeight s, deviceConfig s, contentSize s).

(** The instance has not entered [hideNotification], has not invoked
    [onHide], and no timer that could do so is queued. *)
Definition idle (s : Inst) : Prop :=
  hideCalls s = 0%nat /\ onHideCount s = 0%nat /\
  forallb Inv.quiet (timers s) = true.

(** The appear timer of the toast. *)
Definition isAppear (t : Timer) : bool :=
  match task t with
  | ToastAppear => true
  | _ => false
  end.

(** The toast has appeared: it is mounted, its appear timer has run and
    the value of [slideDown] has left 0. *)
Definition shown (x : Inst) : Prop :=
  variant x = STANDARD /\ isMounted x = true /\
  slideDownIsZero x = false /\
  forallb (fun t => negb (isAppear t)) (timers x) = true.

(** A slide-up of the toast is under way and ends at [d]. *)
Definition slidingUp (d : nat) (x : Inst) : Prop :=
  shown x /\ (now x < d)%nat /\
  (exists i, In (mkTimer i d SlideUpDone) (timers x)) /\
  Forall (fun t => isSlideUp t = true -> due t = d) (timers x).

(** The toast is left alone after its mount, with its auto-hide timer due
    at [d]: the appear timer is queued until 50 ms and starts the
    slide-down. *)
Definition toastIdle (d : nat) (x : Inst) : Prop :=
  variant x = STANDARD /\ isMounted x = true /\
  slideMoving x = (if Nat.ltb (now x) 50 then None else Some 50%nat) /\
  timers x
  = (if Nat.ltb (now x) 50
     then [mkTimer 1 50 ToastAppear; mkTimer 2 d AutoHide]
     else [mkTimer 2 d AutoHide]).

(** When a notification that is left alone invokes [onHide], for an
    auto-hide timer due at [d]: the island and the notch 525 ms later;
    the toast 350 ms later, or at once when the timer is due before the
    toast has left its hidden position. *)
Definition autoHideAt (v : DeviceType) (d : nat) : nat :=
  match v with
  | STANDARD => if Nat.leb d 50 then d else (d + 350)%nat
  | _ => (d + 525)%nat
  end.

(** Counting the haptic pulses and the [setClose] calls in the trace. *)
Definition isHaptic (e : nat * Effect) : bool :=
  match snd e with EHaptic _ => true | _ => false end.
Definition isSetClose (e : nat * Effect) : bool :=
  match snd e with ESetClose => true | _ => false end.

Definition hapticCount (s : Inst) : nat := length (List.filter isHaptic (trace s)).
Definition setCloseCount (s : Inst) : nat := length (List.filter isSetClose (trace s)).


(** Only the appear timer of the toast can still lead to a pulse. *)
Definition appearWeight (t : Task) : nat :=
  match t with
  | ToastAppear => 1
  | _ => 0
  end.

(** Pulses given so far plus those the queue can still give. *)
Definition hapticBudget (s : Inst) : nat :=
  hapticCount s + Inv.pendingWeight appearWeight (timers s).

(** The pulses of the trace, in order. *)
Definition hapticLog (s : Inst) : list Effect :=
  List.map snd (List.filter isHaptic (trace s)).


End XInv.

(** ** Shape of the provider's instance list *)
Module PXInv.
Import Devices Animator Provider.

(** Which instances still count as mounted, by creation order. *)
Definition liveness (s : System) : list bool :=
  List.map isMounted (instances s).

(** The instance created last, if any. *)
Definition lastCreated (s : System) : option nat :=
  match length (instances s) with
  | O => None
  | S k => Some k
  end.

(** Only the instance in the tree is live and it is the newest one; the
    close handle is that of the newest instance; an instance is in the
    tree exactly when the last render was visible. *)
Definition tidy (s : System) : Prop :=
  liveness s = match mounted s with
               | Some i => (replicate i false ++ [true])%list
               | None => replicate (length (instances s)) false
               end /\
  closeRef s = lastCreated s /\
  bool_decide (mounted s = None) = negb (visible (rendered s)).

End PXInv.

(** * Properties *)

Import Devices.
Local Open Scope list_scope.
Local Open Scope nat_scope.

(** ** Device classifier *)

Lemma includes_In (l : list string) (s : string) :
  includes l s = true <-> In s l.
Proof.
  unfold includes. rewrite existsb_exists. split.
  - intros (x & Hx & He). apply String.eqb_eq in He. now subst.
  - intros H. exists s. split; [assumption | apply String.eqb_refl].
Qed.

Lemma includes_not_In (l : list string) (s : string) :
  ~ In s l -> includes l s = false.
Proof.
  intros H. destruct (includes l s) eqn:E; [|reflexivity].
  apply includes_In in E. contradiction.
Qed.

(** C5.  Every identifier of the dynamic-island table is classified
    DYNAMIC_ISLAND, every identifier of the notch table is classified NOTCH,
    and any other string, the empty string and an undefined identifier are
    classified STANDARD. *)
Theorem detectDeviceType_tables :
  (forall id, In id devicesWithDynamicIsland ->
     detectDeviceType (Some id) = DYNAMIC_ISLAND) /\
  (forall id, In id devicesWithNotch ->
     detectDeviceType (Some id) = NOTCH) /\
  (forall id, ~ In id devicesWithDynamicIsland -> ~ In id devicesWithNotch ->
     detectDeviceType (Some id) = STANDARD) /\
  detectDeviceType None = STANDARD /\
  detectDeviceType (Some "") = STANDARD.
Proof.
  repeat split.
  - intros id H. unfold devicesWithDynamicIsland in H. simpl in H.
    repeat (destruct H as [<- | H]; [reflexivity |]). contradiction.
  - intros id H. unfold devicesWithNotch in H. simpl in H.
    repeat (destruct H as [<- | H]; [reflexivity |]). contradiction.
  - intros id Hd Hn. unfold detectDeviceType.
    destruct (negb (truthy_string (Some id))); [reflexivity |].
    cbn [or_default].
    now rewrite (includes_not_In _ _ Hd), (includes_not_In _ _ Hn).
Qed.

Lemma detectDeviceType_tables_witness :
  detectDeviceType (Some "iPhone15,2") = DYNAMIC_ISLAND /\
  detectDeviceType (Some "iPhone12,1") = NOTCH /\
  detectDeviceType (Some "SM-G991B") = STANDARD.
Proof.
  destruct detectDeviceType_tables as (Hd & Hn & Ho & _).
  split; [| split].
  - apply Hd. vm_compute. tauto.
  - apply Hn. vm_compute. tauto.
  - apply Ho; vm_compute; intros H;
      repeat (destruct H as [H | H]; [discriminate H |]); exact H.
Defined.

Lemma lookup_exactOverride (table : list (string * PartialConfig)) (id : string) :
  (list_to_map table : gmap string PartialConfig) !! id = Spec.exactOverride table id.
Proof.
  induction table as [| [k o] rest IH]; simpl.
  - apply lookup_empty.
  - destruct (String.eqb_spec k id) as [-> | Hne].
    + apply lookup_insert_eq.
    + rewrite lookup_insert_ne by assumption. exact IH.
Qed.


Lemma spread_emptyPartial (base : DeviceAnimationConfig) :
  spread base emptyPartial = base.
Proof. now destruct base. Qed.

Lemma getDeviceAnimationConfig_refines (id : option string) (ty : option DeviceType) :
  getDeviceAnimationConfig id ty = Spec.resolveProfile id ty.
Proof.
  unfold getDeviceAnimationConfig, Spec.resolveProfile.
  replace (or_default ty (detectDeviceType id))
    with (match ty with Some c => c | None => detectDeviceType id end)
    by now destruct ty.
  destruct id as [id |]; cbn [truthy_string or_default].
  - destruct (String.eqb_spec id "") as [-> | Hne]; cbn [negb].
    + cbn. apply spread_emptyPartial.
    + unfold deviceSpecificConfigs. rewrite lookup_exactOverride.
      fold Spec.overrideTable.
      destruct (Spec.exactOverride Spec.overrideTable id); cbn [or_default].
      * reflexivity.
      * apply spread_emptyPartial.
  - apply spread_emptyPartial.
Qed.



(** ** Variant animators: props *)
Import Animator Inv.

(** Unfold the hide routines and the animation steps of the toast. *)
Ltac animator_open :=
  unfold Animator.hideNotification, Animator.toast_hideNotification,
    Animator.pill_hideNotification, Animator.slideUpCallback,
    Animator.startSlideDown, Animator.resetSlideDown,
    Animator.cancelSlideUp, Animator.haptics, Animator.setTimeout_,
    Animator.setTimeout.

(** Reduce the projections of an updated instance. *)
Ltac inst_simpl :=
  cbn [variant props os windowWidth windowHeight deviceConfig
       notificationHeight expansion textOpacity textScale slideDown
       slideMoving set_slideMoving opacity
       scale completelyHidden contentSize measuredOnce isMounted
       currentHeight now timers nextTimerId autoHideTimeout trace
       set_deviceConfig set_notificationHeight set_measuredOnce
       set_isMounted set_currentHeight set_now set_timers set_nextTimerId
       set_autoHideTimeout set_trace set_expansion set_textOpacity
       set_textScale set_slideDown set_opacity set_scale
       set_completelyHidden set_contentSize emit w h].

Ltac inst_red := repeat (progress (inst_simpl; cbn [snd fst])).

(** Split on the tests that the routines make. *)
Ltac animator_cases :=
  repeat match goal with
         | |- context [if ?b then _ else _] => destruct b eqn:?
         | |- context [match Animator.variant ?x with _ => _ end] =>
             destruct (Animator.variant x) eqn:?
         | |- context [match Animator.typeOf ?x with _ => _ end] =>
             destruct (Animator.typeOf x) eqn:?
         | |- context [match Animator.slideMoving ?x with _ => _ end] =>
             destruct (Animator.slideMoving x) eqn:?
         | |- context [match Animator.slideUpEnd ?x with _ => _ end] =>
             destruct (Animator.slideUpEnd x) eqn:?
         end.

(** A field that the routine at hand does not write. *)
Ltac animator_frame :=
  animator_open; animator_cases;
  first [reflexivity | assumption | inst_red; congruence].

(** C10.  When the caller leaves [showShadow] out, the toast renders a
    shadow and the island and the notch render none; when it is supplied,
    the three variants follow it. *)
Theorem showShadow_defaults :
  (forall p, showShadow p = None ->
     showShadowOf STANDARD p = true /\
     showShadowOf DYNAMIC_ISLAND p = false /\
     showShadowOf NOTCH p = false /\
     shadowStyle STANDARD p <> None /\
     shadowStyle DYNAMIC_ISLAND p = None /\
     shadowStyle NOTCH p = None) /\
  (forall v p b, showShadow p = Some b -> showShadowOf v p = b) /\
  (forall st, Provider.o_showShadow (Provider.options st) = None ->
     showShadow (Provider.commonProps st) = None).
Proof.
  split; [| split].
  - intros p H. unfold shadowStyle, showShadowOf. rewrite H. cbn.
    repeat split; try reflexivity. discriminate.
  - intros v p b H. unfold showShadowOf. now rewrite H.
  - intros st H. exact H.
Qed.

Lemma showShadow_defaults_witness :
  shadowStyle STANDARD Samples.persistentProps
  = Some (mkShadow "#000000" 3 (3 # 10) 5 6) /\
  shadowStyle DYNAMIC_ISLAND Samples.persistentProps = None /\
  shadowStyle NOTCH Samples.persistentProps = None.
Proof.
  destruct showShadow_defaults as (H & _).
  destruct (H Samples.persistentProps eq_refl) as (_ & _ & _ & _ & Hi & Hn).
  split; [reflexivity | split; assumption].
Defined.

(** ** Variant animators: invariants of the event loop *)

(** A property of an instance that every timer callback and every event
    preserves holds along every run. *)
Section Invariant.
Variable P : Inst -> Prop.
Hypothesis P_sched : forall s n l, P s -> P (set_timers l (set_now n s)).
Hypothesis P_task : forall t s, P s -> P (runTask t s).

Lemma runTimers_inv (ready : list Timer) (s : Inst) :
  P s -> P (runTimers ready s).
Proof.
  revert s. induction ready as [| t ready IH]; intros s H; simpl.
  - exact H.
  - apply IH, P_task, H.
Qed.

Lemma tick_inv (s : Inst) : P s -> P (tick s).
Proof. intros H. unfold tick. apply runTimers_inv, P_sched, H. Qed.

Lemma advance_inv (ms : nat) (s : Inst) : P s -> P (advance ms s).
Proof.
  revert s. induction ms as [| k IH]; intros s H; simpl.
  - exact H.
  - apply IH, tick_inv, H.
Qed.

Hypothesis P_layout : forall s a b, P s -> P (onContentLayout a b s).
Hypothesis P_outer : forall s a, P s -> P (onNotificationLayout a s).
Hypothesis P_hide : forall s, P s -> P (hideNotification s).
Hypothesis P_cleanup : forall s, P s -> P (cleanup s).
Hypothesis P_config : forall s id, P s -> P (loadDeviceConfig id s).

Lemma step_inv (s : Inst) (e : Event) : P s -> P (step s e).
Proof.
  intros H. destruct e; simpl.
  - now apply P_layout.
  - destruct (isMounted s); [now apply P_outer | exact H].
  - destruct (isMounted s); [now apply P_hide | exact H].
  - now apply P_hide.
  - destruct (isMounted s); [now apply P_cleanup | exact H].
  - now apply P_config.
  - now apply advance_inv.
Qed.

Lemma run_inv (evs : list Event) (s : Inst) : P s -> P (run evs s).
Proof.
  revert s. induction evs as [| e evs IH]; intros s H; simpl.
  - exact H.
  - apply IH, step_inv, H.
Qed.
End Invariant.

(** *** The toast keeps the size it measured first *)

Lemma toastMeasured_hide c s : toastMeasured c s -> toastMeasured c (hideNotification s).
Proof.
  intros (Hv & Hm & Hc). unfold hideNotification. rewrite Hv.
  animator_open. cbn. animator_cases; repeat split; assumption.
Qed.

Lemma toastMeasured_task c t s : toastMeasured c s -> toastMeasured c (runTask t s).
Proof.
  intros H. destruct t; cbn -[hideNotification];
    try (now apply toastMeasured_hide);
    destruct H as (Hv & Hm & Hc);
    animator_open; cbn; animator_cases;
    repeat split; assumption.
Qed.

Lemma toastMeasured_run c evs s : toastMeasured c s -> toastMeasured c (run evs s).
Proof.
  apply run_inv.
  - intros s0 n l (Hv & Hm & Hc). repeat split; assumption.
  - apply toastMeasured_task.
  - intros s0 a b (Hv & Hm & Hc). unfold onContentLayout, toast_onContentLayout.
    rewrite Hv, Hm, orb_true_r. repeat split; assumption.
  - intros s0 a (Hv & Hm & Hc). unfold onNotificationLayout. rewrite Hv.
    repeat split; assumption.
  - apply toastMeasured_hide.
  - intros s0 (Hv & Hm & Hc). unfold cleanup.
    destruct (autoHideTimeout _); repeat split; assumption.
  - intros s0 id (Hv & Hm & Hc). unfold loadDeviceConfig.
    destruct (isMounted s0); repeat split; assumption.
Qed.

(** C1, as the code has it.  The toast captures the measured height once,
    unclamped: its first layout while mounted commits the measured height
    and no later event changes the committed size.  The island and the
    notch commit, on every layout received while mounted, the measured
    height plus padding clamped to the expanded height of the device
    configuration.  A layout that arrives after the unmount is ignored by
    the three variants. *)
Theorem contentSize_commit :
  (forall s width height,
     variant s = STANDARD -> isMounted s = true -> measuredOnce s = false ->
     contentSize (onContentLayout width height s)
     = mkSize (Double.mul (windowWidth s)
                          (Double.round (maxWidthRatio (deviceConfig s))))
              height /\
     measuredOnce (onContentLayout width height s) = true) /\
  (forall s evs,
     variant s = STANDARD -> measuredOnce s = true ->
     contentSize (run evs s) = contentSize s) /\
  (forall s width height,
     variant s = NOTCH -> isMounted s = true ->
     h (contentSize (onContentLayout width height s))
     = Qmax (Double.add (Double.add height (NOTCH_CONTENT_PADDING_TOP (os s)))
                        NOTCH_CONTENT_PADDING_BOTTOM)
            (expandedHeight (deviceConfig s)) /\
     (expandedHeight (deviceConfig s) <= h (contentSize (onContentLayout width height s)))%Q) /\
  (forall s width height,
     variant s = DYNAMIC_ISLAND -> isMounted s = true ->
     h (contentSize (onContentLayout width height s))
     = Qmax (Double.add (Double.add height ISLAND_CONTENT_PADDING_TOP)
                        ISLAND_CONTENT_PADDING_BOTTOM)
            (expandedHeight (deviceConfig s)) /\
     (expandedHeight (deviceConfig s) <= h (contentSize (onContentLayout width height s)))%Q) /\
  (forall s width height,
     isMounted s = false -> onContentLayout width height s = s).
Proof.
  split; [| split; [| split; [| split]]].
  - intros s width height Hv Hm Ho.
    unfold onContentLayout, toast_onContentLayout. rewrite Hv, Hm, Ho.
    split; reflexivity.
  - intros s evs Hv Hm.
    now destruct (toastMeasured_run (contentSize s) evs s) as (_ & _ & Hc).
  - intros s width height Hv Hm.
    unfold onContentLayout, notch_onContentLayout. rewrite Hv, Hm. cbn.
    destruct (measuredOnce s); cbn; (split; [reflexivity | apply Q.le_max_r]).
  - intros s width height Hv Hm.
    unfold onContentLayout, island_onContentLayout. rewrite Hv, Hm. cbn.
    destruct (measuredOnce s); cbn; (split; [reflexivity | apply Q.le_max_r]).
  - intros s width height Hm.
    unfold onContentLayout, island_onContentLayout, notch_onContentLayout,
      toast_onContentLayout.
    rewrite Hm. now destruct (variant s).
Qed.

Lemma contentSize_commit_witness :
  let s := run [Layout (200 # 1) (44 # 1)]
               (mount STANDARD Samples.persistentProps ios (390 # 1) (844 # 1)) in
  contentSize (run [Layout (200 # 1) (90 # 1); Wait 100; Layout (200 # 1) (120 # 1)] s)
  = contentSize s /\
  h (contentSize s) = 44 # 1.
Proof.
  destruct contentSize_commit as (_ & H & _).
  split; [apply H; reflexivity | reflexivity].
Defined.

(** C1 as stated fails for the notch (and the island): the second layout
    event of a mounted instance replaces the committed expanded height. *)
Lemma notch_height_recommitted :
  let s0 := mount NOTCH Samples.persistentProps ios (390 # 1) (844 # 1) in
  let s1 := step s0 (Layout (200 # 1) (20 # 1)) in
  let s2 := step s1 (Layout (200 # 1) (100 # 1)) in
  measuredOnce s1 = true /\
  h (contentSize s1) = 80 # 1 /\
  h (contentSize s2) = 159 # 1 /\
  ~ (h (contentSize s2) == h (contentSize s1))%Q.
Proof.
  cbv zeta. repeat split; try (vm_compute; reflexivity).
  vm_compute. discriminate.
Qed.

(** ** Variant animators: counting [onHide] *)

Lemma filter_emit f e s :
  List.filter f (trace (emit e s))
  = (List.filter f (trace s) ++ (if f (now s, e) then [(now s, e)] else []))%list.
Proof. unfold emit. cbn. now rewrite List.filter_app. Qed.

Lemma pendingWeight_app wt l1 l2 :
  pendingWeight wt (l1 ++ l2)%list = pendingWeight wt l1 + pendingWeight wt l2.
Proof. unfold pendingWeight. now rewrite List.map_app, list_sum_app. Qed.

Lemma pendingWeight_split wt f l :
  pendingWeight wt (List.filter f l)
  + pendingWeight wt (List.filter (fun t => negb (f t)) l)
  = pendingWeight wt l.
Proof.
  unfold pendingWeight.
  induction l as [| t l IH]; simpl; [reflexivity |].
  destruct (f t); simpl; lia.
Qed.

Lemma pendingWeight_filter_le wt f l :
  pendingWeight wt (List.filter f l) <= pendingWeight wt l.
Proof. pose proof (pendingWeight_split wt f l). lia. Qed.

Lemma pendingWeight_one wt t : pendingWeight wt [t] = wt (task t).
Proof. unfold pendingWeight. simpl. lia. Qed.

(** Replacing the slide-up under way does not change a weight that its
    two callbacks share. *)
Lemma pendingWeight_cancel wt n l :
  wt SlideUpCancelled = wt SlideUpDone ->
  pendingWeight wt (List.map (cancelTimer n) l) = pendingWeight wt l.
Proof.
  intros H. unfold pendingWeight. rewrite List.map_map. f_equal.
  apply List.map_ext. intros t. unfold cancelTimer, isSlideUp.
  destruct (task t) eqn:E; cbn [task]; rewrite ?E; congruence.
Qed.

(** Unfold one callback or handler and reduce the counters of the
    resulting state to those of the state it started from. *)
Ltac count_simpl :=
  unfold potential, onHideCount, hideCalls, writeCount, armedOnHide,
    slideUpCallback, startSlideDown, resetSlideDown, cancelSlideUp,
    setTimeout_, setTimeout, emit;
  cbn [trace timers now isMounted variant props nextTimerId autoHideTimeout
       slideMoving set_slideMoving
       measuredOnce set_currentHeight set_measuredOnce set_notificationHeight
       set_deviceConfig set_trace set_timers set_now set_nextTimerId set_isMounted
       set_autoHideTimeout set_expansion set_textOpacity set_textScale
       set_slideDown set_opacity set_scale set_completelyHidden
       set_contentSize emit snd fst];
  rewrite ?List.filter_app, ?length_app, ?pendingWeight_app,
    ?pendingWeight_one, ?pendingWeight_cancel by reflexivity;
  cbn [List.filter isOnHide isHide isWrite snd length app
       task chainWeight armedWeight].

Section Potential.
Variable wt : Task -> nat.
Variable Q : Inst -> Prop.
Hypothesis Q_sched : forall s n l, Q s -> Q (set_timers l (set_now n s)).
Hypothesis Q_task : forall t s, Q s -> Q (runTask t s).
Hypothesis pot_task :
  forall t s, Q s -> potential wt (runTask t s) <= potential wt s + wt t.

Lemma runTimers_potential (ready : list Timer) (s : Inst) :
  Q s ->
  potential wt (runTimers ready s) <= potential wt s + pendingWeight wt ready.
Proof.
  revert s. induction ready as [| t ready IH]; intros s H; simpl.
  - unfold pendingWeight. simpl. lia.
  - specialize (IH (runTask (task t) s) (Q_task _ _ H)).
    pose proof (pot_task (task t) s H).
    unfold pendingWeight in *. simpl. lia.
Qed.

Lemma tick_potential (s : Inst) :
  Q s -> potential wt (tick s) <= potential wt s.
Proof.
  intros H. unfold tick.
  set (n := S (now s)).
  pose proof (runTimers_potential (List.filter (isDue n) (timers s))
                (set_timers (List.filter (fun t => negb (isDue n t)) (timers s))
                   (set_now n s))
                (Q_sched _ _ _ H)) as Hr.
  pose proof (pendingWeight_split wt (isDue n) (timers s)) as Hs.
  unfold potential in *. cbn [timers set_timers set_now] in Hr.
  unfold onHideCount in *. cbn [trace set_timers set_now] in Hr.
  lia.
Qed.

Lemma advance_potential (ms : nat) (s : Inst) :
  Q s -> potential wt (advance ms s) <= potential wt s.
Proof.
  revert s. induction ms as [| k IH]; intros s H; simpl.
  - lia.
  - pose proof (tick_potential s H).
    specialize (IH (tick s) (tick_inv Q Q_sched Q_task s H)). lia.
Qed.
End Potential.

Lemma chain_task t s :
  potential chainWeight (runTask t s) <= potential chainWeight s + chainWeight t.
Proof.
  destruct t; cbn [runTask chainWeight]; animator_open; animator_cases;
    count_simpl; lia.
Qed.

Lemma chain_hide s :
  potential chainWeight (hideNotification s) <= potential chainWeight s + 1.
Proof. exact (chain_task AutoHide s). Qed.

Lemma chain_layout a b s :
  potential chainWeight (onContentLayout a b s) = potential chainWeight s.
Proof.
  unfold onContentLayout, island_onContentLayout, notch_onContentLayout,
    toast_onContentLayout.
  destruct (variant s), (isMounted s); cbn [negb orb]; try lia;
    cbn [measuredOnce set_currentHeight]; destruct (measuredOnce s);
    cbn [negb]; count_simpl; lia.
Qed.

Lemma chain_cleanup s :
  potential chainWeight (cleanup s) <= potential chainWeight s.
Proof.
  unfold cleanup. cbn [autoHideTimeout set_isMounted].
  destruct (autoHideTimeout s); unfold clearTimeout; count_simpl; [| lia].
  pose proof (pendingWeight_filter_le chainWeight
                (fun t => negb (Nat.eqb (tid t) n)) (timers s)). lia.
Qed.

Lemma chain_step s e :
  potential chainWeight (step s e) <= potential chainWeight s + isTrigger e.
Proof.
  destruct e; cbn [step isTrigger].
  - rewrite chain_layout. lia.
  - unfold onNotificationLayout.
    destruct (isMounted s), (variant s); try lia;
      destruct (Qeq_bool _ _); count_simpl; lia.
  - destruct (isMounted s); [apply chain_hide | lia].
  - apply chain_hide.
  - destruct (isMounted s); [| lia]. pose proof (chain_cleanup s). lia.
  - unfold loadDeviceConfig. destruct (isMounted s); count_simpl; lia.
  - pose proof (advance_potential chainWeight (fun _ => True)
                  (fun _ _ _ _ => I) (fun _ _ _ => I)
                  (fun t x _ => chain_task t x) ms s I). lia.
Qed.

Lemma chain_run evs s :
  potential chainWeight (run evs s) <= potential chainWeight s + triggers evs.
Proof.
  revert s. induction evs as [| e evs IH]; intros s; simpl.
  - unfold triggers. simpl. lia.
  - specialize (IH (step s e)). pose proof (chain_step s e).
    unfold triggers in *. simpl. lia.
Qed.

Lemma chain_mount v p o ww wh :
  potential chainWeight (mount v p o ww wh) = autoArmed p.
Proof.
  destruct p as [m ty tc ss sc bc ch ad sCl dah eh].
  destruct v, sCl, dah as [[] |], eh as [[] |], ty as [[] |];
    vm_compute; reflexivity.
Qed.

(** *** After the unmount *)

Lemma isMounted_hide s : isMounted (hideNotification s) = isMounted s.
Proof. animator_open. animator_cases; inst_red; congruence. Qed.

Lemma isMounted_task t s : isMounted (runTask t s) = isMounted s.
Proof.
  destruct t; cbn [runTask]; try apply isMounted_hide;
    animator_open; animator_cases; inst_red; congruence.
Qed.

Lemma armed_task t s :
  isMounted s = false ->
  potential armedWeight (runTask t s) <= potential armedWeight s + armedWeight t.
Proof.
  intros Hm.
  destruct t; cbn [runTask armedWeight]; rewrite ?Hm; cbn [negb];
    animator_open; inst_simpl; rewrite ?Hm; animator_cases;
    count_simpl; lia.
Qed.

Lemma armed_hide s :
  isMounted s = false ->
  potential armedWeight (hideNotification s) = potential armedWeight s.
Proof.
  intros Hm. animator_open. inst_simpl. rewrite ?Hm.
  animator_cases; count_simpl; lia.
Qed.

Lemma armed_run evs s :
  isMounted s = false ->
  isMounted (run evs s) = false /\
  potential armedWeight (run evs s) <= potential armedWeight s.
Proof.
  revert s. induction evs as [| e evs IH]; intros s Hm; simpl.
  - split; [assumption | lia].
  - assert (isMounted (step s e) = false /\
            potential armedWeight (step s e) <= potential armedWeight s)
      as (Hm' & Hp).
    { destruct e; cbn [step]; rewrite ?Hm; cbn beta iota.
      - unfold onContentLayout, island_onContentLayout, notch_onContentLayout,
          toast_onContentLayout. rewrite Hm. cbn [negb orb].
        destruct (variant s); cbn beta iota; split; first [done | lia].
      - split; [done | lia].
      - split; [done | lia].
      - rewrite isMounted_hide, armed_hide by exact Hm. split; [done | lia].
      - split; [done | lia].
      - unfold loadDeviceConfig. rewrite ?Hm. split; [done | lia].
      - split.
        + apply (advance_inv (fun x => isMounted x = false)); try assumption.
          * intros x n l Hx. exact Hx.
          * intros t x Hx. now rewrite isMounted_task.
        + apply (advance_potential armedWeight (fun x => isMounted x = false));
            try assumption.
          * intros x n l Hx. exact Hx.
          * intros t x Hx. now rewrite isMounted_task.
          * apply armed_task. }
    destruct (IH (step s e) Hm') as (Hm'' & Hp'). split; [assumption | lia].
Qed.

(** The trace only grows. *)
Lemma onHideCount_task t s : onHideCount s <= onHideCount (runTask t s).
Proof.
  destruct t; cbn [runTask]; animator_open; animator_cases;
    count_simpl; lia.
Qed.

Lemma onHideCount_run evs s : onHideCount s <= onHideCount (run evs s).
Proof.
  apply (run_inv (fun x => onHideCount s <= onHideCount x)); try lia.
  - intros x n l H. exact H.
  - intros t x H. pose proof (onHideCount_task t x). lia.
  - intros x a b H. unfold onContentLayout, island_onContentLayout,
      notch_onContentLayout, toast_onContentLayout.
    destruct (variant x), (isMounted x); cbn [negb orb]; try assumption;
      cbn [measuredOnce set_currentHeight]; destruct (measuredOnce x);
      cbn [negb]; revert H; count_simpl; lia.
  - intros x a H. unfold onNotificationLayout.
    destruct (variant x); try assumption; destruct (Qeq_bool _ _); assumption.
  - intros x H. pose proof (onHideCount_task AutoHide x). cbn [runTask] in *. lia.
  - intros x H. unfold cleanup. cbn [autoHideTimeout set_isMounted].
    destruct (autoHideTimeout x); assumption.
  - intros x id H. unfold loadDeviceConfig. destruct (isMounted x); assumption.
Qed.

(** C2, as the code has it.  No variant guards [hideNotification] against
    re-entry: every trigger starts a hide chain of its own, and a chain
    invokes [onHide] at most once.  Along every run of a mounted instance
    the number of [onHide] calls is at most the number of presses and
    close-handle calls, plus one when the auto-hide timer was armed; so a
    single trigger yields at most one call.  Once the instance is
    unmounted, only the calls whose last timeout was already armed can
    still happen, whatever is triggered afterwards; when none is armed,
    a close-handle call invokes no [onHide] at all. *)
Theorem onHide_at_most_once_per_trigger :
  (forall v p o ww wh evs,
     onHideCount (run evs (mount v p o ww wh)) <= triggers evs + autoArmed p) /\
  (forall s evs,
     isMounted s = false ->
     onHideCount (run evs s) <= onHideCount s + armedOnHide s) /\
  (forall s evs,
     isMounted s = false -> armedOnHide s = 0 ->
     onHideCount (run evs s) = onHideCount s).
Proof.
  assert (Hb : forall s evs, isMounted s = false ->
                 onHideCount (run evs s) <= onHideCount s + armedOnHide s).
  { intros s evs Hm. destruct (armed_run evs s Hm) as (_ & Hp).
    unfold potential, armedOnHide in *. lia. }
  split; [| split].
  - intros v p o ww wh evs.
    pose proof (chain_run evs (mount v p o ww wh)) as H.
    rewrite chain_mount in H. unfold potential in H. lia.
  - exact Hb.
  - intros s evs Hm Ha. pose proof (Hb s evs Hm).
    pose proof (onHideCount_run evs s). lia.
Qed.

Lemma onHide_at_most_once_per_trigger_witness :
  let s := run [Press; Wait 525; Unmount]
               (mount NOTCH Samples.persistentProps ios (390 # 1) (844 # 1)) in
  isMounted s = false /\ armedOnHide s = 0 /\ onHideCount s = 1 /\
  onHideCount (run [CloseHandle; Wait 1000; CloseHandle; Wait 1000] s) = 1.
Proof.
  cbv zeta.
  destruct onHide_at_most_once_per_trigger as (_ & _ & H).
  split; [reflexivity | split; [reflexivity | split; [reflexivity |]]].
  rewrite H; reflexivity.
Defined.

(** C2 as stated fails: a second trigger 30 ms after the first one, when
    the collapse has begun, is not a no-op; [onHide] is invoked twice. *)
Lemma notch_onHide_twice :
  let s := run [Press; Wait 30; CloseHandle; Wait 525]
               (mount NOTCH Samples.persistentProps ios (390 # 1) (844 # 1)) in
  hideCalls s = 2 /\ onHideCount s = 2 /\
  List.filter isOnHide (trace s) = [(525, EOnHide); (555, EOnHide)].
Proof. vm_compute. repeat split. Qed.

(** C8 fails on the code.  The cleanup of the mount effect clears the
    auto-hide timer only; the timeouts of a hide chain that is under way
    stay armed.  A notch instance pressed at 0 ms and unmounted at 480 ms
    still invokes [onHide] at 525 ms; unmounted at 100 ms, it still
    assigns [expansion] at 175 ms.  The toast, whose completion callback
    tests [isMounted] right before calling [onHide], stays silent. *)
Theorem notch_hide_chain_survives_unmount :
  let mounted := mount NOTCH Samples.persistentProps ios (390 # 1) (844 # 1) in
  let late := run [Press; Wait 480; Unmount] mounted in
  let early := run [Press; Wait 100; Unmount] mounted in
  let toast :=
    run [Press; Wait 300; Unmount]
        (mount STANDARD Samples.persistentProps ios (390 # 1) (844 # 1)) in
  (isMounted late = false /\
   timers late = [mkTimer 4 525 CallOnHide] /\
   onHideCount late = 0 /\
   trace (run [Wait 50] late) = trace late ++ [(525, EOnHide)]) /\
  (isMounted early = false /\
   timers early = [mkTimer 1 175 ShowText; mkTimer 2 175 Collapse] /\
   trace (run [Wait 100] early) = trace early ++ [(175, EWrite Expansion)]) /\
  (isMounted toast = false /\
   trace (run [Wait 100] toast) = trace toast).
Proof. vm_compute. repeat split. Qed.

(** ** Variant animators: the auto-hide timer *)

Lemma cancel_noSlideUp n l :
  noSlideUp l = true -> List.map (cancelTimer n) l = l.
Proof.
  unfold noSlideUp. induction l as [| t l IH]; cbn [forallb List.map];
    [reflexivity |].
  intros H. apply andb_prop in H as (Ht & Hl). rewrite (IH Hl).
  unfold cancelTimer. now destruct (isSlideUp t).
Qed.

Lemma quiet_noSlideUp l : forallb quiet l = true -> noSlideUp l = true.
Proof.
  unfold noSlideUp. induction l as [| t l IH]; cbn [forallb]; [reflexivity |].
  intros H. apply andb_prop in H as (Ht & Hl). rewrite (IH Hl), andb_true_r.
  unfold quiet in Ht. unfold isSlideUp. now destruct (task t).
Qed.

Lemma noSlideUp_app l1 l2 :
  noSlideUp (l1 ++ l2) = noSlideUp l1 && noSlideUp l2.
Proof. unfold noSlideUp. apply forallb_app. Qed.

Lemma quiet_task t s :
  quiet t = true -> noSlideUp (timers s) = true ->
  timers (runTask (task t) s) = timers s /\
  now (runTask (task t) s) = now s /\
  hideCalls (runTask (task t) s) = hideCalls s.
Proof.
  unfold quiet. intros Hq Hn.
  destruct (task t); try discriminate; cbn [runTask];
    animator_open; animator_cases; count_simpl;
    rewrite ?(cancel_noSlideUp _ _ Hn); repeat split; lia.
Qed.

Lemma quiet_timers ready s :
  forallb quiet ready = true -> noSlideUp (timers s) = true ->
  timers (runTimers ready s) = timers s /\
  now (runTimers ready s) = now s /\
  hideCalls (runTimers ready s) = hideCalls s.
Proof.
  revert s. induction ready as [| t ready IH]; intros s H Hn; simpl.
  - repeat split.
  - simpl in H. apply andb_prop in H as (Ht & Hr).
    destruct (quiet_task t s Ht Hn) as (H1 & H2 & H3).
    destruct (IH (runTask (task t) s) Hr) as (H4 & H5 & H6);
      [now rewrite H1 |].
    repeat split; congruence.
Qed.

Lemma forallb_filter_quiet f l :
  forallb quiet l = true -> forallb quiet (List.filter f l) = true.
Proof.
  induction l as [| t l IH]; simpl; [reflexivity |].
  intros H. apply andb_prop in H as (Ht & Hl).
  destruct (f t); simpl; [rewrite Ht |]; auto.
Qed.

Lemma hideCalls_hide s : hideCalls (hideNotification s) = S (hideCalls s).
Proof. animator_open. animator_cases; count_simpl; lia. Qed.

Lemma runTimers_app l1 l2 s :
  runTimers (l1 ++ l2) s = runTimers l2 (runTimers l1 s).
Proof. unfold runTimers. apply fold_left_app. Qed.

Lemma isDue_timer n id d t : isDue n (mkTimer id d t) = Nat.leb d n.
Proof. reflexivity. Qed.

(** A tick before the auto-hide timer is due leaves the instance waiting. *)
Lemma awaiting_tick d s :
  awaiting d s -> S (now s) < d ->
  awaiting d (tick s) /\ now (tick s) = S (now s).
Proof.
  intros (Hh & pre & id & Ht & Hq) Hlt. unfold tick. rewrite Ht.
  rewrite !List.filter_app. cbn [List.filter]. rewrite !isDue_timer.
  replace (Nat.leb d (S (now s))) with false
    by (symmetry; apply Nat.leb_gt; lia).
  cbn [negb]. cbn beta iota. rewrite app_nil_r.
  set (s0 := set_timers _ _).
  destruct (quiet_timers (List.filter (isDue (S (now s))) pre) s0)
    as (H1 & H2 & H3); [now apply forallb_filter_quiet | |].
  { unfold s0. cbn [timers set_timers]. rewrite noSlideUp_app.
    rewrite quiet_noSlideUp by now apply forallb_filter_quiet. reflexivity. }
  split; [split |].
  - rewrite H3. exact Hh.
  - exists (List.filter (fun t => negb (isDue (S (now s)) t)) pre), id.
    split; [rewrite H1; reflexivity | now apply forallb_filter_quiet].
  - rewrite H2. reflexivity.
Qed.

(** The tick at which the auto-hide timer is due enters
    [hideNotification], once. *)
Lemma awaiting_fire d s :
  awaiting d s -> S (now s) = d -> hideCalls (tick s) = 1.
Proof.
  intros (Hh & pre & id & Ht & Hq) Hd. unfold tick. rewrite Ht.
  rewrite !List.filter_app. cbn [List.filter]. rewrite !isDue_timer.
  replace (Nat.leb d (S (now s))) with true
    by (symmetry; apply Nat.leb_le; lia).
  cbn [negb]. cbn beta iota. rewrite runTimers_app.
  set (s0 := set_timers _ _).
  destruct (quiet_timers (List.filter (isDue (S (now s))) pre) s0)
    as (H1 & H2 & H3); [now apply forallb_filter_quiet | |].
  { unfold s0. cbn [timers set_timers]. rewrite app_nil_r.
    apply quiet_noSlideUp. now apply forallb_filter_quiet. }
  change (runTimers [mkTimer id d AutoHide] ?x) with (hideNotification x).
  rewrite hideCalls_hide, H3. exact (f_equal S Hh).
Qed.

Lemma awaiting_advance d n s :
  awaiting d s -> now s + n < d ->
  awaiting d (advance n s) /\ now (advance n s) = now s + n.
Proof.
  revert s. induction n as [| k IH]; intros s Ha Hlt; simpl.
  - split; [assumption | lia].
  - destruct (awaiting_tick d s Ha) as (Ha' & Hn); [lia |].
    destruct (IH (tick s) Ha') as (Ha'' & Hn'); [lia |].
    split; [assumption | lia].
Qed.

Lemma advance_S n s : advance (S n) s = tick (advance n s).
Proof.
  revert s. induction n as [| k IH]; intros s; [reflexivity |].
  change (advance (S (S k)) s) with (advance (S k) (tick s)).
  rewrite IH. reflexivity.
Qed.

(** The mount effect arms the timer at [autoHideDelay || 3000]. *)
Lemma mount_timers v p o ww wh :
  truthy_bool (disableAutoHide p) = false ->
  let s := mount v p o ww wh in
  let d := Nat.max 1 (Z.to_nat (effectiveAutoHideDelay (autoHideDelay p))) in
  hideCalls s = 0 /\ now s = 0 /\ autoHideTimeout s = Some 2 /\
  exists t1, quiet t1 = true /\ timers s = [t1; mkTimer 2 d AutoHide].
Proof.
  destruct p as [m ty tc ss sc bc ch ad sCl dah eh].
  cbn [disableAutoHide autoHideDelay]. intros Hd. cbv zeta.
  destruct dah as [[] |]; [discriminate | |];
    destruct v, sCl, eh as [[] |], ty as [[] |];
    (split; [vm_compute; reflexivity |]);
    (split; [reflexivity |]); (split; [reflexivity |]);
    match goal with
    | |- context [mount STANDARD] => exists (mkTimer 1 50 ToastAppear)
    | |- _ => exists (mkTimer 1 175 ShowText)
    end; (split; [reflexivity | vm_compute; reflexivity]).
Qed.

Lemma awaiting_mount v p o ww wh :
  truthy_bool (disableAutoHide p) = false ->
  awaiting (Nat.max 1 (Z.to_nat (effectiveAutoHideDelay (autoHideDelay p))))
           (mount v p o ww wh).
Proof.
  intros Hd. destruct (mount_timers v p o ww wh Hd) as (Hh & _ & _ & t1 & Hq & Ht).
  split; [exact Hh |].
  exists [t1], 2. split; [exact Ht |]. simpl. now rewrite Hq.
Qed.

(** C9.  With [autoHideDelay] absent or 0 and auto-hide not disabled, the
    mount effect of every variant arms the auto-hide timer 3000 ms ahead:
    [hideNotification] is not entered during the first 2999 ms and is
    entered, once, at 3000 ms. *)
Theorem zero_autoHideDelay_arms_default :
  forall v p o ww wh,
    autoHideDelay p = None \/ autoHideDelay p = Some 0%Z ->
    truthy_bool (disableAutoHide p) = false ->
    let s := mount v p o ww wh in
    effectiveAutoHideDelay (autoHideDelay p) = DEFAULT_AUTO_HIDE_DELAY /\
    (exists id, autoHideTimeout s = Some id /\
                In (mkTimer id 3000 AutoHide) (timers s)) /\
    (forall n, n < 3000 -> hideCalls (advance n s) = 0) /\
    hideCalls (advance 3000 s) = 1.
Proof.
  intros v p o ww wh Hz Hd s.
  assert (He : effectiveAutoHideDelay (autoHideDelay p) = DEFAULT_AUTO_HIDE_DELAY)
    by (destruct Hz as [-> | ->]; reflexivity).
  assert (Hn : Nat.max 1 (Z.to_nat (effectiveAutoHideDelay (autoHideDelay p))) = 3000)
    by (rewrite He; vm_compute; reflexivity).
  destruct (mount_timers v p o ww wh Hd) as (_ & Hnow & Hid & t1 & _ & Ht).
  pose proof (awaiting_mount v p o ww wh Hd) as Ha.
  rewrite Hn in Ha, Ht. fold s in Ha, Hnow, Hid, Ht.
  split; [exact He | split; [| split]].
  - exists 2. split; [exact Hid |]. rewrite Ht. right. left. reflexivity.
  - intros n Hlt.
    destruct (awaiting_advance 3000 n s Ha) as ((Hh & _) & _); [lia | exact Hh].
  - change 3000 with (S 2999) at 1. rewrite advance_S.
    destruct (awaiting_advance 3000 2999 s Ha) as (Ha' & Hn'); [lia |].
    apply (awaiting_fire 3000); [exact Ha' | lia].
Qed.

Lemma zero_autoHideDelay_arms_default_witness :
  let s := mount STANDARD Samples.zeroDelayProps ios (390 # 1) (844 # 1) in
  hideCalls (advance 2999 s) = 0 /\ hideCalls (advance 3000 s) = 1.
Proof.
  cbv zeta.
  destruct (zero_autoHideDelay_arms_default STANDARD Samples.zeroDelayProps
              ios (390 # 1) (844 # 1)) as (_ & _ & Hq & Hf).
  - right. reflexivity.
  - reflexivity.
  - split; [apply Hq; lia | exact Hf].
Defined.

(** ** The provider *)
Import Provider PInv.

Lemma variant_hide x : variant (hideNotification x) = variant x.
Proof. animator_frame. Qed.

Lemma variant_task t x : variant (runTask t x) = variant x.
Proof.
  destruct t; cbn [runTask]; try apply variant_hide; animator_frame.
Qed.

Lemma variant_tick x : variant (tick x) = variant x.
Proof.
  apply (tick_inv (fun y => variant y = variant x)); try reflexivity.
  - intros y n l H. exact H.
  - intros t y H. now rewrite variant_task.
Qed.

Lemma variant_layout a b x : variant (onContentLayout a b x) = variant x.
Proof.
  unfold onContentLayout, island_onContentLayout, notch_onContentLayout,
    toast_onContentLayout.
  destruct (variant x) eqn:Hv, (isMounted x); cbn [negb orb]; try assumption;
    cbn [measuredOnce set_currentHeight]; destruct (measuredOnce x); assumption.
Qed.

Lemma variant_cleanup x : variant (cleanup x) = variant x.
Proof. unfold cleanup. cbn. now destruct (autoHideTimeout x). Qed.

Lemma variant_mount v p o ww wh : variant (mount v p o ww wh) = v.
Proof.
  unfold mount, mountEffect. cbn [variant firstRender].
  destruct v; unfold island_mountEffect, notch_mountEffect, toast_mountEffect,
    armAutoHide, exposeClose; animator_frame.
Qed.

(** Updating an instance in place does not change which variant is in the
    tree. *)
Lemma mountedVariant_onInstance i f s :
  (forall x, variant (f x) = variant x) ->
  mountedVariant (onInstance i f s) = mountedVariant s.
Proof.
  intros Hf. unfold mountedVariant, onInstance. cbn.
  destruct (mounted s) as [j |]; [| reflexivity].
  destruct (decide (i = j)) as [-> | Hne].
  - rewrite list_lookup_alter_eq.
    destruct (instances s !! j); cbn; [now rewrite Hf | reflexivity].
  - now rewrite list_lookup_alter_ne.
Qed.

Lemma renderNotification_eq st :
  renderNotification st = if visible st then Some (deviceType st) else None.
Proof. unfold renderNotification. now destruct (visible st), (deviceType st). Qed.

Lemma mountedVariant_mountInstance v s :
  mountedVariant (mountInstance v s) = Some v.
Proof.
  unfold mountInstance, mountedVariant.
  destruct (setClose _); cbn;
    (rewrite list_lookup_middle by reflexivity); cbn;
    now rewrite variant_mount.
Qed.

Lemma mountedVariant_unmountMounted s : mountedVariant (unmountMounted s) = None.
Proof.
  unfold unmountMounted, mountedVariant.
  destruct (mounted s) eqn:Hm; cbn; [reflexivity | now rewrite Hm].
Qed.

Lemma statusBarEffect_flag s :
  statusBarHidden (statusBarEffect s)
  = visible (rendered s) && expanding (deviceType (rendered s)).
Proof.
  unfold statusBarEffect.
  destruct (visible (rendered s)), (deviceType (rendered s)); reflexivity.
Qed.

Lemma statusBarEffect_frame s :
  rendered (statusBarEffect s) = rendered s /\
  mountedVariant (statusBarEffect s) = mountedVariant s.
Proof.
  unfold statusBarEffect.
  destruct (_ && _); split; reflexivity.
Qed.

Lemma consistent_commit s : consistent s -> consistent (commit s).
Proof.
  intros (Hm & _). unfold consistent, commit.
  set (prev := renderNotification (rendered s)) in *.
  set (next := renderNotification (pending s)).
  set (s1 := set_rendered (pending s) s).
  assert (H1 : mountedVariant s1 = prev) by exact Hm.
  match goal with
  | |- context [statusBarEffect ?x] => set (s2 := x)
  end.
  assert (Hr : rendered s2 = pending s).
  { subst s2. destruct prev, next; try destruct (bool_decide _);
      unfold mountInstance, unmountMounted;
      repeat match goal with
             | |- context [if ?b then _ else _] => destruct b
             | |- context [match mounted ?x with _ => _ end] => destruct (mounted x)
             end; reflexivity. }
  assert (Hv : mountedVariant s2 = next).
  { subst s2. destruct prev as [a |] eqn:Hp, next as [b |] eqn:Hn.
    - destruct (bool_decide_reflect (a = b)) as [-> | Hne].
      + exact H1.
      + apply mountedVariant_mountInstance.
    - apply mountedVariant_unmountMounted.
    - apply mountedVariant_mountInstance.
    - exact H1. }
  destruct (statusBarEffect_frame s2) as (Hr' & Hv').
  rewrite statusBarEffect_flag, Hr', Hv', Hr, Hv. split; reflexivity.
Qed.

(** *** What only a commit can change *)

Lemma committed_onInstance i f s :
  (forall x, variant (f x) = variant x) ->
  committed (onInstance i f s) = committed s.
Proof.
  intros Hf. unfold committed, onInstance. cbn. f_equal.
  generalize (instances s) as l. clear s. revert i.
  induction i as [| i IH]; intros [| x l]; cbn; try reflexivity.
  - now rewrite Hf.
  - f_equal. apply IH.
Qed.

Lemma committed_tickAll s : committed (tickAll s) = committed s.
Proof.
  unfold committed, tickAll.
  destruct (existsb firesOnHide (instances s)); cbn; f_equal;
    rewrite List.map_map; apply List.map_ext; intros x; apply variant_tick.
Qed.

Lemma committed_elapse ms s : committed (elapse ms s) = committed s.
Proof.
  revert s. induction ms as [| k IH]; intros s; simpl; [reflexivity |].
  now rewrite IH, committed_tickAll.
Qed.

Lemma committed_show text ty o s : committed (show text ty o s) = committed s.
Proof.
  unfold show, applyForceStyle.
  destruct o as [[? ? ? ? ? ? ? [[] |]] |]; reflexivity.
Qed.

Lemma committed_showCustom c o s : committed (showCustom c o s) = committed s.
Proof.
  unfold showCustom, applyForceStyle.
  destruct o as [[? ? ? ? ? ? ? [[] |]] |]; reflexivity.
Qed.

Lemma committed_perform s a :
  a <> Commit -> committed (perform s a) = committed s.
Proof.
  intros Ha. destruct a; cbn [perform]; try contradiction.
  - apply committed_show.
  - apply committed_showCustom.
  - unfold hide. destruct (closeRef s); [| reflexivity].
    apply committed_onInstance, variant_hide.
  - apply committed_onInstance, variant_hide.
  - destruct (mounted s); [| reflexivity].
    apply committed_onInstance. intros x. cbn [step].
    destruct (isMounted x); [apply variant_hide | reflexivity].
  - destruct (mounted s); [| reflexivity].
    apply committed_onInstance. intros x. apply variant_layout.
  - unfold detectDevice. destruct (forceStyleProp s) as [[] |]; reflexivity.
  - apply committed_elapse.
Qed.

Lemma mountedVariant_committed s s' :
  committed s = committed s' -> mountedVariant s = mountedVariant s'.
Proof.
  unfold committed, mountedVariant. intros H.
  injection H as _ _ Hm _ Hv. rewrite Hm.
  destruct (mounted s') as [i |]; [| reflexivity].
  change (List.map variant ?l) with (variant <$> l) in Hv.
  now rewrite <- !list_lookup_fmap, Hv.
Qed.

Lemma consistent_perform s a : consistent s -> consistent (perform s a).
Proof.
  intros Hc.
  assert (a = Commit \/ a <> Commit) as [-> | Hne]
    by (destruct a; first [left; reflexivity | right; discriminate]).
  - now apply consistent_commit.
  - pose proof (committed_perform s a Hne) as Hf.
    pose proof (mountedVariant_committed _ _ Hf) as Hv.
    unfold committed in Hf. injection Hf as Hr Hb _ _ _.
    destruct Hc as (H1 & H2). unfold consistent.
    rewrite Hv, Hr, Hb. split; assumption.
Qed.

Lemma consistent_play acts s : consistent s -> consistent (play acts s).
Proof.
  revert s. induction acts as [| a acts IH]; intros s H; simpl.
  - exact H.
  - apply IH, consistent_perform, H.
Qed.

Lemma consistent_initial force o ww wh : consistent (initial force o ww wh).
Proof. split; reflexivity. Qed.

Lemma rendered_commit s : rendered (commit s) = pending s.
Proof.
  unfold commit.
  match goal with
  | |- context [statusBarEffect ?x] => set (s2 := x)
  end.
  destruct (statusBarEffect_frame s2) as (-> & _). subst s2.
  destruct (renderNotification (rendered s)), (renderNotification (pending s));
    try destruct (bool_decide _);
    unfold mountInstance, unmountMounted;
    repeat match goal with
           | |- context [if ?b then _ else _] => destruct b
           | |- context [match mounted ?x with _ => _ end] => destruct (mounted x)
           end; reflexivity.
Qed.

(** C7.  In every state the provider reaches, the status-bar flag is
    [visible && (deviceType is DYNAMIC_ISLAND or NOTCH)] of the last
    render, that is, it is set exactly when the island or the notch
    variant is in the tree; only the provider's effect, which runs with a
    render, writes the flag. *)
Theorem statusBarHidden_tracks_expanding_variant :
  (forall force o ww wh acts,
     let s := play acts (initial force o ww wh) in
     statusBarHidden s
     = visible (rendered s) && expanding (deviceType (rendered s)) /\
     (statusBarHidden s = true <->
      mountedVariant s = Some DYNAMIC_ISLAND \/ mountedVariant s = Some NOTCH)) /\
  (forall s a, a <> Commit -> statusBarHidden (perform s a) = statusBarHidden s) /\
  (forall s,
     statusBarHidden (commit s)
     = visible (pending s) && expanding (deviceType (pending s))).
Proof.
  split; [| split].
  - intros force o ww wh acts s.
    destruct (consistent_play acts _ (consistent_initial force o ww wh))
      as (Hv & Hb).
    fold s in Hv, Hb. split; [exact Hb |].
    rewrite Hb, Hv, renderNotification_eq.
    destruct (visible (rendered s)), (deviceType (rendered s)); cbn;
      split; intros H; try discriminate; try (destruct H; discriminate);
      auto.
  - intros s a Ha. pose proof (committed_perform s a Ha) as H.
    unfold committed in H. now injection H.
  - intros s. rewrite <- rendered_commit. unfold commit.
    rewrite statusBarEffect_flag.
    match goal with
    | |- context [statusBarEffect ?x] =>
        now destruct (statusBarEffect_frame x) as (-> & _)
    end.
Qed.

Lemma statusBarHidden_tracks_expanding_variant_witness :
  let s := play [Show "Saved" Animator.success (Samples.withStyle notch); Commit]
                Samples.iphone in
  statusBarHidden s = true /\
  statusBarHidden (perform s (Elapse 100)) = true /\
  statusBarHidden (play [Hide; Elapse 525; Commit] s) = false.
Proof.
  cbv zeta.
  destruct statusBarHidden_tracks_expanding_variant as (_ & Hframe & _).
  split; [reflexivity | split].
  - rewrite Hframe; [reflexivity | discriminate].
  - vm_compute. reflexivity.
Defined.

(** *** Which variant a request mounts *)

Lemma pending_show text ty o s :
  visible (pending (show text ty o s)) = true /\
  deviceType (pending (show text ty o s))
  = or_default (forcedClass o) (deviceType (pending s)) /\
  message (pending (show text ty o s)) = text.
Proof.
  unfold show, applyForceStyle, forcedClass.
  destruct o as [[? ? ? ? ? ? ? [[] |]] |]; repeat split.
Qed.

Lemma pending_showCustom c o s :
  visible (pending (showCustom c o s)) = true /\
  deviceType (pending (showCustom c o s))
  = or_default (forcedClass o) (deviceType (pending s)) /\
  customContent (pending (showCustom c o s)) = Some c.
Proof.
  unfold showCustom, applyForceStyle, forcedClass.
  destruct o as [[? ? ? ? ? ? ? [[] |]] |]; repeat split.
Qed.

Lemma deviceType_tickAll s : deviceType (pending (tickAll s)) = deviceType (pending s).
Proof. unfold tickAll. now destruct (existsb _ _). Qed.

Lemma deviceType_elapse ms s : deviceType (pending (elapse ms s)) = deviceType (pending s).
Proof.
  revert s. induction ms as [| k IH]; intros s; simpl; [reflexivity |].
  now rewrite IH, deviceType_tickAll.
Qed.

Lemma pending_commit s : pending (commit s) = pending s.
Proof.
  unfold commit, statusBarEffect.
  destruct (renderNotification (rendered s)), (renderNotification (pending s));
    try destruct (bool_decide _);
    unfold mountInstance, unmountMounted;
    repeat match goal with
           | |- context [if ?b then _ else _] => destruct b
           | |- context [match mounted ?x with _ => _ end] => destruct (mounted x)
           end; reflexivity.
Qed.

(** Which variant a request mounts, in every state the provider reaches.
    A request with [forceStyle] mounts the variant it names, whatever the
    device.  A request without it mounts the variant of the provider's
    [deviceType] state, and that state is written by the device detection
    (or the provider's own [forceStyle] prop) and by every earlier request
    that carried [forceStyle]. *)
Theorem show_mounts_forced_or_current_deviceType :
  (forall force o ww wh acts text ty opts,
     let s := play acts (initial force o ww wh) in
     mountedVariant (commit (show text ty opts s))
     = Some (or_default (forcedClass opts) (deviceType (pending s)))) /\
  (forall force o ww wh acts content opts,
     let s := play acts (initial force o ww wh) in
     mountedVariant (commit (showCustom content opts s))
     = Some (or_default (forcedClass opts) (deviceType (pending s)))) /\
  (forall s a,
     deviceType (pending (perform s a))
     = match a with
       | Show _ _ opts => or_default (forcedClass opts) (deviceType (pending s))
       | ShowCustom _ opts => or_default (forcedClass opts) (deviceType (pending s))
       | DeviceDetected id =>
           match forceStyleProp s with
           | Some f => styleClass f
           | None => detectDeviceType id
           end
       | _ => deviceType (pending s)
       end).
Proof.
  split; [| split].
  - intros force o ww wh acts text ty opts s.
    pose proof (consistent_play acts _ (consistent_initial force o ww wh)) as Hc.
    fold s in Hc.
    apply (consistent_perform _ (Show text ty opts)), (consistent_perform _ Commit) in Hc.
    cbn [perform] in Hc. destruct Hc as (Hv & _).
    rewrite Hv, rendered_commit, renderNotification_eq.
    destruct (pending_show text ty opts s) as (-> & -> & _). reflexivity.
  - intros force o ww wh acts content opts s.
    pose proof (consistent_play acts _ (consistent_initial force o ww wh)) as Hc.
    fold s in Hc.
    apply (consistent_perform _ (ShowCustom content opts)), (consistent_perform _ Commit) in Hc.
    cbn [perform] in Hc. destruct Hc as (Hv & _).
    rewrite Hv, rendered_commit, renderNotification_eq.
    destruct (pending_showCustom content opts s) as (-> & -> & _). reflexivity.
  - intros s a. destruct a; cbn [perform].
    + apply pending_show.
    + apply pending_showCustom.
    + unfold hide. now destruct (closeRef s).
    + reflexivity.
    + now destruct (mounted s).
    + now destruct (mounted s).
    + unfold detectDevice. now destruct (forceStyleProp s) as [[] |].
    + now rewrite pending_commit.
    + apply deviceType_elapse.
Qed.

(** C4 fails on the code in its second half.  [show] stores a per-call
    [forceStyle] in the [deviceType] state that the detection writes, and
    nothing restores the detected class: on a device detected as
    DYNAMIC_ISLAND, a request without [forceStyle] that follows a request
    forced to the notch mounts the notch variant again, where the
    documented default of the option is the device-based detection. *)
Lemma forceStyle_outlives_its_request :
  let s := play [DeviceDetected (Some "iPhone15,2"); Commit;
                 Show "A" Animator.success (Samples.withStyle notch); Commit;
                 Hide; Elapse 525; Commit;
                 Show "B" Animator.success None; Commit]
                Samples.iphone in
  detectDeviceType (Some "iPhone15,2") = DYNAMIC_ISLAND /\
  o_forceStyle (options (rendered s)) = None /\
  message (rendered s) = "B" /\
  mounted s = Some 1 /\
  mountedVariant s = Some NOTCH.
Proof. vm_compute. repeat split. Qed.

(** *** Close handles of unmounted instances *)

Lemma dead_run evs x :
  dead x -> dead (run evs x) /\ onHideCount (run evs x) = onHideCount x.
Proof.
  intros (Hm & Ha).
  destruct (armed_run evs x Hm) as (Hm' & Hp).
  pose proof (onHideCount_run evs x) as Hmono.
  unfold dead, potential, armedOnHide in *.
  repeat split; [assumption | lia | lia].
Qed.
















(** Reduce the projections of an updated provider state. *)
Ltac sys_simpl :=
  cbn [forceStyleProp platform screenWidth screenHeight rendered pending
       closeRef statusBarHidden mounted instances
       set_rendered set_pending set_closeRef set_statusBarHidden set_mounted
       set_instances].





Lemma props_mount v p o ww wh : props (mount v p o ww wh) = p.
Proof.
  unfold mount, mountEffect. cbn [variant firstRender].
  destruct v; unfold island_mountEffect, notch_mountEffect, toast_mountEffect,
    armAutoHide, exposeClose, haptics, setTimeout_, setTimeout;
    repeat match goal with
           | |- context [if ?b then _ else _] => destruct b
           | |- context [match typeOf ?y with _ => _ end] => destruct (typeOf y)
           end; reflexivity.
Qed.






From Stdlib Require Import Lqa.

(** ** JavaScript numbers: rounding is monotone *)
Module DoubleFacts.
Import Double.

Local Open Scope Q_scope.

Lemma pow2_pos e : 0 < pow2 e.
Proof. apply Qpower_0_lt. reflexivity. Qed.

Lemma pow2_le a b : (a <= b)%Z -> pow2 a <= pow2 b.
Proof. intros H. apply Qpower_le_compat_l; [exact H | discriminate]. Qed.

Lemma pow2_lt_inv a b : pow2 a < pow2 b -> (a < b)%Z.
Proof. intros H. apply (Qpower_lt_compat_l_inv (2 # 1)); [exact H | reflexivity]. Qed.

Lemma pow2_add a b : pow2 (a + b) == pow2 a * pow2 b.
Proof. apply Qpower_plus. discriminate. Qed.

Lemma pow2_inject k : (0 <= k)%Z -> pow2 k == inject_Z (2 ^ k).
Proof. intros H. unfold pow2. now rewrite (Zpower_Qpower 2 k H). Qed.

Lemma Qdiv_le_cross a b c d :
  0 < b -> 0 < d -> a * d <= c * b -> a / b <= c / d.
Proof.
  intros Hb Hd H.
  apply Qle_shift_div_l; [exact Hd |].
  setoid_replace (a / b * d) with (a * d / b) using relation Qeq
    by (field; lra).
  apply Qle_shift_div_r; [exact Hb | exact H].
Qed.

Lemma Qdiv_lt_cross a b c d :
  0 < b -> 0 < d -> a * d < c * b -> a / b < c / d.
Proof.
  intros Hb Hd H.
  apply Qlt_shift_div_l; [exact Hd |].
  setoid_replace (a / b * d) with (a * d / b) using relation Qeq
    by (field; lra).
  apply Qlt_shift_div_r; [exact Hb | exact H].
Qed.

Lemma ilog2_spec x :
  0 < x -> pow2 (ilog2 x) <= x /\ x < pow2 (ilog2 x + 1).
Proof.
  intros Hx. destruct x as [n d].
  assert (Hn : (0 < n)%Z).
  { unfold Qlt in Hx. cbn in Hx. lia. }
  unfold ilog2. cbn [Qnum Qden].
  set (a := Z.log2 n). set (b := Z.log2 (Z.pos d)).
  destruct (Z.log2_spec n Hn) as (Ha1 & Ha2).
  destruct (Z.log2_spec (Z.pos d) eq_refl) as (Hb1 & Hb2).
  fold a in Ha1, Ha2. fold b in Hb1, Hb2.
  assert (Ha0 : (0 <= a)%Z) by apply Z.log2_nonneg.
  assert (Hb0 : (0 <= b)%Z) by apply Z.log2_nonneg.
  assert (EA : pow2 a == inject_Z (2 ^ a)) by now apply pow2_inject.
  assert (EB : pow2 b == inject_Z (2 ^ b)) by now apply pow2_inject.
  assert (PA : 0 < pow2 a) by apply pow2_pos.
  assert (PB : 0 < pow2 b) by apply pow2_pos.
  assert (N1 : pow2 a <= inject_Z n).
  { rewrite EA. rewrite <- Zle_Qle. exact Ha1. }
  assert (N2 : inject_Z n < 2 * pow2 a).
  { rewrite EA. change 2 with (inject_Z 2). rewrite <- inject_Z_mult, <- Zlt_Qlt.
    rewrite Z.pow_succ_r in Ha2 by exact Ha0. exact Ha2. }
  assert (D1 : pow2 b <= inject_Z (Z.pos d)).
  { rewrite EB. rewrite <- Zle_Qle. exact Hb1. }
  assert (D2 : inject_Z (Z.pos d) < 2 * pow2 b).
  { rewrite EB. change 2 with (inject_Z 2). rewrite <- inject_Z_mult, <- Zlt_Qlt.
    rewrite Z.pow_succ_r in Hb2 by exact Hb0. exact Hb2. }
  assert (X : n # d == inject_Z n / inject_Z (Z.pos d)) by apply Qmake_Qdiv.
  assert (PD : 0 < inject_Z (Z.pos d)) by reflexivity.
  set (N := inject_Z n) in *. set (D := inject_Z (Z.pos d)) in *.
  assert (K0 : pow2 (a - b) == pow2 a / pow2 b).
  { apply Qpower_minus. discriminate. }
  assert (Klo : pow2 (a - b - 1) <= n # d).
  { rewrite X.
    assert (E : pow2 (a - b - 1) == pow2 a / (2 * pow2 b)).
    { unfold pow2 at 1. rewrite Qpower_minus by discriminate.
      fold (pow2 (a - b)). rewrite K0. change ((2 # 1) ^ 1) with 2.
      field. lra. }
    rewrite E. apply Qdiv_le_cross; [lra | exact PD |]. nra. }
  assert (Khi : n # d < pow2 (a - b + 1)).
  { rewrite X.
    assert (E : pow2 (a - b + 1) == 2 * pow2 a / pow2 b).
    { rewrite pow2_add, K0. change (pow2 1) with 2. field. lra. }
    rewrite E. apply Qdiv_lt_cross; [exact PD | exact PB |]. nra. }
  destruct (Qle_bool (pow2 (a - b)) (n # d)) eqn:E.
  - apply Qle_bool_iff in E. split; assumption.
  - assert (L : n # d < pow2 (a - b)).
    { apply Qnot_le_lt. intros H. apply Qle_bool_iff in H. congruence. }
    split; [exact Klo |].
    replace (a - b - 1 + 1)%Z with (a - b)%Z by lia. exact L.
Qed.

Lemma ilog2_mono x y : 0 < x -> x <= y -> (ilog2 x <= ilog2 y)%Z.
Proof.
  intros Hx Hxy.
  destruct (ilog2_spec x Hx) as (H1 & _).
  destruct (ilog2_spec y) as (_ & H2); [lra |].
  assert (H : pow2 (ilog2 x) < pow2 (ilog2 y + 1)) by lra.
  apply pow2_lt_inv in H. lia.
Qed.

Lemma ulp_mono x y : 0 < x -> x <= y -> (ulp x <= ulp y)%Z.
Proof.
  intros Hx Hxy. pose proof (ilog2_mono x y Hx Hxy). unfold ulp. lia.
Qed.

(** *** Rounding to the nearest integer *)

Lemma rint_floor x :
  (rint x = Qfloor x /\ x - inject_Z (Qfloor x) <= 1 # 2) \/
  (rint x = (Qfloor x + 1)%Z /\ 1 # 2 <= x - inject_Z (Qfloor x)).
Proof.
  unfold rint.
  destruct (Qcompare (x - inject_Z (Qfloor x)) (1 # 2)) eqn:E.
  - apply Qeq_alt in E. destruct (Z.even (Qfloor x)); [left | right];
      (split; [reflexivity | lra]).
  - apply Qlt_alt in E. left. split; [reflexivity | lra].
  - apply Qgt_alt in E. right. split; [reflexivity | lra].
Qed.

Lemma rint_comp x y : x == y -> rint x = rint y.
Proof.
  intros H. unfold rint. rewrite (Qfloor_comp x y H).
  assert (E : x - inject_Z (Qfloor y) == y - inject_Z (Qfloor y)) by lra.
  now rewrite (Qcompare_comp _ _ E _ _ (Qeq_refl (1 # 2))).
Qed.

Lemma rint_inject z : rint (inject_Z z) = z.
Proof.
  unfold rint. rewrite Qfloor_Z.
  assert (E : inject_Z z - inject_Z z == 0) by lra.
  now rewrite (Qcompare_comp _ _ E _ _ (Qeq_refl (1 # 2))).
Qed.

Lemma rint_spec x :
  let r := x - inject_Z (Qfloor x) in
  (r < 1 # 2 /\ rint x = Qfloor x) \/
  (r == 1 # 2 /\ rint x = if Z.even (Qfloor x) then Qfloor x else (Qfloor x + 1)%Z) \/
  (1 # 2 < r /\ rint x = (Qfloor x + 1)%Z).
Proof.
  cbv zeta. unfold rint.
  destruct (Qcompare (x - inject_Z (Qfloor x)) (1 # 2)) eqn:E.
  - apply Qeq_alt in E. right. left. split; [exact E | reflexivity].
  - apply Qlt_alt in E. left. split; [exact E | reflexivity].
  - apply Qgt_alt in E. right. right. split; [exact E | reflexivity].
Qed.

Lemma rint_mono x y : x <= y -> (rint x <= rint y)%Z.
Proof.
  intros H.
  pose proof (Qfloor_resp_le x y H) as Hf.
  destruct (Z.eq_dec (Qfloor x) (Qfloor y)) as [E | N].
  - pose proof (rint_spec x) as Sx. pose proof (rint_spec y) as Sy.
    cbv zeta in Sx, Sy. rewrite <- E in Sy.
    destruct Sx as [(Rx & ->) | [(Rx & ->) | (Rx & ->)]];
      destruct Sy as [(Ry & ->) | [(Ry & ->) | (Ry & ->)]];
      try (destruct (Z.even (Qfloor x))); try lia; lra.
  - destruct (rint_floor x) as [(-> & _) | (-> & _)];
      destruct (rint_floor y) as [(-> & _) | (-> & _)]; lia.
Qed.

Lemma rint_nonneg x : 0 <= x -> (0 <= rint x)%Z.
Proof. intros H. rewrite <- (rint_inject 0). now apply rint_mono. Qed.

Lemma rint_le_double x : 0 <= x -> inject_Z (rint x) <= 2 * x.
Proof.
  intros H.
  assert (Hf : (0 <= Qfloor x)%Z).
  { rewrite <- (Qfloor_Z 0). now apply Qfloor_resp_le. }
  pose proof (Qfloor_le x) as Hx1.
  assert (Hq : 0 <= inject_Z (Qfloor x)).
  { change 0 with (inject_Z 0). now rewrite <- Zle_Qle. }
  destruct (rint_floor x) as [(-> & _) | (-> & Hr)].
  - lra.
  - rewrite inject_Z_plus. change (inject_Z 1) with 1. lra.
Qed.

(** *** Rounding to a double *)

Lemma roundPos_nonneg x : 0 < x -> 0 <= roundPos x.
Proof.
  intros H. unfold roundPos.
  apply Qmult_le_0_compat; [| apply Qlt_le_weak, pow2_pos].
  change 0 with (inject_Z 0). rewrite <- Zle_Qle. apply rint_nonneg.
  apply Qle_shift_div_l; [apply pow2_pos | lra].
Qed.

Lemma roundPos_le_double x : 0 < x -> roundPos x <= 2 * x.
Proof.
  intros H. unfold roundPos.
  pose proof (pow2_pos (ulp x)) as Hp.
  assert (Hq : 0 <= x / pow2 (ulp x)).
  { apply Qle_shift_div_l; [exact Hp | lra]. }
  pose proof (rint_le_double _ Hq) as Hr.
  setoid_replace (2 * x) with (2 * (x / pow2 (ulp x)) * pow2 (ulp x))
    using relation Qeq by (field; lra).
  apply Qmult_le_compat_r; [exact Hr | lra].
Qed.

Lemma roundPos_mono x y : 0 < x -> x <= y -> roundPos x <= roundPos y.
Proof.
  intros Hx Hxy.
  assert (Hy : 0 < y) by lra.
  pose proof (ulp_mono x y Hx Hxy) as He.
  pose proof (pow2_pos (ulp x)) as Px. pose proof (pow2_pos (ulp y)) as Py.
  destruct (Z.eq_dec (ulp x) (ulp y)) as [E | N].
  - unfold roundPos. rewrite E.
    apply Qmult_le_compat_r; [| lra].
    rewrite <- Zle_Qle. apply rint_mono.
    apply Qdiv_le_cross; [exact Py | exact Py |]. nra.
  - assert (Hlt : (ulp x < ulp y)%Z) by lia.
    destruct (ilog2_spec x Hx) as (_ & Hx2).
    destruct (ilog2_spec y Hy) as (Hy1 & _).
    assert (Ey : ulp y = (ilog2 y - 52)%Z) by (unfold ulp in *; lia).
    assert (Ex : (ilog2 x + 1 <= ulp x + 53)%Z) by (unfold ulp; lia).
    (* the rounded x is at most 2^(ulp x + 53) *)
    assert (Ux : roundPos x <= pow2 (ulp x + 53)).
    { unfold roundPos. rewrite pow2_add, Qmult_comm.
      apply Qmult_le_l; [exact Px |].
      rewrite (pow2_inject 53) by lia. rewrite <- Zle_Qle.
      rewrite <- (rint_inject (2 ^ 53)). apply rint_mono.
      rewrite <- (pow2_inject 53) by lia.
      apply Qle_shift_div_r; [exact Px |].
      rewrite Qmult_comm, <- pow2_add.
      pose proof (pow2_le _ _ Ex). lra. }
    (* the rounded y is at least 2^(ulp y + 52) *)
    assert (Ly : pow2 (ulp y + 52) <= roundPos y).
    { unfold roundPos. rewrite pow2_add, Qmult_comm.
      apply Qmult_le_compat_r; [| lra].
      rewrite (pow2_inject 52) by lia. rewrite <- Zle_Qle.
      rewrite <- (rint_inject (2 ^ 52)) at 1. apply rint_mono.
      rewrite <- (pow2_inject 52) by lia.
      apply Qle_shift_div_l; [exact Py |].
      rewrite Qmult_comm, <- pow2_add.
      replace (ulp y + 52)%Z with (ilog2 y) by lia. exact Hy1. }
    assert (Hm : pow2 (ulp x + 53) <= pow2 (ulp y + 52)) by (apply pow2_le; lia).
    lra.
Qed.

Lemma Qnum_pos x : (exists p, Qnum x = Z.pos p) <-> 0 < x.
Proof.
  destruct x as [n d]. unfold Qlt. cbn. split.
  - intros (p & ->). lia.
  - intros H. destruct n; try lia. now exists p.
Qed.

Lemma round_pos x : 0 < x -> round x == roundPos x.
Proof.
  intros H. apply Qnum_pos in H as (p & Hp). unfold round. rewrite Hp.
  apply Qred_correct.
Qed.

Lemma round_neg x : x < 0 -> round x == - roundPos (- x).
Proof.
  intros H. unfold round. destruct x as [[| p | p] d];
    unfold Qlt in H; cbn in H; try lia.
  cbn [Qnum]. apply Qred_correct.
Qed.

Lemma round_zero x : x == 0 -> round x = 0.
Proof.
  intros H. unfold round. destruct x as [[| p | p] d];
    unfold Qeq in H; cbn in H; try lia. reflexivity.
Qed.

Lemma round_nonneg x : 0 <= x -> 0 <= round x.
Proof.
  intros H. destruct (Qlt_le_dec 0 x) as [P | N].
  - rewrite (round_pos x P). now apply roundPos_nonneg.
  - rewrite (round_zero x); lra.
Qed.

Lemma round_nonpos x : x <= 0 -> round x <= 0.
Proof.
  intros H. destruct (Qlt_le_dec x 0) as [P | N].
  - rewrite (round_neg x P).
    assert (0 <= roundPos (- x)) by (apply roundPos_nonneg; lra). lra.
  - rewrite (round_zero x); lra.
Qed.

Lemma round_mono x y : x <= y -> round x <= round y.
Proof.
  intros H.
  destruct (Qlt_le_dec 0 x) as [Px | Nx].
  - rewrite (round_pos x Px), (round_pos y) by lra. now apply roundPos_mono.
  - destruct (Qlt_le_dec 0 y) as [Py | Ny].
    + pose proof (round_nonpos x Nx). pose proof (round_nonneg y). lra.
    + destruct (Qlt_le_dec y 0) as [Ly | Zy].
      * rewrite (round_neg x), (round_neg y) by lra.
        assert (roundPos (- y) <= roundPos (- x))
          by (apply roundPos_mono; lra).
        lra.
      * pose proof (round_nonpos x Nx). rewrite (round_zero y); lra.
Qed.

Lemma round_le_double x : 0 <= x -> round x <= 2 * x.
Proof.
  intros H. destruct (Qlt_le_dec 0 x) as [P | N].
  - rewrite (round_pos x P). now apply roundPos_le_double.
  - rewrite (round_zero x); lra.
Qed.

End DoubleFacts.

(** *** The operations *)
Module DoubleOps.
Import Double DoubleFacts.

Local Open Scope Q_scope.


Lemma mul_nonneg a b : 0 <= a -> 0 <= b -> 0 <= mul a b.
Proof. intros Ha Hb. apply round_nonneg. nra. Qed.

Lemma mul_mono_r a b c : 0 <= a -> b <= c -> mul a b <= mul a c.
Proof. intros Ha H. apply round_mono. nra. Qed.


(** A non-negative number times a factor of at most 1/2 does not grow,
    whatever the rounding. *)
Lemma mul_half_le a c : 0 <= a -> 0 <= c -> c <= 1 # 2 -> mul a (round c) <= a.
Proof.
  intros Ha H0 Hc.
  pose proof (round_mono c (1 # 2) Hc) as H1.
  change (round (1 # 2)) with (1 # 2) in H1.
  pose proof (round_nonneg c H0) as H2.
  assert (H3 : 0 <= a * round c) by nra.
  pose proof (round_le_double _ H3). unfold mul. nra.
Qed.

Lemma sub_nonneg a b : b <= a -> 0 <= sub a b.
Proof. intros H. apply round_nonneg. lra. Qed.

Lemma half_nonneg a : 0 <= a -> 0 <= div a (2 # 1).
Proof.
  intros H. apply round_nonneg.
  apply Qle_shift_div_l; [reflexivity | lra].
Qed.

End DoubleOps.

Import DoubleFacts DoubleOps.

(** * Further properties of the code *)

(** ** Device classifier: the boolean predicates and the profiles *)

Lemma tables_disjoint (id : string) :
  includes devicesWithDynamicIsland id = true ->
  includes devicesWithNotch id = false.
Proof.
  intros H. apply includes_In in H. unfold devicesWithDynamicIsland in H.
  simpl in H. repeat (destruct H as [<- | H]; [reflexivity |]). contradiction.
Qed.

(** X1.  [hasDynamicIsland] and [hasNotch] classify as [detectDeviceType]
    does: each is true exactly on the identifiers of its class, they are
    never both true, and both are false exactly on STANDARD. *)
Theorem has_predicates_agree_with_detectDeviceType :
  forall id : option string,
    (hasDynamicIsland id = true <-> detectDeviceType id = DYNAMIC_ISLAND) /\
    (hasNotch id = true <-> detectDeviceType id = NOTCH) /\
    (hasDynamicIsland id = false /\ hasNotch id = false
     <-> detectDeviceType id = STANDARD).
Proof.
  assert (Hsolve : forall a b : bool, forall t : DeviceType,
            t = (if a then DYNAMIC_ISLAND else if b then NOTCH else STANDARD) ->
            (a = true -> b = false) ->
            (a = true <-> t = DYNAMIC_ISLAND) /\
            (b = true <-> t = NOTCH) /\
            (a = false /\ b = false <-> t = STANDARD)).
  { intros a b t -> Hab. destruct a, b; try (specialize (Hab eq_refl); discriminate);
      repeat split; intros; repeat match goal with
                                   | H : _ /\ _ |- _ => destruct H
                                   end; first [reflexivity | discriminate]. }
  intros [id |]; unfold hasDynamicIsland, hasNotch, detectDeviceType;
    cbn [or_default truthy_string negb].
  - destruct (String.eqb_spec id "") as [-> | Hne]; cbn [negb].
    + apply Hsolve; [reflexivity | discriminate].
    + apply Hsolve; [reflexivity | apply tables_disjoint].
  - apply Hsolve; [reflexivity | discriminate].
Qed.

Lemma exactOverride_values (id : string) (o : PartialConfig) :
  Spec.exactOverride Spec.overrideTable id = Some o ->
  o = proAdjust \/ o = proMaxAdjust \/ o = notchAdjust.
Proof.
  unfold Spec.overrideTable. cbn [Spec.exactOverride].
  repeat match goal with
         | |- context [String.eqb ?k id] => destruct (String.eqb k id)
         end; intros H; first [discriminate H | injection H as <-];
    auto.
Qed.

Lemma resolved_profile_bounds :
  forall id ty,
    let c := getDeviceAnimationConfig id ty in
    (1 # 4 <= minWidthRatio c)%Q /\ (minWidthRatio c <= 1 # 2)%Q /\
    (minWidthRatio c < maxWidthRatio c)%Q /\
    (3 # 4 <= maxWidthRatio c)%Q /\ (maxWidthRatio c <= 9 # 10)%Q /\
    (70 # 1 <= expandedHeight c)%Q /\ (expandedHeight c <= 80 # 1)%Q /\
    (0 <= initialHeight c)%Q /\ (initialHeight c < expandedHeight c)%Q /\
    (0 < initialScale c)%Q /\ (initialScale c <= 1)%Q.
Proof.
  intros id ty c. subst c. rewrite getDeviceAnimationConfig_refines.
  unfold Spec.resolveProfile.
  set (t := match ty with Some c => c | None => detectDeviceType id end).
  clearbody t.
  destruct id as [id |].
  - destruct (Spec.exactOverride Spec.overrideTable id) as [o |] eqn:Ho.
    + apply exactOverride_values in Ho.
      destruct Ho as [-> | [-> | ->]]; destruct t; vm_compute;
        repeat split; first [reflexivity | discriminate].
    + destruct t; vm_compute; repeat split; first [reflexivity | discriminate].
  - destruct t; vm_compute; repeat split; first [reflexivity | discriminate].
Qed.

(** X2.  Every profile that [getDeviceAnimationConfig] can return, for any
    identifier and any explicit type, is well formed: the minimum width
    ratio is below the maximum one, both between 1/4 and 9/10; the
    expanded height is between 70 and 80 and above the initial height;
    the initial scale is in (0, 1]. *)
Theorem getDeviceAnimationConfig_well_formed :
  forall id ty,
    let c := getDeviceAnimationConfig id ty in
    (1 # 4 <= minWidthRatio c)%Q /\ (minWidthRatio c <= 1 # 2)%Q /\
    (minWidthRatio c < maxWidthRatio c)%Q /\
    (3 # 4 <= maxWidthRatio c)%Q /\ (maxWidthRatio c <= 9 # 10)%Q /\
    (70 # 1 <= expandedHeight c)%Q /\ (expandedHeight c <= 80 # 1)%Q /\
    (0 <= initialHeight c)%Q /\ (initialHeight c < expandedHeight c)%Q /\
    (0 < initialScale c)%Q /\ (initialScale c <= 1)%Q.
Proof.
  intros id ty c. subst c.
  apply (resolved_profile_bounds id ty).
Qed.

(** ** Variant animators: geometry *)
Import Render XInv.

Lemma notch_profile_height id :
  expandedHeight (getDeviceAnimationConfig id (Some NOTCH)) = 80 # 1.
Proof.
  rewrite getDeviceAnimationConfig_refines. unfold Spec.resolveProfile.
  destruct id as [id |]; [| reflexivity].
  destruct (Spec.exactOverride Spec.overrideTable id) as [o |] eqn:Ho;
    [| reflexivity].
  apply exactOverride_values in Ho. now destruct Ho as [-> | [-> | ->]].
Qed.

Lemma mount_geometry v p o ww wh :
  let s := mount v p o ww wh in
  variant s = v /\ windowWidth s = ww /\ windowHeight s = wh /\
  deviceConfig s = getDeviceAnimationConfig None (ownClass v) /\
  contentSize s = contentSize (firstRender v p o ww wh).
Proof.
  cbv zeta. unfold mount, mountEffect. cbn [variant firstRender].
  destruct v; unfold island_mountEffect, notch_mountEffect, toast_mountEffect,
    armAutoHide, exposeClose, haptics, setTimeout_, setTimeout;
    repeat match goal with
           | |- context [if ?b then _ else _] => destruct b
           | |- context [match typeOf ?y with _ => _ end] => destruct (typeOf y)
           end; repeat split.
Qed.

Lemma geometry_hide s : geometry (hideNotification s) = geometry s.
Proof. animator_frame. Qed.

Lemma geometry_task t s : geometry (runTask t s) = geometry s.
Proof.
  destruct t; cbn [runTask]; try apply geometry_hide; animator_frame.
Qed.

Lemma geometry_cleanup s : geometry (cleanup s) = geometry s.
Proof. unfold cleanup. cbn. now destruct (autoHideTimeout s). Qed.

Lemma sized_geometry v ww s s' :
  geometry s' = geometry s -> sized v ww s -> sized v ww s'.
Proof.
  unfold geometry, sized, configured. intros H.
  injection H as -> -> _ -> ->. auto.
Qed.

Lemma sized_layout v ww a b s :
  sized v ww s -> sized v ww (onContentLayout a b s).
Proof.
  intros (Hv & Hw & (id & Hc) & Hs).
  pose proof (resolved_profile_bounds id (ownClass (variant s))) as Hb.
  cbv zeta in Hb. rewrite <- Hc in Hb.
  destruct Hb as (_ & _ & _ & _ & Hmax & Hmin & _).
  assert (Hkeep : sized v ww s)
    by exact (conj Hv (conj Hw (conj (ex_intro _ id Hc) Hs))).
  unfold onContentLayout. rewrite Hv. subst v.
  destruct (variant s) eqn:Hvar; cbn [ownClass] in *.
  - unfold island_onContentLayout.
    destruct (isMounted s); cbn [negb]; [| exact Hkeep].
    inst_simpl.
    destruct (measuredOnce s); cbn [negb]; unfold sized, configured;
      inst_simpl; rewrite Hvar; cbn [ownClass];
      (split; [reflexivity |]); (split; [exact Hw |]);
      (split; [exists id; exact Hc |]);
      (split; [| eapply Qle_trans; [exact Hmin | apply Q.le_max_r]]).
    + unfold dynamicIslandMaxWidth. apply Q.le_min_l.
    + eapply Qle_trans; [apply Q.le_min_r |].
      unfold dynamicIslandMaxWidth. apply Q.le_min_l.
  - unfold notch_onContentLayout.
    destruct (isMounted s); cbn [negb]; [| exact Hkeep].
    assert (Heh : expandedHeight (deviceConfig s) = 80 # 1)
      by (rewrite Hc; apply notch_profile_height).
    inst_simpl.
    destruct (measuredOnce s); cbn [negb]; unfold sized, configured;
      inst_simpl; rewrite Hvar; cbn [ownClass];
      (split; [reflexivity |]); (split; [exact Hw |]);
      (split; [exists id; exact Hc |]);
      rewrite Heh; apply Q.le_max_r.
  - unfold toast_onContentLayout.
    destruct (negb (isMounted s) || measuredOnce s); [exact Hkeep |].
    unfold sized, configured. inst_simpl. rewrite Hvar. cbn [ownClass].
    split; [reflexivity |]. split; [exact Hw |].
    split; [exists id; exact Hc | exact I].
Qed.

Lemma sized_config v ww id s :
  sized v ww s -> sized v ww (loadDeviceConfig id s).
Proof.
  intros (Hv & Hw & Hc & Hs). unfold loadDeviceConfig.
  destruct (isMounted s); [| repeat split; assumption].
  split; [exact Hv |]. split; [exact Hw |]. split; [| exact Hs].
  exists (if truthy_string id then id else None).
  cbn [deviceConfig set_deviceConfig variant]. now destruct (variant s).
Qed.

Lemma sized_mount v p o ww wh : sized v ww (mount v p o ww wh).
Proof.
  destruct (mount_geometry v p o ww wh) as (Hv & Hw & _ & Hc & Hs).
  split; [exact Hv |]. split; [exact Hw |].
  split; [exists None; now rewrite Hv |].
  rewrite Hs. destruct v; cbn [contentSize firstRender w h].
  - split; vm_compute; discriminate.
  - vm_compute; discriminate.
  - exact I.
Qed.

Lemma sized_run v ww evs s : sized v ww s -> sized v ww (run evs s).
Proof.
  apply run_inv.
  - intros x n l. now apply sized_geometry.
  - intros t x. apply sized_geometry, geometry_task.
  - intros x a b. now apply sized_layout.
  - intros x a. apply sized_geometry. unfold onNotificationLayout.
    destruct (variant x); try reflexivity; now destruct (Qeq_bool _ _).
  - intros x. apply sized_geometry, geometry_hide.
  - intros x. apply sized_geometry, geometry_cleanup.
  - intros x id. now apply sized_config.
Qed.









Lemma initialHeight_bound id ty :
  (initialHeight (getDeviceAnimationConfig id ty) <= 38 # 1)%Q.
Proof.
  rewrite getDeviceAnimationConfig_refines. unfold Spec.resolveProfile.
  set (t := match ty with Some c => c | None => detectDeviceType id end).
  clearbody t.
  destruct id as [id |].
  - destruct (Spec.exactOverride Spec.overrideTable id) as [o |] eqn:Ho.
    + apply exactOverride_values in Ho.
      destruct Ho as [-> | [-> | ->]]; destruct t; vm_compute; discriminate.
    + destruct t; vm_compute; discriminate.
  - destruct t; vm_compute; discriminate.
Qed.

Lemma windowHeight_run evs s : windowHeight (run evs s) = windowHeight s.
Proof.
  apply (run_inv (fun x => windowHeight x = windowHeight s)); try reflexivity.
  - intros x n l H. exact H.
  - intros t x H. rewrite <- H.
    pose proof (geometry_task t x) as G. unfold geometry in G. now injection G.
  - intros x a b H. rewrite <- H.
    unfold onContentLayout, island_onContentLayout, notch_onContentLayout,
      toast_onContentLayout.
    destruct (variant x), (isMounted x); cbn [negb orb]; try reflexivity;
      inst_simpl; destruct (measuredOnce x); reflexivity.
  - intros x a H. rewrite <- H. unfold onNotificationLayout.
    destruct (variant x); try reflexivity; now destruct (Qeq_bool _ _).
  - intros x H. rewrite <- H.
    pose proof (geometry_hide x) as G. unfold geometry in G. now injection G.
  - intros x H. rewrite <- H.
    pose proof (geometry_cleanup x) as G. unfold geometry in G. now injection G.
  - intros x id H. rewrite <- H. unfold loadDeviceConfig.
    now destruct (isMounted x).
Qed.

(** X4.  On a screen of non-negative size, in every state of an island or
    notch instance, the collapsed footprint is well formed: its width is
    non-negative and at most the maximum width of the expanded
    notification, its height is non-negative and at most the committed
    height target, and the collapsed notch starts at a non-negative left
    offset. *)
Theorem collapsed_footprint_within_bounds :
  forall p o ww wh evs,
    (0 <= ww)%Q -> (0 <= wh)%Q ->
    (let s := run evs (mount DYNAMIC_ISLAND p o ww wh) in
     (0 <= dynamicIslandMinWidth s)%Q /\
     (dynamicIslandMinWidth s <= dynamicIslandMaxWidth s)%Q /\
     (0 <= island_minHeight s)%Q /\
     (island_minHeight s <= h (contentSize s))%Q) /\
    (let s := run evs (mount NOTCH p o ww wh) in
     (0 <= notchMinWidth s)%Q /\
     (notchMinWidth s <= notchMaxWidth s)%Q /\
     (0 <= notchPositionLeft s)%Q /\
     (0 <= notch_minHeight s)%Q /\
     (notch_minHeight s <= h (contentSize s))%Q).
Proof.
  intros p o ww wh evs Hww Hwh.
  split; intros s.
  - destruct (sized_run _ ww evs _ (sized_mount DYNAMIC_ISLAND p o ww wh))
      as (Hv & Hw & (id & Hc) & _ & Hh).
    fold s in Hv, Hw, Hc, Hh.
    pose proof (resolved_profile_bounds id (ownClass (variant s))) as Hb.
    pose proof (initialHeight_bound id (ownClass (variant s))) as Hi.
    cbv zeta in Hb. rewrite <- Hc in Hb, Hi.
    destruct Hb as (Hlo & _ & Hlt & _ & _ & _ & _ & Hi0 & _).
    assert (Hwh' : windowHeight s = wh).
    { unfold s. rewrite windowHeight_run.
      now destruct (mount_geometry DYNAMIC_ISLAND p o ww wh) as (_ & _ & ? & _). }
    unfold dynamicIslandMinWidth, dynamicIslandMaxWidth, island_minHeight,
      BASE_DYNAMIC_ISLAND_MIN_WIDTH, BASE_DYNAMIC_ISLAND_MAX_WIDTH.
    rewrite Hw, Hwh'.
    repeat split.
    + apply Q.min_glb; [vm_compute; discriminate |].
      apply mul_nonneg; [exact Hww | apply round_nonneg; lra].
    + apply Q.min_le_compat; [vm_compute; discriminate |].
      apply mul_mono_r; [exact Hww | apply round_mono; lra].
    + apply Q.min_glb; [exact Hi0 |].
      apply mul_nonneg; [exact Hwh | vm_compute; discriminate].
    + eapply Qle_trans; [apply Q.le_min_l |].
      eapply Qle_trans; [exact Hi |].
      eapply Qle_trans; [| exact Hh]. vm_compute; discriminate.
  - destruct (sized_run _ ww evs _ (sized_mount NOTCH p o ww wh))
      as (Hv & Hw & (id & Hc) & Hh).
    fold s in Hv, Hw, Hc, Hh.
    pose proof (resolved_profile_bounds id (ownClass (variant s))) as Hb.
    pose proof (initialHeight_bound id (ownClass (variant s))) as Hi.
    cbv zeta in Hb. rewrite <- Hc in Hb, Hi.
    destruct Hb as (Hlo & Hhi & Hlt & _ & _ & _ & _ & Hi0 & _).
    assert (Hwh' : windowHeight s = wh).
    { unfold s. rewrite windowHeight_run.
      now destruct (mount_geometry NOTCH p o ww wh) as (_ & _ & ? & _). }
    set (m := Double.mul ww (Double.round (minWidthRatio (deviceConfig s)))).
    assert (Hm : (notchMinWidth s <= m)%Q)
      by (unfold notchMinWidth; rewrite Hw; apply Q.le_min_r).
    assert (Hm0 : (0 <= m)%Q)
      by (apply mul_nonneg; [exact Hww | apply round_nonneg; lra]).
    assert (Hmw : (m <= ww)%Q)
      by (apply mul_half_le; [exact Hww | lra | exact Hhi]).
    assert (Hn0 : (0 <= notchMinWidth s)%Q).
    { unfold notchMinWidth, NOTCH_WIDTH. rewrite Hw.
      apply Q.min_glb; [vm_compute; discriminate | exact Hm0]. }
    unfold notchPositionLeft, notchMaxWidth, notch_minHeight. rewrite Hw, Hwh'.
    repeat split.
    + exact Hn0.
    + apply Q.min_glb; (eapply Qle_trans; [exact Hm |]);
        (apply mul_mono_r; [exact Hww | apply round_mono; lra]).
    + apply half_nonneg, sub_nonneg. lra.
    + apply Q.min_glb; [exact Hi0 |].
      apply mul_nonneg; [exact Hwh | vm_compute; discriminate].
    + eapply Qle_trans; [apply Q.le_min_l |].
      eapply Qle_trans; [exact Hi |].
      eapply Qle_trans; [| exact Hh]. vm_compute; discriminate.
Qed.

Lemma collapsed_footprint_within_bounds_witness :
  let s := run [DeviceConfigLoaded (Some "iPhone14,8"); Layout (500 # 1) (10 # 1)]
               (mount NOTCH Samples.persistentProps ios (390 # 1) (844 # 1)) in
  (notchMinWidth s <= notchMaxWidth s)%Q /\ (0 <= notchPositionLeft s)%Q.
Proof.
  destruct (collapsed_footprint_within_bounds Samples.persistentProps ios
              (390 # 1) (844 # 1)
              [DeviceConfigLoaded (Some "iPhone14,8"); Layout (500 # 1) (10 # 1)])
    as (_ & H).
  - vm_compute. discriminate.
  - vm_compute. discriminate.
  - cbv zeta in H. destruct H as (_ & H1 & H2 & _). split; assumption.
Defined.

(** ** Variant animators: the timer queue *)

Lemma now_hide s : now (hideNotification s) = now s.
Proof. animator_frame. Qed.

Lemma now_task t s : now (runTask t s) = now s.
Proof. destruct t; cbn [runTask]; try apply now_hide; animator_frame. Qed.

Lemma now_runTimers l s : now (runTimers l s) = now s.
Proof.
  revert s. induction l as [| t l IH]; intros s; simpl; [reflexivity |].
  now rewrite IH, now_task.
Qed.

Lemma now_tick s : now (tick s) = S (now s).
Proof. unfold tick. now rewrite now_runTimers. Qed.

Lemma now_advance n s : now (advance n s) = now s + n.
Proof.
  revert s. induction n as [| k IH]; intros s; simpl; [lia |].
  rewrite IH, now_tick. lia.
Qed.

Lemma advance_add n m s : advance (n + m) s = advance m (advance n s).
Proof.
  revert s. induction n as [| k IH]; intros s; simpl; [reflexivity |].
  apply IH.
Qed.

(** A callback never removes a timer from the queue; only the end of a
    slide-up can be replaced. *)
Lemma cancel_keeps n t l :
  isSlideUp t = false -> In t l -> In t (List.map (cancelTimer n) l).
Proof.
  intros Ht H. apply in_map_iff. exists t. split; [| exact H].
  unfold cancelTimer. now rewrite Ht.
Qed.

Lemma timers_hide t s :
  isSlideUp t = false ->
  In t (timers s) -> In t (timers (hideNotification s)).
Proof.
  intros Ht H. animator_open. animator_cases; inst_red;
    repeat (apply in_or_app; left);
    first [exact H | now apply cancel_keeps].
Qed.

Lemma timers_task u t s :
  isSlideUp t = false ->
  In t (timers s) -> In t (timers (runTask u s)).
Proof.
  intros Ht H. destruct u; cbn [runTask]; try (now apply timers_hide);
    animator_open; animator_cases; inst_red;
    repeat (apply in_or_app; left);
    first [exact H | now apply cancel_keeps].
Qed.

Lemma timers_runTimers l t s :
  isSlideUp t = false ->
  In t (timers s) -> In t (timers (runTimers l s)).
Proof.
  intros Ht. revert s. induction l as [| u l IH]; intros s H; simpl;
    [exact H |].
  now apply IH, timers_task.
Qed.

(** A timer that is not yet due is still queued after the tick. *)
Lemma tick_keeps t s :
  isSlideUp t = false ->
  In t (timers s) -> S (now s) < due t -> In t (timers (tick s)).
Proof.
  intros Ht Hin Hlt. unfold tick. apply timers_runTimers; [exact Ht |].
  inst_simpl. apply filter_In. split; [exact Hin |].
  unfold isDue. apply negb_true_iff, Nat.leb_gt. exact Hlt.
Qed.

Lemma advance_keeps t n s :
  isSlideUp t = false ->
  In t (timers s) -> now s + n < due t -> In t (timers (advance n s)).
Proof.
  intros Ht. revert s. induction n as [| k IH]; intros s Hin Hlt; simpl;
    [exact Hin |].
  apply IH; [apply tick_keeps; [exact Ht | exact Hin | lia] |
             rewrite now_tick; lia].
Qed.

(** The tick at which a queued timer is due runs its callback, between
    the callbacks of the timers queued before and after it. *)
Lemma tick_split t s :
  In t (timers s) -> due t <= S (now s) ->
  exists pre post,
    tick s
    = runTimers post
        (runTask (task t)
           (runTimers pre
              (set_timers
                 (List.filter (fun u => negb (isDue (S (now s)) u)) (timers s))
                 (set_now (S (now s)) s)))).
Proof.
  intros Hin Hdue.
  assert (Hr : In t (List.filter (isDue (S (now s))) (timers s))).
  { apply filter_In. split; [exact Hin |]. unfold isDue. now apply Nat.leb_le. }
  apply in_split in Hr. destruct Hr as (pre & post & Hr).
  exists pre, post. unfold tick. rewrite Hr, runTimers_app. reflexivity.
Qed.

(** A property that the callbacks preserve holds again once a queued
    timer has fired, if its own callback establishes it. *)
Section Fires.
Variable I : Inst -> Prop.
Variable Q : Inst -> Prop.
Hypothesis I_sched : forall s n l, I s -> I (set_timers l (set_now n s)).
Hypothesis I_task : forall t s, I s -> I (runTask t s).
Hypothesis Q_task : forall t s, Q s -> Q (runTask t s).

Lemma runTimers_keeps_Q l s : Q s -> Q (runTimers l s).
Proof.
  revert s. induction l as [| u l IH]; intros s H; simpl; [exact H |].
  apply IH, Q_task, H.
Qed.

Lemma tick_fires t s :
  In t (timers s) -> due t = S (now s) -> I s ->
  (forall x, I x -> now x = due t -> Q (runTask (task t) x)) ->
  Q (tick s).
Proof.
  intros Hin Hdue HI Hrun.
  destruct (tick_split t s Hin) as (pre & post & ->); [lia |].
  apply runTimers_keeps_Q, Hrun.
  - apply runTimers_inv; [exact I_task |]. apply I_sched, HI.
  - rewrite now_runTimers. inst_simpl. now rewrite Hdue.
Qed.

Lemma advance_fires t k s :
  isSlideUp t = false ->
  In t (timers s) -> due t = now s + S k -> I s ->
  (forall x, I x -> now x = due t -> Q (runTask (task t) x)) ->
  Q (advance (S k) s) /\ I (advance (S k) s) /\
  now (advance (S k) s) = now s + S k.
Proof.
  intros Ht Hin Hdue HI Hrun. rewrite advance_S.
  split; [| split].
  - apply (tick_fires t).
    + apply advance_keeps; [exact Ht | exact Hin | lia].
    + rewrite now_advance. lia.
    + apply advance_inv; assumption.
    + exact Hrun.
  - apply tick_inv; try assumption. apply advance_inv; assumption.
  - rewrite now_tick, now_advance. lia.
Qed.
End Fires.

(** ** Variant animators: a hide chain runs to [onHide] *)

Lemma trace_hide e s : In e (trace s) -> In e (trace (hideNotification s)).
Proof.
  intros H. animator_open. animator_cases; inst_red;
    repeat (apply in_or_app; left); exact H.
Qed.

Lemma trace_task u e s : In e (trace s) -> In e (trace (runTask u s)).
Proof.
  intros H. destruct u; cbn [runTask]; try (now apply trace_hide);
    animator_open; animator_cases; inst_red;
    try assumption; repeat (apply in_or_app; left); exact H.
Qed.

Lemma trace_advance n e s : In e (trace s) -> In e (trace (advance n s)).
Proof.
  apply (advance_inv (fun x => In e (trace x))).
  - intros x m l H. exact H.
  - intros t x H. now apply trace_task.
Qed.

Lemma isMounted_advance n s : isMounted (advance n s) = isMounted s.
Proof.
  apply (advance_inv (fun x => isMounted x = isMounted s)); try reflexivity.
  - intros x m l H. exact H.
  - intros t x H. now rewrite isMounted_task.
Qed.

(** From the first timeout of [hideNotification] to [onHide], on an
    island or a notch that stays mounted. *)
Lemma pill_chain s id c0 :
  isMounted s = true -> c0 <= onHideCount s ->
  In (mkTimer id (now s + 175) Collapse) (timers s) ->
  In (now s + 475, EWrite CompletelyHidden) (trace (advance 525 s)) /\
  In (now s + 525, EOnHide) (trace (advance 525 s)) /\
  c0 < onHideCount (advance 525 s).
Proof.
  intros Hm Hc Hin.
  set (I0 := fun x : Inst => isMounted x = true /\ c0 <= onHideCount x).
  assert (I0_sched : forall x n l, I0 x -> I0 (set_timers l (set_now n x)))
    by (intros x n l H; exact H).
  assert (I0_task : forall t x, I0 x -> I0 (runTask t x)).
  { intros t x (H1 & H2). split; [now rewrite isMounted_task |].
    pose proof (onHideCount_task t x). lia. }
  (* the collapse, 175 ms after the trigger *)
  destruct (advance_fires I0
              (fun x => exists i, In (mkTimer i (now s + 475) FinalShrink) (timers x))
              I0_sched I0_task
              ltac:(intros t x (i & H); exists i;
                    apply timers_task; [reflexivity | exact H])
              (mkTimer id (now s + 175) Collapse) 174 s eq_refl Hin
              ltac:(cbn [due]; lia) (conj Hm Hc))
    as ((i1 & H1) & HI1 & Hn1).
  { intros x _ Hx. cbn [due task runTask] in *.
    exists (nextTimerId x). unfold setTimeout_, setTimeout. inst_simpl.
    cbn [snd]. inst_simpl. apply in_or_app. right. left.
    f_equal. rewrite Hx.
    change (Nat.max 1 (ANIMATION_DURATION - 50)) with 300. lia. }
  remember (advance 175 s) as s1 eqn:Es1.
  (* the final shrink, 300 ms later *)
  destruct (advance_fires I0
              (fun x => (exists i, In (mkTimer i (now s + 525) CallOnHide) (timers x)) /\
                        In (now s + 475, EWrite CompletelyHidden) (trace x))
              I0_sched I0_task
              ltac:(intros t x ((i & H) & H'); split;
                    [exists i; apply timers_task; [reflexivity | exact H]
                    | now apply trace_task])
              (mkTimer i1 (now s + 475) FinalShrink) 299 s1 eq_refl H1
              ltac:(cbn [due]; lia) HI1)
    as (((i2 & H2) & Hw) & HI2 & Hn2).
  { intros x (Hxm & _) Hx. cbn [due task runTask] in *. rewrite Hxm.
    unfold setTimeout_, setTimeout. inst_simpl. cbn [snd]. inst_simpl.
    split.
    - exists (nextTimerId x). apply in_or_app. right. left.
      f_equal. rewrite Hx. change (Nat.max 1 50) with 50. lia.
    - apply in_or_app. right. left. now rewrite Hx. }
  remember (advance 300 s1) as s2 eqn:Es2.
  (* the call of onHide, 50 ms later *)
  set (I1 := fun x : Inst =>
               I0 x /\ In (now s + 475, EWrite CompletelyHidden) (trace x)).
  destruct (advance_fires I1
              (fun x => In (now s + 525, EOnHide) (trace x) /\ c0 < onHideCount x)
              ltac:(intros x n l H; exact H)
              ltac:(intros t x (H & H'); split;
                    [now apply I0_task | now apply trace_task])
              ltac:(intros t x (H & H'); split; [now apply trace_task |];
                    pose proof (onHideCount_task t x); lia)
              (mkTimer i2 (now s + 525) CallOnHide) 49 s2 eq_refl H2
              ltac:(cbn [due]; lia) (conj HI2 Hw))
    as ((He & Hlt) & (_ & Hw') & _).
  { intros x ((_ & Hxc) & _) Hx. cbn [due task runTask] in *.
    split.
    - unfold emit. inst_simpl. apply in_or_app. right. left. now rewrite Hx.
    - revert Hxc. count_simpl. lia. }
  assert (Heq : advance 525 s = advance 50 s2).
  { rewrite Es2, Es1.
    exact (eq_trans (advance_add 175 350 s) (advance_add 300 50 (advance 175 s))). }
  rewrite Heq. split; [exact Hw' | split; [exact He | exact Hlt]].
Qed.

Lemma pill_hide_enters_chain s :
  variant s <> STANDARD ->
  isMounted (hideNotification s) = isMounted s /\
  now (hideNotification s) = now s /\
  onHideCount (hideNotification s) = onHideCount s /\
  In (mkTimer (nextTimerId s) (now s + 175) Collapse)
     (timers (hideNotification s)).
Proof.
  intros Hv.
  split; [apply isMounted_hide | split; [apply now_hide |]].
  unfold hideNotification, pill_hideNotification.
  destruct (variant s); try (now contradiction Hv);
    (split; [count_simpl; lia |]);
    unfold setTimeout_, setTimeout; inst_red;
    apply in_or_app; right; left; reflexivity.
Qed.

(** X5.  A hide trigger on a mounted island or notch that is not unmounted in
    the meantime forces the notification to zero size 475 ms later and
    invokes [onHide] 525 ms after the trigger. *)
Theorem pill_hide_reaches_onHide :
  forall s,
    variant s <> STANDARD -> isMounted s = true ->
    let s' := advance 525 (hideNotification s) in
    In (now s + 475, EWrite CompletelyHidden) (trace s') /\
    In (now s + 525, EOnHide) (trace s') /\
    onHideCount s < onHideCount s'.
Proof.
  intros s Hv Hm s'.
  destruct (pill_hide_enters_chain s Hv) as (Hm' & Hn & Hc & Hin).
  assert (Hin' : In (mkTimer (nextTimerId s) (now (hideNotification s) + 175) Collapse)
                    (timers (hideNotification s))).
  { rewrite Hn. exact Hin. }
  destruct (pill_chain (hideNotification s) (nextTimerId s) (onHideCount s))
    as (H1 & H2 & H3); try assumption.
  - now rewrite Hm'.
  - now rewrite Hc.
  - rewrite Hn in H1, H2. split; [exact H1 | split; [exact H2 | exact H3]].
Qed.

Lemma pill_hide_reaches_onHide_witness :
  let s := mount NOTCH Samples.persistentProps ios (390 # 1) (844 # 1) in
  In (525, EOnHide) (trace (advance 525 (hideNotification s))).
Proof.
  cbv zeta.
  destruct (pill_hide_reaches_onHide
              (mount NOTCH Samples.persistentProps ios (390 # 1) (844 # 1)))
    as (_ & H & _).
  - discriminate.
  - reflexivity.
  - exact H.
Defined.

(** ** The toast: from a hide trigger to [onHide] *)

(** Running callbacks that all satisfy [ok] preserves what each of them
    preserves. *)
Lemma runTimers_ok (P : Inst -> Prop) (ok : Timer -> Prop) l s :
  (forall t x, ok t -> P x -> P (runTask (task t) x)) ->
  Forall ok l -> P s -> P (runTimers l s).
Proof.
  intros Hok Hl. revert s. induction Hl as [| t l Ht _ IH]; intros s H; simpl.
  - exact H.
  - apply IH, Hok; assumption.
Qed.

Lemma onHideCount_advance n x : onHideCount x <= onHideCount (advance n x).
Proof. exact (onHideCount_run [Wait n] x). Qed.


Lemma slideUpEnd_sliding d s : slidingUp d s -> slideUpEnd s = Some d.
Proof.
  intros (_ & _ & (i & Hin) & Hall). unfold slideUpEnd.
  destruct (List.find isSlideUp (timers s)) as [t |] eqn:E.
  - apply List.find_some in E. destruct E as (Ht & Hs).
    rewrite List.Forall_forall in Hall. now rewrite (Hall t Ht Hs).
  - pose proof (List.find_none _ _ E _ Hin) as H. discriminate.
Qed.

Lemma cancel_noAppear n l :
  forallb (fun t => negb (isAppear t)) l = true ->
  forallb (fun t => negb (isAppear t)) (List.map (cancelTimer n) l) = true.
Proof.
  induction l as [| t l IH]; simpl; [reflexivity |].
  intros H. apply andb_true_iff in H. destruct H as (H1 & H2).
  rewrite (IH H2), andb_true_r. unfold cancelTimer.
  destruct (isSlideUp t); [reflexivity | exact H1].
Qed.

Lemma cancel_slideUp_free n d l :
  Forall (fun t => isSlideUp t = true -> due t = d)
         (List.map (cancelTimer n) l).
Proof.
  apply List.Forall_forall. intros t Ht.
  apply in_map_iff in Ht. destruct Ht as (u & <- & _).
  unfold cancelTimer. destruct (isSlideUp u) eqn:E; [discriminate |].
  intros H. congruence.
Qed.

(** The callback of the slide-up on a mounted toast. *)
Lemma slideUpCallback_mounted x :
  isMounted x = true ->
  slideUpCallback x = emit EOnHide (set_completelyHidden 1 x).
Proof. intros H. unfold slideUpCallback. rewrite H. reflexivity. Qed.

(** The two branches of the toast's [hideNotification]. *)
Lemma toast_hide_zero_eq s :
  variant s = STANDARD -> isMounted s = true -> slideDownIsZero s = true ->
  hideNotification s
  = emit EOnHide
      (set_completelyHidden 1
         (set_slideMoving None
            (set_slideDown 0
               (cancelSlideUp
                  (set_scale (9 # 10) (set_opacity 0 (emit EHide s))))))).
Proof.
  intros Hv Hm Hz. unfold hideNotification. rewrite Hv.
  unfold toast_hideNotification. cbv zeta.
  change (slideDownIsZero (set_scale (9 # 10) (set_opacity 0 (emit EHide s))))
    with (slideDownIsZero s).
  rewrite Hz. apply slideUpCallback_mounted. exact Hm.
Qed.

Lemma toast_hide_moving_eq s :
  variant s = STANDARD -> slideDownIsZero s = false ->
  hideNotification s
  = setTimeout_ SlideUpDone
      (match slideUpEnd s with
       | Some e => e - now s
       | None => ANIMATION_DURATION
       end)
      (set_slideDown 0
         (cancelSlideUp (set_scale (9 # 10) (set_opacity 0 (emit EHide s))))).
Proof.
  intros Hv Hz. unfold hideNotification. rewrite Hv.
  unfold toast_hideNotification. cbv zeta.
  change (slideDownIsZero (set_scale (9 # 10) (set_opacity 0 (emit EHide s))))
    with (slideDownIsZero s).
  rewrite Hz. reflexivity.
Qed.

Lemma toast_hide_moving s :
  variant s = STANDARD -> slideDownIsZero s = false ->
  variant (hideNotification s) = variant s /\
  isMounted (hideNotification s) = isMounted s /\
  slideMoving (hideNotification s) = slideMoving s /\
  now (hideNotification s) = now s /\
  timers (hideNotification s)
  = List.map (cancelTimer (now s)) (timers s)
    ++ [mkTimer (nextTimerId s)
          (now s + Nat.max 1 (match slideUpEnd s with
                              | Some e => e - now s
                              | None => ANIMATION_DURATION
                              end))
          SlideUpDone].
Proof.
  intros Hv Hz. rewrite (toast_hide_moving_eq s Hv Hz).
  repeat split; reflexivity.
Qed.

(** A hide trigger while [slideDown] is 0: [withTiming] runs the callback
    at once. *)
Lemma toast_hide_at_zero s :
  variant s = STANDARD -> isMounted s = true -> slideDownIsZero s = true ->
  trace (hideNotification s)
  = trace s ++ [(now s, EHide); (now s, EWrite Opacity);
                (now s, EWrite Scale); (now s, EWrite SlideDown);
                (now s, EWrite CompletelyHidden); (now s, EOnHide)].
Proof.
  intros Hv Hm Hz. rewrite (toast_hide_zero_eq s Hv Hm Hz).
  unfold cancelSlideUp. inst_red. rewrite <- !app_assoc. reflexivity.
Qed.

(** A hide trigger on the toast once it has appeared: the slide-up ends
    350 ms later, or when the slide-up under way would have ended; the
    callback of the slide-up under way is called at the next frame. *)
Lemma toast_hide_slides s :
  shown s ->
  slidingUp (now s + Nat.max 1 (match slideUpEnd s with
                                | Some e => e - now s
                                | None => ANIMATION_DURATION
                                end))
            (hideNotification s) /\
  (forall i e, In (mkTimer i e SlideUpDone) (timers s) ->
     In (mkTimer i (now s + 1) SlideUpCancelled)
        (timers (hideNotification s))).
Proof.
  intros (Hv & Hm & Hz & Ha).
  destruct (toast_hide_moving s Hv Hz) as (E1 & E2 & E3 & E4 & E5).
  remember (hideNotification s) as y eqn:Ey. clear Ey.
  remember (match slideUpEnd s with
            | Some e => e - now s
            | None => ANIMATION_DURATION
            end) as k eqn:Ek. clear Ek.
  unfold slidingUp, shown, slideDownIsZero in *.
  rewrite E1, E2, E3, E4, E5.
  repeat split.
  - exact Hv.
  - exact Hm.
  - exact Hz.
  - rewrite forallb_app, cancel_noAppear by exact Ha. reflexivity.
  - lia.
  - exists (nextTimerId s). apply in_or_app. right. left. reflexivity.
  - apply Forall_app. split; [apply cancel_slideUp_free |].
    constructor; [reflexivity | constructor].
  - intros i e Hin. apply in_or_app. left.
    apply in_map_iff. exists (mkTimer i e SlideUpDone). split; [| exact Hin].
    reflexivity.
Qed.

(** What a callback may change while the toast slides up. *)
Lemma slidingUp_ext d x y :
  variant y = variant x -> isMounted y = isMounted x ->
  slideMoving y = slideMoving x -> now y = now x ->
  (timers y = timers x \/
   exists t, timers y = timers x ++ [t] /\
             isAppear t = false /\ isSlideUp t = false) ->
  slidingUp d x -> slidingUp d y.
Proof.
  intros Hv Hm Hs Hn Ht ((Xv & Xm & Xz & Xa) & Hlt & (i & Hin) & Hall).
  unfold slidingUp, shown, slideDownIsZero in *. rewrite Hv, Hm, Hs, Hn.
  destruct Ht as [-> | (t & -> & Ha & Hu)].
  - repeat split; try assumption. now exists i.
  - repeat split; try assumption.
    + rewrite forallb_app, Xa. simpl. now rewrite Ha.
    + exists i. apply in_or_app. now left.
    + apply Forall_app. split; [exact Hall |].
      constructor; [| constructor]. intros H. congruence.
Qed.

Lemma slidingUp_task d u x :
  u <> ToastAppear -> u <> SlideUpDone ->
  slidingUp d x -> slidingUp d (runTask u x).
Proof.
  intros Ha Hu H.
  assert (Hm : isMounted x = true) by (destruct H as ((_ & Hm & _) & _); exact Hm).
  destruct u; try (now contradiction Ha); try (now contradiction Hu);
    cbn [runTask]; rewrite ?(slideUpCallback_mounted x Hm), ?Hm; cbn [negb].
  - apply (slidingUp_ext d x); try reflexivity; [now left | exact H].
  - destruct (toast_hide_slides x) as (Hs & _); [apply H |].
    rewrite (slideUpEnd_sliding d x H) in Hs.
    replace (now x + Nat.max 1 (d - now x)) with d in Hs; [exact Hs |].
    destruct H as (_ & Hlt & _). lia.
  - apply (slidingUp_ext d x); try reflexivity; [| exact H].
    right. eexists. split; [reflexivity | split; reflexivity].
  - apply (slidingUp_ext d x); try reflexivity; [| exact H].
    right. eexists. split; [reflexivity | split; reflexivity].
  - apply (slidingUp_ext d x); try reflexivity; [now left | exact H].
  - apply (slidingUp_ext d x); try reflexivity; [now left | exact H].
Qed.

Lemma slidingUp_tick d s :
  slidingUp d s -> S (now s) < d -> slidingUp d (tick s).
Proof.
  intros H Hlt. unfold tick.
  apply (runTimers_ok (slidingUp d)
           (fun t => task t <> ToastAppear /\ task t <> SlideUpDone)).
  - intros t x (H1 & H2). now apply slidingUp_task.
  - destruct H as ((_ & _ & _ & Ha) & _ & _ & Hall).
    apply List.Forall_forall. intros t Ht.
    apply filter_In in Ht. destruct Ht as (Hin & Hdue).
    unfold isDue in Hdue. apply Nat.leb_le in Hdue.
    rewrite forallb_forall in Ha. specialize (Ha t Hin).
    rewrite List.Forall_forall in Hall. specialize (Hall t Hin).
    unfold isAppear, isSlideUp in *.
    split; intros E; rewrite E in *; [discriminate |].
    specialize (Hall eq_refl). lia.
  - destruct H as ((Hv & Hm & Hz & Ha) & _ & (i & Hin) & Hall).
    unfold slidingUp, shown, slideDownIsZero in *. inst_red.
    repeat split; try assumption.
    + destruct (slideMoving s) as [t |]; [| discriminate].
      apply Nat.leb_gt in Hz. apply Nat.leb_gt. lia.
    + rewrite forallb_forall in *. intros t Ht.
      apply filter_In in Ht. now apply Ha.
    + exists i. apply filter_In. split; [exact Hin |].
      unfold isDue. cbn [due]. apply negb_true_iff, Nat.leb_gt. exact Hlt.
    + rewrite List.Forall_forall in *. intros t Ht.
      apply filter_In in Ht. now apply Hall.
Qed.

Lemma slidingUp_advance d k s :
  slidingUp d s -> now s + k < d -> slidingUp d (advance k s).
Proof.
  revert s. induction k as [| k IH]; intros s H Hlt; simpl; [exact H |].
  apply IH; [apply slidingUp_tick; [exact H | lia] | rewrite now_tick; lia].
Qed.

(** The tick at which the slide-up ends runs its callback. *)
Lemma slidingUp_done d s :
  slidingUp d s -> S (now s) = d ->
  In (d, EWrite CompletelyHidden) (trace (tick s)) /\
  In (d, EOnHide) (trace (tick s)) /\
  onHideCount s < onHideCount (tick s).
Proof.
  intros ((_ & Hm & _) & _ & (i & Hin) & _) Hd.
  apply (tick_fires
           (fun x => isMounted x = true /\ onHideCount s <= onHideCount x)
           (fun x => In (d, EWrite CompletelyHidden) (trace x) /\
                     In (d, EOnHide) (trace x) /\
                     onHideCount s < onHideCount x))
    with (t := mkTimer i d SlideUpDone).
  - intros x n l H. exact H.
  - intros t x (H1 & H2). split; [now rewrite isMounted_task |].
    pose proof (onHideCount_task t x). lia.
  - intros t x (H1 & H2 & H3).
    split; [now apply trace_task | split; [now apply trace_task |]].
    pose proof (onHideCount_task t x). lia.
  - exact Hin.
  - cbn [due]. lia.
  - split; [exact Hm | lia].
  - intros x (Hx & Hc) Hn. cbn [due task runTask] in *.
    rewrite slideUpCallback_mounted by exact Hx.
    split; [| split].
    + inst_red. rewrite Hn. apply in_or_app. left.
      apply in_or_app. right. left. reflexivity.
    + inst_red. rewrite Hn. apply in_or_app. right. left. reflexivity.
    + revert Hc. count_simpl. lia.
Qed.

Lemma slidingUp_reaches d s :
  slidingUp d s ->
  let s' := advance (d - now s) s in
  In (d, EWrite CompletelyHidden) (trace s') /\
  In (d, EOnHide) (trace s') /\
  onHideCount s < onHideCount s'.
Proof.
  intros H. cbv zeta.
  assert (Hlt : now s < d) by (destruct H as (_ & Hlt & _); exact Hlt).
  replace (d - now s) with (S (d - now s - 1)) by lia.
  rewrite advance_S.
  pose proof (slidingUp_advance d (d - now s - 1) s H ltac:(lia)) as H'.
  destruct (slidingUp_done d _ H') as (H1 & H2 & H3).
  - rewrite now_advance. lia.
  - pose proof (onHideCount_advance (d - now s - 1) s).
    split; [exact H1 | split; [exact H2 | lia]].
Qed.



Lemma isMounted_mount v p o ww wh : isMounted (mount v p o ww wh) = true.
Proof.
  unfold mount, mountEffect. cbn [variant firstRender].
  destruct v; unfold island_mountEffect, notch_mountEffect, toast_mountEffect,
    armAutoHide, exposeClose, haptics, setTimeout_, setTimeout;
    repeat match goal with
           | |- context [if ?b then _ else _] => destruct b
           | |- context [match typeOf ?y with _ => _ end] => destruct (typeOf y)
           end; reflexivity.
Qed.


(** ** Variant animators: a notification that is left alone *)

(** The auto-hide timer of the island and of the notch, once due, starts
    the hide chain. *)
Lemma pill_autoHide_enters_chain v p o ww wh :
  v <> STANDARD ->
  truthy_bool (disableAutoHide p) = false ->
  let d := Nat.max 1 (Z.to_nat (effectiveAutoHideDelay (autoHideDelay p))) in
  let s1 := advance d (mount v p o ww wh) in
  isMounted s1 = true /\ now s1 = d /\
  exists i, In (mkTimer i (d + 175) Collapse) (timers s1).
Proof.
  intros Hv Hd. cbv zeta.
  destruct (mount_timers v p o ww wh Hd) as (_ & Hnow & _ & t1 & _ & Ht).
  pose proof (isMounted_mount v p o ww wh) as Hm0.
  pose proof (variant_mount v p o ww wh) as Hv0.
  remember (Nat.max 1 (Z.to_nat (effectiveAutoHideDelay (autoHideDelay p))))
    as d eqn:Ed.
  assert (Hpos : 1 <= d) by (rewrite Ed; apply Nat.le_max_l).
  remember (mount v p o ww wh) as s0 eqn:Es0.
  assert (Hin : In (mkTimer 2 d AutoHide) (timers s0))
    by (rewrite Ht; right; left; reflexivity).
  destruct (advance_fires
              (fun x => isMounted x = true /\ variant x = v)
              (fun x => exists i, In (mkTimer i (d + 175) Collapse) (timers x))
              ltac:(intros x n l H; exact H)
              ltac:(intros t x (H1 & H2); split;
                    [now rewrite isMounted_task | now rewrite variant_task])
              ltac:(intros t x (i & H); exists i;
                    apply timers_task; [reflexivity | exact H])
              (mkTimer 2 d AutoHide) (d - 1) s0 eq_refl Hin
              ltac:(cbn [due]; lia))
    as (Hq & (Hm & _) & Hn).
  - split; assumption.
  - intros x (_ & Hxv) Hx. cbn [due task runTask] in *.
    destruct (pill_hide_enters_chain x) as (_ & _ & _ & H);
      [now rewrite Hxv |].
    rewrite Hx in H. exists (nextTimerId x). exact H.
  - replace (S (d - 1)) with d in * by lia.
    split; [exact Hm | split; [lia | exact Hq]].
Qed.

(** The toast after its mount effect. *)
Lemma toastIdle_mount p o ww wh :
  truthy_bool (disableAutoHide p) = false ->
  now (mount STANDARD p o ww wh) = 0 /\
  toastIdle (Nat.max 1 (Z.to_nat (effectiveAutoHideDelay (autoHideDelay p))))
            (mount STANDARD p o ww wh).
Proof.
  destruct p as [m ty tc ss sc bc ch ad sCl dah eh].
  cbn [disableAutoHide autoHideDelay]. intros Hd.
  destruct dah as [[] |]; [discriminate | |];
    destruct sCl, eh as [[] |], ty as [[] |];
    repeat split; vm_compute; reflexivity.
Qed.

(** The appear timer of a mounted toast whose [slideDown] is 0. *)
Lemma toast_appear x :
  isMounted x = true -> slideMoving x = None ->
  variant (runTask ToastAppear x) = variant x /\
  isMounted (runTask ToastAppear x) = true /\
  now (runTask ToastAppear x) = now x /\
  slideMoving (runTask ToastAppear x) = Some (now x) /\
  timers (runTask ToastAppear x)
  = List.map (cancelTimer (now x)) (timers x).
Proof.
  intros Hm Hs.
  assert (E : runTask ToastAppear x
              = haptics
                  (set_scale 1
                     (set_opacity 1
                        (set_slideDown 1
                           (set_slideMoving (Some (now x))
                              (cancelSlideUp (set_completelyHidden 0 x))))))).
  { cbn [runTask]. rewrite Hm. cbn [negb]. cbv zeta. unfold startSlideDown.
    cbv zeta.
    change (slideMoving (cancelSlideUp (set_completelyHidden 0 x)))
      with (slideMoving x).
    rewrite Hs. reflexivity. }
  rewrite E. unfold haptics.
  destruct (enableHapticsOf _); [destruct (typeOf _) |];
    (split; [reflexivity | split; [exact Hm | repeat split; reflexivity]]).
Qed.

Lemma toastIdle_tick d x :
  toastIdle d x -> S (now x) < d -> toastIdle d (tick x).
Proof.
  intros (Hv & Hm & Hs & Ht) Hlt.
  assert (E2 : Nat.leb d (S (now x)) = false) by (apply Nat.leb_gt; lia).
  unfold tick. cbv zeta. rewrite Ht.
  destruct (Nat.ltb_spec (now x) 50) as [Hb | Hb].
  - cbn [List.filter]; unfold isDue; cbn [due]. rewrite E2.
    destruct (Nat.leb_spec 50 (S (now x))) as [Hc | Hc]; cbn [negb].
    + assert (En : S (now x) = 50) by lia. rewrite En.
      cbn [runTimers fold_left task].
      destruct (toast_appear (set_timers [mkTimer 2 d AutoHide] (set_now 50 x)))
        as (F1 & F2 & F3 & F4 & F5); [exact Hm | exact Hs |].
      unfold toastIdle. rewrite F1, F2, F3, F4, F5.
      repeat split. exact Hv.
    + cbn [runTimers fold_left].
      assert (Eb : Nat.ltb (S (now x)) 50 = true) by (apply Nat.ltb_lt; lia).
      unfold toastIdle. inst_red. rewrite Eb.
      repeat split; assumption.
  - cbn [List.filter]; unfold isDue; cbn [due]. rewrite E2. cbn [negb runTimers fold_left].
    assert (Eb : Nat.ltb (S (now x)) 50 = false) by (apply Nat.ltb_ge; lia).
    unfold toastIdle. inst_red. rewrite Eb.
    repeat split; assumption.
Qed.

Lemma toastIdle_advance d k x :
  toastIdle d x -> now x + k < d -> toastIdle d (advance k x).
Proof.
  revert x. induction k as [| k IH]; intros x H Hlt; simpl; [exact H |].
  apply IH; [apply toastIdle_tick; [exact H | lia] | rewrite now_tick; lia].
Qed.

(** The tick at which the auto-hide timer of an idle toast is due. *)
Lemma toastIdle_fires d x :
  toastIdle d x -> S (now x) = d ->
  In (autoHideAt STANDARD d, EOnHide)
     (trace (advance (S (autoHideAt STANDARD d - d)) x)).
Proof.
  intros (Hv & Hm & Hs & Ht) Hd.
  assert (E2 : Nat.leb d (S (now x)) = true) by (apply Nat.leb_le; lia).
  cbn [advance autoHideAt].
  assert (Et : tick x
               = runTimers (List.filter (isDue d) (timers x))
                   (set_timers
                      (List.filter (fun t => negb (isDue d t)) (timers x))
                      (set_now d x)))
    by (unfold tick; rewrite Hd; reflexivity).
  rewrite Et, Ht. clear Et.
  assert (Ez : Nat.leb d d = true) by apply Nat.leb_refl.
  destruct (Nat.ltb_spec (now x) 50) as [Hb | Hb].
  - cbn [List.filter]; unfold isDue; cbn [due]. rewrite Ez. cbn [negb].
    destruct (Nat.leb_spec 50 d) as [Hc | Hc]; cbn [negb].
    + assert (En : d = 50) by lia. rewrite En.
      replace (50 <=? 50) with true by reflexivity.
      replace (50 - 50) with 0 by reflexivity.
      cbn [advance runTimers fold_left task].
      destruct (toast_appear (set_timers [] (set_now 50 x)))
        as (F1 & F2 & F3 & F4 & F5); [exact Hm | exact Hs |].
      remember (runTask ToastAppear (set_timers [] (set_now 50 x))) as y eqn:Ey.
      clear Ey. change (runTask AutoHide y) with (hideNotification y).
      rewrite toast_hide_at_zero.
      * rewrite F3. apply in_or_app. right.
        do 5 right. left. reflexivity.
      * now rewrite F1.
      * exact F2.
      * unfold slideDownIsZero. rewrite F4, F3. reflexivity.
    + replace (d <=? 50) with true by (symmetry; apply Nat.leb_le; lia).
      replace (d - d) with 0 by lia.
      cbn [advance runTimers fold_left task].
      change (runTask AutoHide ?y) with (hideNotification y).
      rewrite toast_hide_at_zero.
      * apply in_or_app. right. do 5 right. left. reflexivity.
      * exact Hv.
      * exact Hm.
      * unfold slideDownIsZero. inst_red. now rewrite Hs.
  - cbn [List.filter]; unfold isDue; cbn [due]. rewrite Ez. cbn [negb].
    replace (d <=? 50) with false by (symmetry; apply Nat.leb_gt; lia).
    replace (d + 350 - d) with 350 by lia.
    cbn [runTimers fold_left task].
    remember (set_timers [] (set_now d x)) as y eqn:Ey.
    assert (Hy : shown y /\ now y = d /\ slideUpEnd y = None).
    { rewrite Ey. unfold shown, slideDownIsZero. inst_red. rewrite Hs.
      repeat split; try assumption. apply Nat.leb_gt. lia. }
    clear Ey. destruct Hy as (Hy & Hn & Hu).
    change (runTask AutoHide y) with (hideNotification y).
    destruct (toast_hide_slides y Hy) as (Hsl & _).
    rewrite Hu, Hn in Hsl.
    change (Nat.max 1 ANIMATION_DURATION) with 350 in Hsl.
    destruct (slidingUp_reaches _ _ Hsl) as (_ & H & _).
    rewrite now_hide, Hn in H.
    replace (d + 350 - d) with 350 in H by lia. exact H.
Qed.

(** When a notification that is left alone invokes [onHide]. *)
Lemma autoHide_onHide_at v p o ww wh :
  truthy_bool (disableAutoHide p) = false ->
  let d := Nat.max 1 (Z.to_nat (effectiveAutoHideDelay (autoHideDelay p))) in
  In (autoHideAt v d, EOnHide)
     (trace (advance (autoHideAt v d) (mount v p o ww wh))).
Proof.
  intros Hd. cbv zeta.
  assert (Hpill : v <> STANDARD ->
            In (Nat.max 1 (Z.to_nat (effectiveAutoHideDelay (autoHideDelay p)))
                + 525, EOnHide)
               (trace
                  (advance
                     (Nat.max 1
                        (Z.to_nat (effectiveAutoHideDelay (autoHideDelay p)))
                      + 525)
                     (mount v p o ww wh)))).
  { intros Hv.
    destruct (pill_autoHide_enters_chain v p o ww wh Hv Hd)
      as (Hm & Hnow & i & Hin).
    rewrite advance_add.
    remember (Nat.max 1 (Z.to_nat (effectiveAutoHideDelay (autoHideDelay p))))
      as d eqn:Ed.
    remember (advance d (mount v p o ww wh)) as s1 eqn:Es1.
    destruct (pill_chain s1 i 0 Hm) as (_ & H & _);
      [lia | rewrite Hnow; exact Hin | rewrite Hnow in H; exact H]. }
  destruct v; [apply Hpill; discriminate | apply Hpill; discriminate |].
  clear Hpill.
  destruct (toastIdle_mount p o ww wh Hd) as (Hnow & Hi).
  remember (Nat.max 1 (Z.to_nat (effectiveAutoHideDelay (autoHideDelay p))))
    as d eqn:Ed.
  assert (Hpos : 1 <= d) by (rewrite Ed; apply Nat.le_max_l).
  remember (mount STANDARD p o ww wh) as s0 eqn:Es0.
  assert (Hge : d <= autoHideAt STANDARD d)
    by (cbn [autoHideAt]; destruct (d <=? 50); lia).
  replace (autoHideAt STANDARD d)
    with ((d - 1) + S (autoHideAt STANDARD d - d)) at 2 by lia.
  rewrite advance_add.
  apply toastIdle_fires.
  - apply toastIdle_advance; [exact Hi | lia].
  - rewrite now_advance. lia.
Qed.



(** ** Variant animators: what never happens *)

Lemma quiet_task_count t s :
  quiet t = true -> onHideCount (runTask (task t) s) = onHideCount s.
Proof.
  unfold quiet. destruct (task t); try discriminate; intros _;
    cbn [runTask];
    destruct (isMounted s); cbn [negb]; try reflexivity;
    animator_open; animator_cases; count_simpl; lia.
Qed.

Lemma forallb_quiet_Forall l :
  forallb quiet l = true -> Forall (fun t => quiet t = true) l.
Proof.
  intros H. apply List.Forall_forall. apply (proj1 (forallb_forall quiet l)).
  exact H.
Qed.

Lemma idle_tick s :
  idle s -> idle (tick s).
Proof.
  intros (Hh & Hc & Hq). unfold tick.
  apply (runTimers_ok idle (fun t => quiet t = true)).
  - intros t x Ht (Hh' & Hc' & Hq').
    destruct (quiet_task t x Ht (quiet_noSlideUp _ Hq')) as (H1 & _ & H3).
    pose proof (quiet_task_count t x Ht) as H4.
    unfold idle. now rewrite H1, H3, H4.
  - apply forallb_quiet_Forall. now apply forallb_filter_quiet.
  - split; [exact Hh | split; [exact Hc |]].
    inst_simpl. now apply forallb_filter_quiet.
Qed.

Lemma idle_step s e : isTrigger e = 0 -> idle s -> idle (step s e).
Proof.
  intros He Hk. pose proof Hk as (Hh & Hc & Hq).
  destruct e; cbn [step]; try discriminate He.
  - unfold onContentLayout, island_onContentLayout, notch_onContentLayout,
      toast_onContentLayout.
    destruct (variant s), (isMounted s); cbn [negb orb]; try exact Hk;
      inst_simpl; destruct (measuredOnce s); cbn [negb]; try exact Hk;
      unfold idle; revert Hh Hc; count_simpl; intros Hh Hc; inst_simpl;
      (split; [lia | split; [lia | exact Hq]]).
  - unfold onNotificationLayout.
    destruct (isMounted s), (variant s); try destruct (Qeq_bool _ _);
      exact Hk.
  - destruct (isMounted s); [| exact Hk].
    unfold cleanup. inst_simpl.
    destruct (autoHideTimeout s); unfold clearTimeout;
      (split; [exact Hh | split; [exact Hc |]]); inst_simpl;
      [now apply forallb_filter_quiet | exact Hq].
  - unfold loadDeviceConfig. destruct (isMounted s); exact Hk.
  - clear He Hh Hc Hq. induction ms as [| k IH] in s, Hk |- *; simpl.
    + exact Hk.
    + apply IH, idle_tick, Hk.
Qed.

Lemma idle_run evs s : triggers evs = 0 -> idle s -> idle (run evs s).
Proof.
  revert s. induction evs as [| e evs IH]; intros s Ht H; simpl; [exact H |].
  change (triggers (e :: evs)) with (isTrigger e + triggers evs) in Ht.
  apply IH; [lia |]. apply idle_step; [lia | exact H].
Qed.

Lemma idle_mount v p o ww wh :
  truthy_bool (disableAutoHide p) = true -> idle (mount v p o ww wh).
Proof.
  destruct p as [m ty tc ss sc bc ch ad sCl dah eh].
  cbn [disableAutoHide]. intros Hd.
  destruct dah as [[] |]; try discriminate Hd.
  destruct v, sCl, eh as [[] |], ty as [[] |]; vm_compute; repeat split.
Qed.

(** X8.  A persistent notification never hides by itself.  With
    [disableAutoHide] set, whatever time passes and whatever layout,
    configuration or unmount events arrive, [hideNotification] is not
    entered and [onHide] is not invoked until a press or a close-handle
    call. *)
Theorem disableAutoHide_never_hides_by_itself :
  forall v p o ww wh evs,
    truthy_bool (disableAutoHide p) = true ->
    triggers evs = 0 ->
    hideCalls (run evs (mount v p o ww wh)) = 0 /\
    onHideCount (run evs (mount v p o ww wh)) = 0.
Proof.
  intros v p o ww wh evs Hd Ht.
  destruct (idle_run evs _ Ht (idle_mount v p o ww wh Hd)) as (H1 & H2 & _).
  split; assumption.
Qed.

Lemma disableAutoHide_never_hides_by_itself_witness :
  onHideCount
    (run [Layout (200 # 1) (40 # 1); Wait 4000; DeviceConfigLoaded None]
         (mount DYNAMIC_ISLAND Samples.persistentProps ios (390 # 1) (844 # 1)))
  = 0.
Proof.
  apply (disableAutoHide_never_hides_by_itself DYNAMIC_ISLAND
           Samples.persistentProps ios (390 # 1) (844 # 1));
    reflexivity.
Defined.

Lemma dead_after_cleanup s : armedOnHide s = 0 -> dead (cleanup s).
Proof.
  intros Ha. unfold dead, cleanup. inst_simpl.
  destruct (autoHideTimeout s) as [id |]; unfold clearTimeout, armedOnHide in *;
    inst_simpl; (split; [reflexivity |]); [| exact Ha].
  pose proof (pendingWeight_filter_le armedWeight
                (fun t => negb (Nat.eqb (tid t) id)) (timers s)). lia.
Qed.

Lemma awaiting_unarmed d s : awaiting d s -> armedOnHide s = 0.
Proof.
  intros (_ & pre & id & Ht & Hq). unfold armedOnHide. rewrite Ht.
  rewrite pendingWeight_app, pendingWeight_one. cbn [task armedWeight].
  assert (pendingWeight armedWeight pre = 0); [| lia].
  clear Ht. induction pre as [| t pre IH]; [reflexivity |].
  simpl in Hq. apply andb_prop in Hq as (Ht & Hq).
  unfold pendingWeight in *. simpl. rewrite (IH Hq).
  unfold quiet in Ht. destruct (task t); try discriminate; reflexivity.
Qed.

(** X9.  An unmount silences an instance whose hide chains have not yet armed
    their last timeout: whatever happens afterwards, timers and
    close-handle calls included, [onHide] is not invoked again.  This is
    the case, in particular, when the instance is unmounted before its
    auto-hide timer is due and nothing has triggered a hide: [onHide] is
    then never invoked. *)
Theorem unmount_before_final_timeout_is_silent :
  (forall s evs,
     isMounted s = true -> armedOnHide s = 0 ->
     onHideCount (run (Unmount :: evs) s) = onHideCount s) /\
  (forall v p o ww wh n evs,
     truthy_bool (disableAutoHide p) = false ->
     n < Nat.max 1 (Z.to_nat (effectiveAutoHideDelay (autoHideDelay p))) ->
     onHideCount (run (Wait n :: Unmount :: evs) (mount v p o ww wh)) = 0).
Proof.
  assert (H1 : forall s evs,
             isMounted s = true -> armedOnHide s = 0 ->
             onHideCount (run (Unmount :: evs) s) = onHideCount s).
  { intros s evs Hm Ha.
    change (run (Unmount :: evs) s) with (run evs (step s Unmount)).
    cbn [step]. rewrite Hm. cbn beta iota.
    destruct (dead_run evs (cleanup s) (dead_after_cleanup s Ha)) as (_ & ->).
    unfold cleanup, onHideCount. inst_simpl.
    destruct (autoHideTimeout s); reflexivity. }
  split; [exact H1 |].
  intros v p o ww wh n evs Hd Hn.
  pose proof (awaiting_mount v p o ww wh Hd) as Ha.
  destruct (mount_timers v p o ww wh Hd) as (_ & Hnow & _).
  destruct (awaiting_advance _ n _ Ha) as (Ha' & _); [lia |].
  change (run (Wait n :: Unmount :: evs) (mount v p o ww wh))
    with (run (Unmount :: evs) (advance n (mount v p o ww wh))).
  rewrite H1.
  - pose proof (advance_potential chainWeight (fun _ => True)
                  (fun _ _ _ _ => I) (fun _ _ _ => I)
                  (fun t x _ => chain_task t x) n (mount v p o ww wh) I) as Hp.
    rewrite chain_mount in Hp. unfold autoArmed in Hp. rewrite Hd in Hp.
    destruct Ha' as (_ & pre & id & Ht & _).
    unfold potential in Hp. rewrite Ht, pendingWeight_app, pendingWeight_one in Hp.
    cbn [task chainWeight] in Hp. lia.
  - rewrite isMounted_advance. apply isMounted_mount.
  - now apply (awaiting_unarmed _ _ Ha').
Qed.

Lemma unmount_before_final_timeout_is_silent_witness :
  let s := run [Press; Wait 400]
               (mount NOTCH Samples.persistentProps ios (390 # 1) (844 # 1)) in
  onHideCount (run [Unmount; Wait 1000; CloseHandle; Wait 1000] s) = 0.
Proof.
  cbv zeta.
  destruct unmount_before_final_timeout_is_silent as (H & _).
  rewrite H; vm_compute; reflexivity.
Defined.

(** ** Variant animators: width, shadow and the hidden style *)

Lemma measuredOnce_run evs s : measuredOnce s = true -> measuredOnce (run evs s) = true.
Proof.
  apply (run_inv (fun x => measuredOnce x = true)).
  - intros x n l H. exact H.
  - intros t x H. destruct t; cbn [runTask];
      animator_open; animator_cases; exact H.
  - intros x a b H. unfold onContentLayout, island_onContentLayout,
      notch_onContentLayout, toast_onContentLayout.
    destruct (variant x), (isMounted x); cbn [negb orb]; try exact H;
      inst_simpl; rewrite H; cbn [negb]; try exact H; reflexivity.
  - intros x a H. unfold onNotificationLayout.
    destruct (variant x); try exact H; destruct (Qeq_bool _ _); exact H.
  - intros x H. animator_open. animator_cases; exact H.
  - intros x H. unfold cleanup. inst_simpl.
    destruct (autoHideTimeout x); exact H.
  - intros x id H. unfold loadDeviceConfig. destruct (isMounted x); exact H.
Qed.

Lemma variant_run evs s : variant (run evs s) = variant s.
Proof.
  apply (run_inv (fun x => variant x = variant s)); try reflexivity.
  - intros x n l H. exact H.
  - intros t x H. now rewrite variant_task.
  - intros x c d H. now rewrite variant_layout.
  - intros x c H. rewrite <- H. unfold onNotificationLayout.
    destruct (variant x) eqn:E; try destruct (Qeq_bool _ _); cbn; congruence.
  - intros x H. now rewrite variant_hide.
  - intros x H. now rewrite variant_cleanup.
  - intros x id H. rewrite <- H. unfold loadDeviceConfig.
    destruct (isMounted x); reflexivity.
Qed.

(** X10.  The island and the notch use the measured width once.  The first
    layout of a mounted instance commits the measured width plus 40,
    capped at the maximum width; from then on, whatever happens, every
    layout received while mounted commits the maximum width itself, not
    the measured one. *)
Theorem pill_width_measured_once :
  forall s a b,
    variant s <> STANDARD -> isMounted s = true ->
    let maxWidth x :=
      match variant x with
      | DYNAMIC_ISLAND => dynamicIslandMaxWidth x
      | _ => notchMaxWidth x
      end in
    (measuredOnce s = false ->
     w (contentSize (onContentLayout a b s))
     = Qmin (Double.add a (40 # 1)) (maxWidth s) /\
     measuredOnce (onContentLayout a b s) = true) /\
    (measuredOnce s = true ->
     forall evs a' b',
       let s' := run evs s in
       isMounted s' = true ->
       w (contentSize (onContentLayout a' b' s')) = maxWidth s').
Proof.
  intros s a b Hv Hm maxWidth. split.
  - intros Ho. unfold onContentLayout, island_onContentLayout,
      notch_onContentLayout, maxWidth.
    destruct (variant s); try (now contradiction Hv);
      rewrite Hm; inst_simpl; rewrite Ho; cbn [negb]; inst_simpl;
      split; reflexivity.
  - intros Ho evs a' b' s' Hm'.
    pose proof (measuredOnce_run evs s Ho) as Ho'. fold s' in Ho'.
    pose proof (variant_run evs s) as Hvar. fold s' in Hvar.
    unfold onContentLayout, island_onContentLayout, notch_onContentLayout,
      maxWidth.
    destruct (variant s') eqn:E.
    + rewrite Hm'. inst_simpl. rewrite Ho'. reflexivity.
    + rewrite Hm'. inst_simpl. rewrite Ho'. reflexivity.
    + exfalso. apply Hv. now rewrite <- Hvar.
Qed.

Lemma pill_width_measured_once_witness :
  let s := run [Layout (100 # 1) (20 # 1)]
               (mount NOTCH Samples.persistentProps ios (390 # 1) (844 # 1)) in
  w (contentSize s) = 140 # 1 /\
  w (contentSize (onContentLayout (100 # 1) (20 # 1) (run [Wait 10] s)))
  = notchMaxWidth (run [Wait 10] s).
Proof.
  cbv zeta. split; [reflexivity |].
  match goal with
  | |- context [run [Wait 10] ?s] =>
      destruct (pill_width_measured_once s (100 # 1) (20 # 1)) as (_ & H)
  end.
  - discriminate.
  - reflexivity.
  - apply (H eq_refl [Wait 10] (100 # 1) (20 # 1)). reflexivity.
Defined.



(** *** The toast is not painted before its appear timer *)

Lemma cancel_appear_due n l :
  Forall (fun t => task t = ToastAppear -> 50 <= due t) l ->
  Forall (fun t => task t = ToastAppear -> 50 <= due t)
         (List.map (cancelTimer n) l).
Proof.
  intros H. rewrite List.Forall_forall in *. intros t Ht.
  apply in_map_iff in Ht. destruct Ht as (u & <- & Hu).
  unfold cancelTimer. destruct (isSlideUp u); [discriminate |].
  now apply H.
Qed.

Lemma hidden_before_appear n p o ww wh :
  n < 50 ->
  completelyHidden (advance n (mount STANDARD p o ww wh)) = 1%Z.
Proof.
  intros Hn.
  set (P := fun x : Inst =>
              completelyHidden x = 1%Z /\
              Forall (fun t => task t = ToastAppear -> 50 <= due t) (timers x)).
  assert (Htask : forall t x, task t <> ToastAppear -> P x -> P (runTask (task t) x)).
  { intros t x Ht (Hc & Hq). unfold P.
    destruct (task t); try (now contradiction Ht); cbn [runTask];
      animator_open; animator_cases; inst_red;
      (split; [first [exact Hc | reflexivity] |]);
      repeat (apply Forall_app; split);
      first [exact Hq | now apply cancel_appear_due
            | constructor; [cbn [task]; discriminate | constructor]]. }
  assert (Htick : forall x, P x -> S (now x) < 50 -> P (tick x)).
  { intros x (Hc & Hq) Hx. unfold tick.
    apply (runTimers_ok P (fun t => task t <> ToastAppear)).
    - exact Htask.
    - apply List.Forall_forall. intros t Ht. apply filter_In in Ht as (Ht & Hdue).
      intros Htask'. rewrite List.Forall_forall in Hq.
      specialize (Hq t Ht Htask'). unfold isDue in Hdue.
      apply Nat.leb_le in Hdue. lia.
    - split; [exact Hc |]. inst_simpl. rewrite List.Forall_forall in *.
      intros t Ht. apply filter_In in Ht as (Ht & _). now apply Hq. }
  assert (H0 : P (mount STANDARD p o ww wh) /\ now (mount STANDARD p o ww wh) = 0).
  { destruct p as [m ty tc ss sc bc ch ad sCl dah eh].
    destruct sCl, dah as [[] |]; (split; [split |]); try reflexivity;
      vm_compute; repeat constructor; try discriminate;
      intros _; repeat constructor. }
  destruct H0 as (H0 & Hnow).
  assert (Hadv : forall k x, P x -> now x + k < 50 -> P (advance k x)).
  { induction k as [| k IH]; intros x Hx Hk; simpl; [exact Hx |].
    apply IH; [apply Htick; [exact Hx | lia] | rewrite now_tick; lia]. }
  destruct (Hadv n _ H0) as (Hc & _); [lia | exact Hc].
Qed.

(** X12.  During the first 50 ms after its mount, the toast is rendered hidden
    (opacity 0, scale 0, 100 points above its place), whatever its props:
    even an auto-hide timer that fires earlier does not make it visible. *)
Theorem toast_hidden_before_appear :
  forall interpolate p o ww wh n,
    n < 50 ->
    animatedStyle interpolate (advance n (mount STANDARD p o ww wh))
    = mkStyle None None 0 None None None None 0 (Some (- (100 # 1))%Q).
Proof.
  intros interpolate p o ww wh n Hn.
  unfold animatedStyle.
  assert (Hv : variant (advance n (mount STANDARD p o ww wh)) = STANDARD).
  { change (advance n ?x) with (run [Wait n] x). rewrite variant_run.
    now destruct (mount_geometry STANDARD p o ww wh) as (? & _). }
  rewrite Hv. unfold toastStyle.
  now rewrite (hidden_before_appear n p o ww wh Hn).
Qed.

Lemma toast_hidden_before_appear_witness :
  st_opacity
    (animatedStyle (fun x _ _ _ => x)
       (advance 49 (mount STANDARD Samples.zeroDelayProps ios (390 # 1) (844 # 1))))
  = 0%Q.
Proof.
  rewrite (toast_hidden_before_appear (fun x _ _ _ => x) Samples.zeroDelayProps
             ios (390 # 1) (844 # 1) 49); [reflexivity | lia].
Defined.

(** ** Variant animators: haptic feedback and the close handle *)

Ltac fx_simpl :=
  unfold hapticBudget, hapticLog, hapticCount, setCloseCount,
    setTimeout_, setTimeout, emit;
  inst_red;
  rewrite ?List.filter_app, ?List.map_app, ?length_app, ?pendingWeight_app,
    ?pendingWeight_one, ?pendingWeight_cancel by reflexivity;
  cbn [List.filter List.map isHaptic isSetClose snd length app task
       appearWeight].

Ltac fx_cases :=
  unfold hideNotification, haptics, toast_hideNotification,
    pill_hideNotification, slideUpCallback, startSlideDown, resetSlideDown,
    cancelSlideUp;
  animator_cases.

Lemma props_run evs s : props (run evs s) = props s.
Proof.
  apply (run_inv (fun x => props x = props s)); try reflexivity.
  - intros x n l H. exact H.
  - intros t x H. rewrite <- H. destruct t; cbn [runTask]; fx_cases;
      reflexivity.
  - intros x a b H. rewrite <- H.
    unfold onContentLayout, island_onContentLayout, notch_onContentLayout,
      toast_onContentLayout.
    destruct (variant x), (isMounted x); cbn [negb orb]; try reflexivity;
      inst_simpl; destruct (measuredOnce x); reflexivity.
  - intros x a H. rewrite <- H. unfold onNotificationLayout.
    destruct (variant x); try destruct (Qeq_bool _ _); reflexivity.
  - intros x H. rewrite <- H. fx_cases; reflexivity.
  - intros x H. rewrite <- H. unfold cleanup. inst_simpl.
    destruct (autoHideTimeout x); reflexivity.
  - intros x id H. rewrite <- H. unfold loadDeviceConfig.
    destruct (isMounted x); reflexivity.
Qed.

(** *** [setClose] is only called by the mount effect *)

Lemma setClose_run evs s : setCloseCount (run evs s) = setCloseCount s.
Proof.
  apply (run_inv (fun x => setCloseCount x = setCloseCount s));
    try reflexivity.
  - intros x n l H. exact H.
  - intros t x H. rewrite <- H. destruct t; cbn [runTask]; fx_cases;
      fx_simpl; lia.
  - intros x a b H. rewrite <- H.
    unfold onContentLayout, island_onContentLayout, notch_onContentLayout,
      toast_onContentLayout.
    destruct (variant x), (isMounted x); cbn [negb orb]; try reflexivity;
      inst_simpl; destruct (measuredOnce x); cbn [negb]; try reflexivity;
      fx_simpl; lia.
  - intros x a H. rewrite <- H. unfold onNotificationLayout.
    destruct (variant x); try destruct (Qeq_bool _ _); fx_simpl; reflexivity.
  - intros x H. rewrite <- H. fx_cases; fx_simpl; lia.
  - intros x H. rewrite <- H. unfold cleanup, clearTimeout. inst_simpl.
    destruct (autoHideTimeout x); reflexivity.
  - intros x id H. rewrite <- H. unfold loadDeviceConfig.
    destruct (isMounted x); reflexivity.
Qed.

Lemma setClose_mount v p o ww wh :
  setCloseCount (mount v p o ww wh) = if setClose p then 1 else 0.
Proof.
  destruct p as [m ty tc ss sc bc ch ad sCl dah eh].
  destruct v, sCl, dah as [[] |], eh as [[] |], ty as [[] |];
    vm_compute; reflexivity.
Qed.

(** X13.  The close handle is handed out once.  A supplied [setClose] is
    called exactly once, by the mount effect, and never again whatever
    happens to the instance afterwards; without [setClose] it is never
    called. *)
Theorem setClose_called_once_at_mount :
  forall v p o ww wh evs,
    setCloseCount (run evs (mount v p o ww wh)) = if setClose p then 1 else 0.
Proof.
  intros v p o ww wh evs. rewrite setClose_run. apply setClose_mount.
Qed.

(** *** Haptic feedback *)
















(** ** Provider: one live instance *)

Import PXInv.

Lemma map_alter_same {A B} (g : A -> B) (f : A -> A) i (l : list A) :
  (forall x, g (f x) = g x) -> List.map g (alter f i l) = List.map g l.
Proof.
  intros H. revert i. induction l as [| x l IH]; intros [| i]; cbn;
    rewrite ?H, ?IH; reflexivity.
Qed.

Lemma isMounted_tick x : isMounted (tick x) = isMounted x.
Proof. exact (isMounted_advance 1 x). Qed.

Lemma isMounted_cleanup x : isMounted (cleanup x) = false.
Proof.
  unfold cleanup, clearTimeout. inst_simpl.
  destruct (autoHideTimeout x); reflexivity.
Qed.

Lemma isMounted_layout a b x : isMounted (onContentLayout a b x) = isMounted x.
Proof.
  unfold onContentLayout, island_onContentLayout, notch_onContentLayout,
    toast_onContentLayout.
  destruct (variant x), (isMounted x) eqn:E; cbn [negb orb]; try exact E;
    inst_simpl; destruct (measuredOnce x); cbn [negb]; inst_simpl;
    try exact E; reflexivity.
Qed.

Lemma isMounted_press x : isMounted (step x Press) = isMounted x.
Proof.
  cbn [step]. destruct (isMounted x) eqn:E; [| exact E].
  now rewrite isMounted_hide.
Qed.

Lemma tidy_onInstance i f s :
  (forall x, isMounted (f x) = isMounted x) ->
  tidy s -> tidy (onInstance i f s).
Proof.
  intros Hf (Hl & Hc & Hv). unfold tidy, liveness, lastCreated, onInstance in *.
  sys_simpl. rewrite (map_alter_same isMounted f i _ Hf), length_alter.
  repeat split; assumption.
Qed.

Lemma tidy_tickAll s : tidy s -> tidy (tickAll s).
Proof.
  intros (Hl & Hc & Hv). unfold tidy, liveness, lastCreated, tickAll in *.
  destruct (existsb firesOnHide (instances s)); unfold setVisible; sys_simpl;
    rewrite List.map_map, length_map;
    rewrite (List.map_ext _ isMounted isMounted_tick);
    repeat split; assumption.
Qed.

Lemma tidy_elapse ms s : tidy s -> tidy (elapse ms s).
Proof.
  revert s. induction ms as [| k IH]; intros s H; cbn [elapse];
    [exact H | apply IH, tidy_tickAll, H].
Qed.

Lemma alter_cleanup_liveness i (l : list Inst) :
  List.map isMounted l = replicate i false ++ [true] ->
  List.map isMounted (alter cleanup i l) = replicate (length l) false.
Proof.
  revert l. induction i as [| i IH]; intros [| x l]; cbn; try discriminate.
  - intros H. injection H as _ H. destruct l; [| discriminate H].
    now rewrite isMounted_cleanup.
  - intros H. injection H as Hx H. rewrite Hx. f_equal. apply IH, H.
Qed.

Lemma tidy_unmount r s :
  tidy s -> visible (rendered s) = true ->
  let s' := unmountMounted (set_rendered r s) in
  liveness s' = replicate (length (instances s')) false /\
  mounted s' = None /\
  closeRef s' = lastCreated s' /\
  rendered s' = r.
Proof.
  intros (Hl & Hc & Hv) Vr. rewrite Vr in Hv. cbn [negb] in Hv.
  unfold unmountMounted, onInstance, liveness, lastCreated in *. sys_simpl.
  destruct (mounted s) as [i |]; [| now apply bool_decide_eq_false in Hv].
  sys_simpl. rewrite length_alter. repeat split; [| exact Hc].
  apply alter_cleanup_liveness, Hl.
Qed.

Lemma tidy_mount b s :
  liveness s = replicate (length (instances s)) false ->
  visible (rendered s) = true ->
  tidy (mountInstance b s).
Proof.
  intros Hl Vr. unfold mountInstance. rewrite props_mount.
  cbn [commonProps setClose]. unfold tidy, liveness, lastCreated in *.
  sys_simpl. rewrite List.map_app, length_app, Hl, Vr.
  cbn [List.map length negb]. rewrite isMounted_mount, Nat.add_1_r.
  repeat split.
Qed.

Lemma tidy_commit s : tidy s -> tidy (commit s).
Proof.
  intros H.
  assert (Hbar : forall x, tidy x -> tidy (statusBarEffect x)).
  { intros x Hx. unfold statusBarEffect. destruct (_ && _); exact Hx. }
  unfold commit. apply Hbar. unfold renderNotification.
  destruct (visible (rendered s)) eqn:Vr, (visible (pending s)) eqn:Vp;
    cbn [negb].
  - assert (Hnew : forall b,
              tidy (mountInstance b (unmountMounted (set_rendered (pending s) s)))).
    { intros b.
      destruct (tidy_unmount (pending s) s H Vr) as (Hl & _ & _ & Hr).
      apply tidy_mount; [exact Hl | now rewrite Hr]. }
    assert (Hkeep : tidy (set_rendered (pending s) s)).
    { destruct H as (Hl & Hc & Hv). unfold tidy, liveness, lastCreated in *.
      sys_simpl. rewrite Vp. rewrite Vr in Hv. repeat split; assumption. }
    destruct (deviceType (rendered s)), (deviceType (pending s));
      match goal with
      | |- context [bool_decide ?P] => destruct (bool_decide P)
      end; first [exact Hkeep | apply Hnew].
  - destruct (tidy_unmount (pending s) s H Vr) as (Hl & Hm & Hc & Hr).
    assert (Hgoal : tidy (unmountMounted (set_rendered (pending s) s))).
    { split; [rewrite Hm; exact Hl | split; [exact Hc |]].
      rewrite Hm, Hr, Vp. reflexivity. }
    destruct (deviceType (rendered s)); exact Hgoal.
  - assert (Hgoal : forall b, tidy (mountInstance b (set_rendered (pending s) s))).
    { intros b. apply tidy_mount; [| exact Vp].
      destruct H as (Hl & _ & Hv). rewrite Vr in Hv. cbn [negb] in Hv.
      apply bool_decide_eq_true in Hv. unfold liveness in *. sys_simpl.
      rewrite Hv in Hl. exact Hl. }
    destruct (deviceType (pending s)); apply Hgoal.
  - destruct H as (Hl & Hc & Hv). unfold tidy, liveness, lastCreated in *.
    sys_simpl. rewrite Vp. rewrite Vr in Hv. repeat split; assumption.
Qed.

Lemma tidy_perform s a : tidy s -> tidy (perform s a).
Proof.
  intros H. destruct a as [text ty o | c o | | i | | a b | id | | ms];
    cbn [perform].
  - destruct o as [[? ? ? ? ? ? ? [[] |]] |]; exact H.
  - destruct o as [[? ? ? ? ? ? ? [[] |]] |]; exact H.
  - unfold hide. destruct (closeRef s); [| exact H].
    apply tidy_onInstance; [apply isMounted_hide | exact H].
  - apply tidy_onInstance; [apply isMounted_hide | exact H].
  - destruct (mounted s); [| exact H].
    apply tidy_onInstance; [apply isMounted_press | exact H].
  - destruct (mounted s); [| exact H].
    apply tidy_onInstance; [| exact H]. intros x. apply isMounted_layout.
  - unfold detectDevice. destruct (forceStyleProp s) as [[] |]; exact H.
  - apply tidy_commit, H.
  - apply tidy_elapse, H.
Qed.

(** X15.  The provider keeps at most one live instance.  After any
    sequence of calls, renders and elapsed time, the only instance whose
    [isMounted] flag is still set is the one in the tree, which is the
    newest one; every older instance has been through its cleanup; the
    close handle is the one the newest instance handed out; and an
    instance is in the tree exactly when the last render was visible. *)
Theorem provider_keeps_one_live_instance :
  forall force o ww wh acts,
    tidy (play acts (initial force o ww wh)).
Proof.
  intros force o ww wh acts.
  assert (H0 : tidy (initial force o ww wh)) by (repeat split).
  revert H0. generalize (initial force o ww wh).
  unfold play. induction acts as [| a acts IH]; intros s H; cbn [fold_left].
  - exact H.
  - apply IH, tidy_perform, H.
Qed.

(** ** Provider: an auto-hidden notification leaves the tree *)

(** Left alone, a mounted instance with auto-hide invokes [onHide] once
    the delay and the hide animation have elapsed. *)
Lemma onHideCount_mount v p o ww wh : onHideCount (mount v p o ww wh) = 0.
Proof.
  destruct p as [m ty tc ss sc bc ch ad sCl dah eh].
  destruct v, sCl, dah as [[] |], eh as [[] |], ty as [[] |];
    vm_compute; reflexivity.
Qed.

Lemma autoHide_fires v p o ww wh n :
  truthy_bool (disableAutoHide p) = false ->
  Nat.max 1 (Z.to_nat (effectiveAutoHideDelay (autoHideDelay p)))
    + match v with STANDARD => 350 | _ => 525 end <= n ->
  onHideCount (mount v p o ww wh) < onHideCount (advance n (mount v p o ww wh)).
Proof.
  intros Hd Hn.
  pose proof (autoHide_onHide_at v p o ww wh Hd) as Hat. cbv zeta in Hat.
  remember (Nat.max 1 (Z.to_nat (effectiveAutoHideDelay (autoHideDelay p))))
    as d eqn:Ed.
  assert (Hle : autoHideAt v d <= n)
    by (destruct v; cbn [autoHideAt]; try destruct (d <=? 50); lia).
  rewrite onHideCount_mount.
  assert (Hin : In (autoHideAt v d, EOnHide)
                   (List.filter isOnHide (trace (advance n (mount v p o ww wh))))).
  { apply filter_In. split; [| reflexivity].
    replace n with (autoHideAt v d + (n - autoHideAt v d)) by lia.
    rewrite advance_add. apply trace_advance. exact Hat. }
  unfold onHideCount.
  destruct (List.filter isOnHide (trace (advance n (mount v p o ww wh))));
    [contradiction | simpl; lia].
Qed.

Lemma lookup_map {A B} (f : A -> B) (l : list A) i :
  List.map f l !! i = f <$> l !! i.
Proof.
  revert i. induction l as [| x l IH]; intros [| i]; cbn; auto.
Qed.

Lemma lookup_In {A} (l : list A) i x : l !! i = Some x -> In x l.
Proof.
  revert i. induction l as [| y l IH]; intros [| i]; cbn; try discriminate.
  - intros [= ->]. now left.
  - intros H. right. eapply IH, H.
Qed.

Lemma instances_elapse n s :
  instances (elapse n s) = List.map (advance n) (instances s).
Proof.
  revert s. induction n as [| k IH]; intros s; cbn [elapse advance].
  - now rewrite List.map_id.
  - rewrite IH. unfold tickAll.
    destruct (existsb _ _); unfold setVisible; sys_simpl;
      now rewrite List.map_map.
Qed.

Lemma hidden_tickAll s :
  visible (pending s) = false -> visible (pending (tickAll s)) = false.
Proof.
  intros H. unfold tickAll. destruct (existsb _ _); [reflexivity | exact H].
Qed.

Lemma hidden_elapse n s :
  visible (pending s) = false -> visible (pending (elapse n s)) = false.
Proof.
  revert s. induction n as [| k IH]; intros s H; cbn [elapse];
    [exact H | apply IH, hidden_tickAll, H].
Qed.

(** An [onHide] of any instance during the elapsed time leaves
    [visible] false. *)
Lemma elapse_fires n s i x :
  instances s !! i = Some x ->
  onHideCount x < onHideCount (advance n x) ->
  visible (pending (elapse n s)) = false.
Proof.
  revert s x. induction n as [| k IH]; intros s x Hx Hlt; cbn [elapse advance] in *.
  - lia.
  - destruct (firesOnHide x) eqn:F.
    + apply hidden_elapse. unfold tickAll.
      assert (E : existsb firesOnHide (instances s) = true).
      { apply existsb_exists. exists x. split; [| exact F].
        eapply lookup_In, Hx. }
      rewrite E. reflexivity.
    + apply (IH (tickAll s) (tick x)).
      * unfold tickAll. destruct (existsb _ _); unfold setVisible; sys_simpl;
          rewrite lookup_map, Hx; reflexivity.
      * unfold firesOnHide in F. apply Nat.ltb_ge in F.
        pose proof (onHideCount_advance 1 x) as Hm. cbn [advance] in Hm. lia.
Qed.

(** X16.  An auto-hidden notification is taken down.  A [show] rendered
    while nothing is on screen mounts a new instance; without
    [disableAutoHide], once the auto-hide delay and the hide animation
    (525 ms for island and notch, 350 ms for the toast) have elapsed, the
    next render removes the instance from the tree, runs its cleanup,
    and restores the status bar. *)
Theorem autoHide_removes_notification :
  forall s text ty opts n,
    visible (rendered s) = false ->
    truthy_bool (o_disableAutoHide (or_default opts noOptions)) = false ->
    let s1 := commit (show text ty opts s) in
    Nat.max 1 (Z.to_nat (effectiveAutoHideDelay
                           (o_autoHideDelay (or_default opts noOptions))))
      + match deviceType (rendered s1) with STANDARD => 350 | _ => 525 end
      <= n ->
    let s2 := commit (elapse n s1) in
    mounted s1 = Some (length (instances s)) /\
    mounted s2 = None /\
    visible (rendered s2) = false /\
    statusBarHidden s2 = false /\
    isMounted <$> instances s2 !! length (instances s) = Some false.
Proof.
  intros s text ty opts n Vr Hd s1 Hn s2.
  set (s0 := show text ty opts s) in *.
  assert (Vp : visible (pending s0) = true)
    by (destruct opts as [[? ? ? ? ? ? ? [[] |]] |]; reflexivity).
  assert (Ho : options (pending s0) = or_default opts noOptions)
    by (destruct opts as [[? ? ? ? ? ? ? [[] |]] |]; reflexivity).
  assert (Hr0 : rendered s0 = rendered s)
    by (destruct opts as [[? ? ? ? ? ? ? [[] |]] |]; reflexivity).
  assert (Hi0 : instances s0 = instances s)
    by (destruct opts as [[? ? ? ? ? ? ? [[] |]] |]; reflexivity).
  set (b := deviceType (pending s0)) in *.
  set (inst := Animator.mount b (commonProps (pending s0)) (platform s0)
                 (screenWidth s0) (screenHeight s0)).
  assert (E1 : s1 = statusBarEffect (mountInstance b (set_rendered (pending s0) s0))).
  { unfold s1, commit, renderNotification. rewrite Hr0, Vr, Vp. cbn [negb].
    fold b. destruct b; reflexivity. }
  assert (Hs1 : rendered s1 = pending s0 /\ pending s1 = pending s0 /\
                mounted s1 = Some (length (instances s)) /\
                instances s1 = instances s ++ [inst]).
  { rewrite E1. unfold statusBarEffect, mountInstance.
    rewrite props_mount. cbn [commonProps setClose]. sys_simpl.
    rewrite Hi0. destruct (_ && _); sys_simpl; repeat split. }
  destruct Hs1 as (Hr1 & Hp1 & Hm1 & Hi1).
  assert (Hb : deviceType (rendered s1) = b) by (now rewrite Hr1).
  rewrite Hb in Hn.
  assert (Hx : instances s1 !! length (instances s) = Some inst).
  { rewrite Hi1. rewrite lookup_app_r by lia.
    now rewrite Nat.sub_diag. }
  assert (Hfire : onHideCount inst < onHideCount (advance n inst)).
  { apply autoHide_fires; cbn [commonProps disableAutoHide autoHideDelay];
      rewrite Ho; assumption. }
  pose proof (elapse_fires n s1 _ inst Hx Hfire) as Vp2.
  pose proof (committed_elapse n s1) as Hc. unfold committed in Hc.
  injection Hc as Hr2 _ Hm2 _ _.
  pose proof (instances_elapse n s1) as Hi2.
  set (e := elapse n s1) in *.
  assert (E2 : s2 = statusBarEffect (unmountMounted (set_rendered (pending e) e))).
  { unfold s2, commit, renderNotification.
    rewrite Hr2, Hr1, Vp, Vp2. cbn [negb]. fold b. destruct b; reflexivity. }
  split; [exact Hm1 |].
  rewrite E2. unfold statusBarEffect, unmountMounted, onInstance. sys_simpl.
  rewrite Hm2, Hm1. sys_simpl. rewrite Vp2. cbn [andb]. sys_simpl.
  repeat split; try assumption.
  rewrite list_lookup_alter, Hi2, lookup_map, Hx.
  cbn [fmap option_fmap option_map]. rewrite decide_True by reflexivity.
  cbn [fmap option_fmap option_map]. f_equal. apply isMounted_cleanup.
Qed.

Lemma autoHide_removes_notification_witness :
  let s1 := commit (show "Saved" Animator.success None Samples.iphone) in
  let s2 := commit (elapse 4000 s1) in
  mounted s1 = Some (length (instances Samples.iphone)) /\
  mounted s2 = None /\
  visible (rendered s2) = false /\
  statusBarHidden s2 = false /\
  isMounted <$> instances s2 !! length (instances Samples.iphone) = Some false.
Proof.
  cbv zeta.
  eapply (autoHide_removes_notification Samples.iphone "Saved"
            Animator.success None 4000).
  - reflexivity.
  - reflexivity.
  - vm_compute. lia.
Defined.
